(** * pymongo.ssl_support: TLS client-context resolution

    A shallow embedding of [pymongo/ssl_support.py] and the properties
    its specification states about it.

    The Python module binds [validate_cert_reqs] and [get_ssl_context]
    to one of two pairs of functions, chosen when the module is
    imported by the flag [HAVE_SSL].  Both pairs are embedded
    ([HaveSSL] and [NoSSL]) together with the module-level choice.

    What the module takes from outside (the [ssl] module's namespace,
    the [SSLContext] class in use, the platform, the optional packages
    [certifi] and [wincertstore], and whether a call into one of them
    raises) is gathered in the record [runtime]; the module's global
    [_WINCERTS], the [atexit] registry and the sequence of calls made
    to the outside are the record [world], threaded through the code
    by a state-and-exception monad. *)

From Stdlib Require Import String ZArith QArith List Bool Lia.
Import ListNotations.

Local Open Scope string_scope.
Local Open Scope Z_scope.
Local Open Scope list_scope.

(** ** Python values *)

(** The values the arguments of the two functions range over.
    [PFloat] is a number that is not an [int], given by its value: a
    [float], and likewise a [Fraction] or a [Decimal]; such a number
    equals an [int] of the same value.  (A [float] that is not a
    number equals nothing and behaves as a [PObj].)  [PObj] stands for
    any other object, compared by identity. *)
Inductive pyval : Type :=
| PNone
| PBool (b : bool)
| PInt (n : Z)
| PFloat (q : Q)
| PStr (s : string)
| PObj (id : nat).

(** [x is None] *)
Definition is_None (x : pyval) : bool :=
  match x with PNone => true | _ => false end.

(** [isinstance(x, string_type)] *)
Definition is_string (x : pyval) : bool :=
  match x with PStr _ => true | _ => false end.

(** [isinstance(x, int)]; [bool] is a subclass of [int]. *)
Definition is_int (x : pyval) : bool :=
  match x with PInt _ | PBool _ => true | _ => false end.

(** The value of a number. *)
Definition number (x : pyval) : option Q :=
  match x with
  | PBool b => Some (inject_Z (Z.b2z b))
  | PInt n => Some (inject_Z n)
  | PFloat q => Some q
  | _ => None
  end.

(** [x == y]: numbers are compared by value, so [True == 1] and
    [1.0 == 1]. *)
Definition py_eq (x y : pyval) : bool :=
  match x, y with
  | PNone, PNone => true
  | PBool a, PBool b => Bool.eqb a b
  | PInt m, PInt n => Z.eqb m n
  | PBool a, PInt n => Z.eqb (Z.b2z a) n
  | PInt m, PBool b => Z.eqb m (Z.b2z b)
  | PFloat p, _ | _, PFloat p =>
      match number x, number y with
      | Some a, Some b => Qeq_bool a b
      | _, _ => false
      end
  | PStr s, PStr t => String.eqb s t
  | PObj i, PObj j => Nat.eqb i j
  | _, _ => false
  end.

(** [x != y] *)
Definition py_ne (x y : pyval) : bool := negb (py_eq x y).

(** [x in (y1, ..., yn)] *)
Definition py_in (x : pyval) (ys : list pyval) : bool :=
  existsb (py_eq x) ys.

(** ** The ssl module's verification modes

    [ssl.CERT_NONE], [ssl.CERT_OPTIONAL] and [ssl.CERT_REQUIRED] are
    the integers 0, 1 and 2. *)
Definition CERT_NONE : pyval := PInt 0.
Definition CERT_OPTIONAL : pyval := PInt 1.
Definition CERT_REQUIRED : pyval := PInt 2.

Definition cert_reqs_values : list pyval :=
  [CERT_NONE; CERT_OPTIONAL; CERT_REQUIRED].

(** ** Calls to the outside and exceptions *)

(** Calls into the TLS library and [wincertstore] that touch files or
    the OS certificate store, and so may raise. *)
Inductive libcall : Type :=
| load_cert_chain (certfile : string) (keyfile : option string)
| load_verify_locations (cafile : string)
| load_default_certs
| set_default_verify_paths
| CertFile_new
| addstore (store : string).

Inductive exn : Type :=
| ValueError (msg : string)
| ConfigurationError (msg : string)
| AttributeError (msg : string)
(** an exception raised inside a library call; it propagates unchanged *)
| LibraryError (c : libcall)
(** the exception of the [verify_mode] property of an [SSLContext]
    class that checks the value assigned to it; with [ssl.SSLContext]
    it is a [ValueError] for an integer that is not a mode and a
    [TypeError] for a value that is not an integer *)
| VerifyModeError (v : pyval).

Inductive outcome (A : Type) : Type :=
| Returns (a : A)
| Raises (e : exn).
Arguments Returns {A} a.
Arguments Raises {A} e.

(** ** The runtime the module is imported in *)

Record runtime : Type := {
  (** the flags set by the conditional imports *)
  HAVE_SSL : bool;
  HAVE_CERTIFI : bool;
  HAVE_WINCERTSTORE : bool;
  (** [sys.platform] *)
  sys_platform : string;
  (** the [ssl] module's namespace, besides the three [CERT_*] values *)
  PROTOCOL_SSLv23 : Z;
  OP_NO_SSLv2 : option Z;
  OP_NO_SSLv3 : option Z;
  VERIFY_CRL_CHECK_LEAF : Z;
  ssl_other_attrs : list (string * pyval);
  (** the [SSLContext] class in use: [ssl.SSLContext], or
      [pymongo.ssl_context.SSLContext] where the former is missing *)
  ctx_has_options : bool;
  ctx_default_options : Z;
  ctx_has_verify_flags : bool;
  ctx_default_verify_flags : Z;
  ctx_has_load_default_certs : bool;
  ctx_has_set_default_verify_paths : bool;
  ctx_checks_verify_mode : bool;
  (** whether a call into a library raises *)
  raises : libcall -> bool;
  (** [certifi.where()] *)
  certifi_where : string;
  (** the [name] of the n-th [CertFile] instance *)
  CertFile_name : nat -> string
}.

Fixpoint assoc (k : string) (l : list (string * pyval)) : option pyval :=
  match l with
  | [] => None
  | (k', v) :: l' => if String.eqb k k' then Some v else assoc k l'
  end.

(** [getattr(ssl, name)], [None] when [hasattr(ssl, name)] is false.
    The names the module itself reads from [ssl] come first. *)
Definition ssl_getattr (rt : runtime) (name : string) : option pyval :=
  if String.eqb name "CERT_NONE" then Some CERT_NONE
  else if String.eqb name "CERT_OPTIONAL" then Some CERT_OPTIONAL
  else if String.eqb name "CERT_REQUIRED" then Some CERT_REQUIRED
  else if String.eqb name "PROTOCOL_SSLv23" then Some (PInt (PROTOCOL_SSLv23 rt))
  else if String.eqb name "OP_NO_SSLv2" then option_map PInt (OP_NO_SSLv2 rt)
  else if String.eqb name "OP_NO_SSLv3" then option_map PInt (OP_NO_SSLv3 rt)
  else if String.eqb name "VERIFY_CRL_CHECK_LEAF" then
    if ctx_has_verify_flags rt then Some (PInt (VERIFY_CRL_CHECK_LEAF rt)) else None
  else assoc name (ssl_other_attrs rt).

(** [hasattr(ssl, name)] *)
Definition ssl_hasattr (rt : runtime) (name : string) : bool :=
  match ssl_getattr rt name with Some _ => true | None => false end.

(** ** The module's state and its monad *)

(** An instance of [wincertstore.CertFile]: the n-th one created, and
    the OS stores added to it. *)
Record CertFile : Type := {
  cf_id : nat;
  cf_stores : list string
}.

(** What a run leaves behind outside the returned context, in order. *)
Inductive event : Type :=
| Call (c : libcall)
| CertifiWhere
| AcquireLock
| ReleaseLock
| AtexitRegister (cf : nat).

Record world : Type := {
  (** the module global [_WINCERTS] *)
  _WINCERTS : option CertFile;
  (** the callbacks registered with [atexit]: [close] of these instances *)
  atexit : list nat;
  (** the [CertFile] instances created so far *)
  CertFile_count : nat;
  trace : list event
}.

Definition M (A : Type) : Type := world -> outcome A * world.

Definition ret {A} (a : A) : M A := fun w => (Returns a, w).

Definition raise {A} (e : exn) : M A := fun w => (Raises e, w).

Definition bind {A B} (m : M A) (k : A -> M B) : M B :=
  fun w =>
    match m w with
    | (Returns a, w') => k a w'
    | (Raises e, w') => (Raises e, w')
    end.

Notation "x <- m ;; k" := (bind m (fun x => k))
  (at level 61, m at next level, right associativity).
Notation "m ;;; k" := (bind m (fun _ => k))
  (at level 61, right associativity).

Definition log (e : event) : M unit :=
  fun w => (Returns tt,
            {| _WINCERTS := _WINCERTS w; atexit := atexit w;
               CertFile_count := CertFile_count w;
               trace := trace w ++ [e] |}).

(** A call into a library: it is recorded, then returns or raises. *)
Definition call (rt : runtime) (c : libcall) : M unit :=
  log (Call c) ;;;
  if raises rt c then raise (LibraryError c) else ret tt.

Definition read_WINCERTS : M (option CertFile) :=
  fun w => (Returns (_WINCERTS w), w).

Definition write_WINCERTS (cf : CertFile) : M unit :=
  fun w => (Returns tt,
            {| _WINCERTS := Some cf; atexit := atexit w;
               CertFile_count := CertFile_count w; trace := trace w |}).

(** [CertFile()] *)
Definition new_CertFile (rt : runtime) : M CertFile :=
  call rt CertFile_new ;;;
  fun w => (Returns {| cf_id := CertFile_count w; cf_stores := [] |},
            {| _WINCERTS := _WINCERTS w; atexit := atexit w;
               CertFile_count := S (CertFile_count w); trace := trace w |}).

(** [certfile.addstore(store)] *)
Definition cf_addstore (rt : runtime) (cf : CertFile) (store : string)
  : M CertFile :=
  call rt (addstore store) ;;;
  ret {| cf_id := cf_id cf; cf_stores := cf_stores cf ++ [store] |}.

(** [atexit.register(certfile.close)] *)
Definition atexit_register (cf : CertFile) : M unit :=
  log (AtexitRegister (cf_id cf)) ;;;
  fun w => (Returns tt,
            {| _WINCERTS := _WINCERTS w; atexit := atexit w ++ [cf_id cf];
               CertFile_count := CertFile_count w; trace := trace w |}).

(** [with _WINCERTSLOCK: body]; the lock is released also when the
    body raises. *)
Definition with_WINCERTSLOCK {A} (body : M A) : M A :=
  log AcquireLock ;;;
  fun w =>
    match body w with
    | (r, w') => (r, snd (log ReleaseLock w'))
    end.

(** ** The SSLContext object *)

Record SSLContext : Type := {
  protocol : Z;
  (** [None]: the class has no such attribute *)
  options : option Z;
  verify_flags : option Z;
  (** the value last assigned to [verify_mode] *)
  verify_mode : pyval;
  (** what the load methods were given, in order *)
  cert_chain : list (string * option string);
  verify_locations : list string;
  default_certs : bool;
  default_verify_paths : bool
}.

(** [SSLContext(protocol)] *)
Definition new_SSLContext (rt : runtime) (proto : Z) : SSLContext :=
  {| protocol := proto;
     options := if ctx_has_options rt then Some (ctx_default_options rt)
                else None;
     verify_flags := if ctx_has_verify_flags rt
                     then Some (ctx_default_verify_flags rt) else None;
     verify_mode := CERT_NONE;
     cert_chain := [];
     verify_locations := [];
     default_certs := false;
     default_verify_paths := false |}.

(** [getattr(ssl, name, 0)] for the two [OP_NO_*] names *)
Definition getattr_or_0 (v : option Z) : Z :=
  match v with Some n => n | None => 0 end.

(** [ctx.options |= n] *)
Definition ior_options (ctx : SSLContext) (n : Z) : SSLContext :=
  {| protocol := protocol ctx;
     options := option_map (fun o => Z.lor o n) (options ctx);
     verify_flags := verify_flags ctx;
     verify_mode := verify_mode ctx;
     cert_chain := cert_chain ctx;
     verify_locations := verify_locations ctx;
     default_certs := default_certs ctx;
     default_verify_paths := default_verify_paths ctx |}.

(** [ctx.verify_flags = n] *)
Definition set_verify_flags (ctx : SSLContext) (n : Z) : SSLContext :=
  {| protocol := protocol ctx;
     options := options ctx;
     verify_flags := Some n;
     verify_mode := verify_mode ctx;
     cert_chain := cert_chain ctx;
     verify_locations := verify_locations ctx;
     default_certs := default_certs ctx;
     default_verify_paths := default_verify_paths ctx |}.

(** What the methods of the context leave in it. *)
Definition loaded_cert_chain (ctx : SSLContext) (certfile : string)
    (keyfile : option string) : SSLContext :=
  {| protocol := protocol ctx;
     options := options ctx;
     verify_flags := verify_flags ctx;
     verify_mode := verify_mode ctx;
     cert_chain := cert_chain ctx ++ [(certfile, keyfile)];
     verify_locations := verify_locations ctx;
     default_certs := default_certs ctx;
     default_verify_paths := default_verify_paths ctx |}.

Definition loaded_verify_locations (ctx : SSLContext) (cafile : string)
  : SSLContext :=
  {| protocol := protocol ctx;
     options := options ctx;
     verify_flags := verify_flags ctx;
     verify_mode := verify_mode ctx;
     cert_chain := cert_chain ctx;
     verify_locations := verify_locations ctx ++ [cafile];
     default_certs := default_certs ctx;
     default_verify_paths := default_verify_paths ctx |}.

Definition loaded_default_certs (ctx : SSLContext) : SSLContext :=
  {| protocol := protocol ctx;
     options := options ctx;
     verify_flags := verify_flags ctx;
     verify_mode := verify_mode ctx;
     cert_chain := cert_chain ctx;
     verify_locations := verify_locations ctx;
     default_certs := true;
     default_verify_paths := default_verify_paths ctx |}.

Definition loaded_default_verify_paths (ctx : SSLContext) : SSLContext :=
  {| protocol := protocol ctx;
     options := options ctx;
     verify_flags := verify_flags ctx;
     verify_mode := verify_mode ctx;
     cert_chain := cert_chain ctx;
     verify_locations := verify_locations ctx;
     default_certs := default_certs ctx;
     default_verify_paths := true |}.

Definition assigned_verify_mode (ctx : SSLContext) (v : pyval) : SSLContext :=
  {| protocol := protocol ctx;
     options := options ctx;
     verify_flags := verify_flags ctx;
     verify_mode := v;
     cert_chain := cert_chain ctx;
     verify_locations := verify_locations ctx;
     default_certs := default_certs ctx;
     default_verify_paths := default_verify_paths ctx |}.

(** [ctx.load_cert_chain(certfile, keyfile)] *)
Definition ctx_load_cert_chain (rt : runtime) (ctx : SSLContext)
    (certfile : string) (keyfile : option string) : M SSLContext :=
  call rt (load_cert_chain certfile keyfile) ;;;
  ret (loaded_cert_chain ctx certfile keyfile).

(** [ctx.load_verify_locations(cafile)] *)
Definition ctx_load_verify_locations (rt : runtime) (ctx : SSLContext)
    (cafile : string) : M SSLContext :=
  call rt (load_verify_locations cafile) ;;;
  ret (loaded_verify_locations ctx cafile).

(** [ctx.load_default_certs()] *)
Definition ctx_load_default_certs (rt : runtime) (ctx : SSLContext)
  : M SSLContext :=
  call rt load_default_certs ;;;
  ret (loaded_default_certs ctx).

(** [ctx.set_default_verify_paths()] *)
Definition ctx_set_default_verify_paths (rt : runtime) (ctx : SSLContext)
  : M SSLContext :=
  call rt set_default_verify_paths ;;;
  ret (loaded_default_verify_paths ctx).

(** The values a checking [verify_mode] property takes: integers
    (booleans among them) equal to one of the three modes. *)
Definition verify_mode_accepted (v : pyval) : bool :=
  match v with
  | PInt _ | PBool _ => py_in v cert_reqs_values
  | _ => false
  end.

(** [ctx.verify_mode = v].  [ssl.SSLContext] checks the value;
    [pymongo.ssl_context.SSLContext] stores what it is given. *)
Definition set_verify_mode (rt : runtime) (ctx : SSLContext) (v : pyval)
  : M SSLContext :=
  if ctx_checks_verify_mode rt && negb (verify_mode_accepted v)
  then raise (VerifyModeError v)
  else ret (assigned_verify_mode ctx v).

(** Reading [ctx.verify_mode].  [ssl.SSLContext] keeps the mode as an
    integer, so a boolean assigned to it is read back as the mode it
    equals; [pymongo.ssl_context.SSLContext] gives back what it was
    given. *)
Definition get_verify_mode (rt : runtime) (ctx : SSLContext) : pyval :=
  if ctx_checks_verify_mode rt then
    match verify_mode ctx with
    | PBool b => PInt (Z.b2z b)
    | v => v
    end
  else verify_mode ctx.

(** [certifi.where()] *)
Definition certifi_where_call (rt : runtime) : M string :=
  log CertifiWhere ;;; ret (certifi_where rt).

(** The two [ConfigurationError]s of [get_ssl_context]. *)
Definition UnsupportedCRL : exn :=
  ConfigurationError
    ("Support for ssl_crlfile requires "
     ++ "python2 2.7.9+ (pypy 2.5.1+) or python3 3.4+").

Definition NoTrustMaterial : exn :=
  ConfigurationError
    ("`ssl_cert_reqs` is not ssl.CERT_NONE and no system "
     ++ "CA certificates could be loaded. `ssl_ca_certs` is "
     ++ "required.").

(** The arguments of [get_ssl_context], a tuple of five:
    [certfile, keyfile, ca_certs, cert_reqs, crlfile = args].
    A path is [Some] string, or [None] for Python's [None]. *)
Record ssl_args : Type := {
  certfile : option string;
  keyfile : option string;
  ca_certs : option string;
  cert_reqs : pyval;
  crlfile : option string
}.

(** ** The definitions made when the ssl module is available *)

Module HaveSSL.

(** The message of the [ValueError] of [validate_cert_reqs]:
    the format string with [option] substituted for [%s]. *)
Definition cert_reqs_message (option : string) : string :=
  "The value of " ++ option ++ " must be one of: "
  ++ "`ssl.CERT_NONE`, `ssl.CERT_OPTIONAL` or "
  ++ "`ssl.CERT_REQUIRED".

(** [validate_cert_reqs(option, value)], lines 54-68. *)
Definition validate_cert_reqs (rt : runtime) (option : string) (value : pyval)
  : outcome pyval :=
  if is_None value then Returns value
  else
    let value :=
      match value with
      | PStr name =>
          match ssl_getattr rt name with
          | Some v => v
          | None => value
          end
      | _ => value
      end in
    if py_in value cert_reqs_values then Returns value
    else Raises (ValueError (cert_reqs_message option)).

(** [_load_wincerts()], lines 70-79. *)
Definition _load_wincerts (rt : runtime) : M unit :=
  certfile <- new_CertFile rt ;;
  certfile <- cf_addstore rt certfile "CA" ;;
  certfile <- cf_addstore rt certfile "ROOT" ;;
  atexit_register certfile ;;;
  write_WINCERTS certfile.

(** [get_ssl_context], lines 89-137. *)
Definition get_ssl_context (rt : runtime) (args : ssl_args) : M SSLContext :=
  let ctx := new_SSLContext rt (PROTOCOL_SSLv23 rt) in
  let ctx :=
    match options ctx with
    | Some _ =>
        let ctx := ior_options ctx (getattr_or_0 (OP_NO_SSLv2 rt)) in
        ior_options ctx (getattr_or_0 (OP_NO_SSLv3 rt))
    | None => ctx
    end in
  ctx <- match certfile args with
         | Some cert => ctx_load_cert_chain rt ctx cert (keyfile args)
         | None => ret ctx
         end ;;
  ctx <- match crlfile args with
         | Some crl =>
             if negb (ctx_has_verify_flags rt) then raise UnsupportedCRL
             else
               let ctx := set_verify_flags ctx (VERIFY_CRL_CHECK_LEAF rt) in
               ctx_load_verify_locations rt ctx crl
         | None => ret ctx
         end ;;
  ctx <- match ca_certs args with
         | Some ca => ctx_load_verify_locations rt ctx ca
         | None =>
             if py_ne (cert_reqs args) CERT_NONE then
               if ctx_has_load_default_certs rt then
                 ctx_load_default_certs rt ctx
               else if negb (String.eqb (sys_platform rt) "win32")
                       && ctx_has_set_default_verify_paths rt then
                 ctx_set_default_verify_paths rt ctx
               else if String.eqb (sys_platform rt) "win32"
                       && HAVE_WINCERTSTORE rt then
                 with_WINCERTSLOCK
                   (wc <- read_WINCERTS ;;
                    match wc with
                    | None => _load_wincerts rt
                    | Some _ => ret tt
                    end) ;;;
                 wc <- read_WINCERTS ;;
                 match wc with
                 | Some cf =>
                     ctx_load_verify_locations rt ctx
                       (CertFile_name rt (cf_id cf))
                 | None =>
                     raise (AttributeError
                       "'NoneType' object has no attribute 'name'")
                 end
               else if HAVE_CERTIFI rt then
                 bundle <- certifi_where_call rt ;;
                 ctx_load_verify_locations rt ctx bundle
               else raise NoTrustMaterial
             else ret ctx
         end ;;
  set_verify_mode rt ctx
    (if is_None (cert_reqs args) then CERT_REQUIRED else cert_reqs args).

End HaveSSL.

(** ** The definitions made when the ssl module is missing *)

Module NoSSL.

(** [validate_cert_reqs(option, dummy)], lines 139-143. *)
Definition validate_cert_reqs (option : string) (dummy : pyval)
  : outcome pyval :=
  Raises (ConfigurationError
    ("The value of " ++ option ++ " is set but can't be "
     ++ "validated. The ssl module is not available")).

(** [get_ssl_context], lines 145-147: any arguments are ignored. *)
Definition get_ssl_context {A} (dummy : A) : M SSLContext :=
  raise (ConfigurationError "The ssl module is not available.").

End NoSSL.

(** ** The names the module exports *)

(** [if HAVE_SSL: ... else: ...], lines 47 and 138. *)
Definition validate_cert_reqs (rt : runtime) (option : string) (value : pyval)
  : outcome pyval :=
  if HAVE_SSL rt then HaveSSL.validate_cert_reqs rt option value
  else NoSSL.validate_cert_reqs option value.

Definition get_ssl_context (rt : runtime) (args : ssl_args)
  : M SSLContext :=
  if HAVE_SSL rt then HaveSSL.get_ssl_context rt args
  else NoSSL.get_ssl_context args.

(** ** Vocabulary of the specification *)

(** The specification's error kinds, as the exceptions the code raises. *)

Definition TLSUnsupported (e : exn) : Prop :=
  exists pre post,
    e = ConfigurationError (pre ++ "The ssl module is not available" ++ post).

Definition InvalidOption (option : string) (e : exn) : Prop :=
  exists pre post, e = ValueError (pre ++ option ++ post).

Definition InvalidCertificate (cert : string) (key : option string) : exn :=
  LibraryError (load_cert_chain cert key).

Definition InvalidCAFile (ca : string) : exn :=
  LibraryError (load_verify_locations ca).

Definition InvalidCRL (crl : string) : exn :=
  LibraryError (load_verify_locations crl).

(** The world before any call. *)
Definition initial_world : world :=
  {| _WINCERTS := None; atexit := []; CertFile_count := 0; trace := [] |}.

(** What a run from [w] to [w'] added to the trace. *)
Definition new_events (w w' : world) : list event :=
  skipn (length (trace w)) (trace w').

(** The sources of CA material of the resolution chain (steps 3 to 6
    of the specification), and the source an event belongs to.  Loading
    a file of trust anchors is common to several steps and to the CRL
    file, and belongs to none. *)
Inductive ca_source : Type :=
| SystemDefaultCerts
| DefaultVerifyPaths
| OSStore
| BundledCA.

Definition source_of_event (e : event) : option ca_source :=
  match e with
  | Call load_default_certs => Some SystemDefaultCerts
  | Call set_default_verify_paths => Some DefaultVerifyPaths
  | Call CertFile_new | Call (addstore _)
  | AcquireLock | ReleaseLock | AtexitRegister _ => Some OSStore
  | CertifiWhere => Some BundledCA
  | Call (load_cert_chain _ _) | Call (load_verify_locations _) => None
  end.

(** The resolution chain in the specification's words: the first step
    whose condition holds, [None] when none does (step 7). *)
Definition CAResolutionChain (rt : runtime) : option ca_source :=
  if ctx_has_load_default_certs rt then Some SystemDefaultCerts
  else if negb (String.eqb (sys_platform rt) "win32")
          && ctx_has_set_default_verify_paths rt then Some DefaultVerifyPaths
  else if String.eqb (sys_platform rt) "win32" && HAVE_WINCERTSTORE rt
       then Some OSStore
  else if HAVE_CERTIFI rt then Some BundledCA
  else None.

(** The steps of [get_ssl_context] before the CA material: whether
    they pass, and what they add to the trace when they do. *)
Definition cert_step_passes (rt : runtime) (args : ssl_args) : bool :=
  match certfile args with
  | Some cert => negb (raises rt (load_cert_chain cert (keyfile args)))
  | None => true
  end.

Definition crl_step_passes (rt : runtime) (args : ssl_args) : bool :=
  match crlfile args with
  | Some crl => ctx_has_verify_flags rt
                && negb (raises rt (load_verify_locations crl))
  | None => true
  end.

Definition cert_step_events (args : ssl_args) : list event :=
  match certfile args with
  | Some cert => [Call (load_cert_chain cert (keyfile args))]
  | None => []
  end.

Definition crl_step_events (args : ssl_args) : list event :=
  match crlfile args with
  | Some crl => [Call (load_verify_locations crl)]
  | None => []
  end.

(** ** Sample runtimes *)

Definition no_call_raises (c : libcall) : bool := false.

(** A call raises when it is given a file of this name. *)
Definition missing_file_raises (c : libcall) : bool :=
  match c with
  | load_cert_chain cert _ => String.eqb cert "missing.pem"
  | load_verify_locations ca => String.eqb ca "missing.pem"
  | _ => false
  end.

(** CPython 2.7.9 or later on Linux: [ssl.SSLContext] with every
    method and attribute the module looks for. *)
Definition cpython_linux : runtime :=
  {| HAVE_SSL := true; HAVE_CERTIFI := false; HAVE_WINCERTSTORE := false;
     sys_platform := "linux2";
     PROTOCOL_SSLv23 := 2;
     OP_NO_SSLv2 := Some 16777216; OP_NO_SSLv3 := Some 33554432;
     VERIFY_CRL_CHECK_LEAF := 4;
     ssl_other_attrs := [("HAS_SNI", PBool true); ("PROTOCOL_TLSv1", PInt 3)];
     ctx_has_options := true; ctx_default_options := 2147484671;
     ctx_has_verify_flags := true; ctx_default_verify_flags := 0;
     ctx_has_load_default_certs := true;
     ctx_has_set_default_verify_paths := true;
     ctx_checks_verify_mode := true;
     raises := missing_file_raises;
     certifi_where := "cacert.pem";
     CertFile_name := fun _ => "wincerts.pem" |}.

(** CPython 3.3 on Linux: no [load_default_certs], no [verify_flags]. *)
Definition cpython33_linux : runtime :=
  {| HAVE_SSL := true; HAVE_CERTIFI := false; HAVE_WINCERTSTORE := false;
     sys_platform := "linux";
     PROTOCOL_SSLv23 := 2;
     OP_NO_SSLv2 := Some 16777216; OP_NO_SSLv3 := Some 33554432;
     VERIFY_CRL_CHECK_LEAF := 4;
     ssl_other_attrs := [("HAS_SNI", PBool true); ("PROTOCOL_TLSv1", PInt 3)];
     ctx_has_options := true; ctx_default_options := 2147484671;
     ctx_has_verify_flags := false; ctx_default_verify_flags := 0;
     ctx_has_load_default_certs := false;
     ctx_has_set_default_verify_paths := true;
     ctx_checks_verify_mode := true;
     raises := missing_file_raises;
     certifi_where := "cacert.pem";
     CertFile_name := fun _ => "wincerts.pem" |}.

(** CPython 2.6 on Windows with [wincertstore] and [certifi]:
    the context class is [pymongo.ssl_context.SSLContext]. *)
Definition cpython26_win32 : runtime :=
  {| HAVE_SSL := true; HAVE_CERTIFI := true; HAVE_WINCERTSTORE := true;
     sys_platform := "win32";
     PROTOCOL_SSLv23 := 2;
     OP_NO_SSLv2 := None; OP_NO_SSLv3 := None;
     VERIFY_CRL_CHECK_LEAF := 4;
     ssl_other_attrs := [("PROTOCOL_TLSv1", PInt 3)];
     ctx_has_options := false; ctx_default_options := 0;
     ctx_has_verify_flags := false; ctx_default_verify_flags := 0;
     ctx_has_load_default_certs := false;
     ctx_has_set_default_verify_paths := false;
     ctx_checks_verify_mode := false;
     raises := missing_file_raises;
     certifi_where := "cacert.pem";
     CertFile_name := fun n => "wincerts.pem" |}.

(** The same without the two optional packages. *)
Definition cpython26_bare : runtime :=
  {| HAVE_SSL := true; HAVE_CERTIFI := false; HAVE_WINCERTSTORE := false;
     sys_platform := "win32";
     PROTOCOL_SSLv23 := 2;
     OP_NO_SSLv2 := None; OP_NO_SSLv3 := None;
     VERIFY_CRL_CHECK_LEAF := 4;
     ssl_other_attrs := [("PROTOCOL_TLSv1", PInt 3)];
     ctx_has_options := false; ctx_default_options := 0;
     ctx_has_verify_flags := false; ctx_default_verify_flags := 0;
     ctx_has_load_default_certs := false;
     ctx_has_set_default_verify_paths := false;
     ctx_checks_verify_mode := false;
     raises := missing_file_raises;
     certifi_where := "cacert.pem";
     CertFile_name := fun n => "wincerts.pem" |}.

(** An interpreter built without the ssl module. *)
Definition no_ssl_runtime : runtime :=
  {| HAVE_SSL := false; HAVE_CERTIFI := false; HAVE_WINCERTSTORE := false;
     sys_platform := "linux2";
     PROTOCOL_SSLv23 := 2;
     OP_NO_SSLv2 := None; OP_NO_SSLv3 := None;
     VERIFY_CRL_CHECK_LEAF := 4;
     ssl_other_attrs := [];
     ctx_has_options := false; ctx_default_options := 0;
     ctx_has_verify_flags := false; ctx_default_verify_flags := 0;
     ctx_has_load_default_certs := false;
     ctx_has_set_default_verify_paths := false;
     ctx_checks_verify_mode := false;
     raises := no_call_raises;
     certifi_where := "";
     CertFile_name := fun n => "" |}.

Definition only_cert_reqs (v : pyval) : ssl_args :=
  {| certfile := None; keyfile := None;
     ca_certs := None; cert_reqs := v;
     crlfile := None |}.

(** ** Sample arguments and the names of the specification *)

Definition with_crl (crl : string) (v : pyval) : ssl_args :=
  {| certfile := None; keyfile := None; ca_certs := None;
     cert_reqs := v; crlfile := Some crl |}.

Definition with_ca (ca : string) (v : pyval) : ssl_args :=
  {| certfile := None; keyfile := None; ca_certs := Some ca;
     cert_reqs := v; crlfile := None |}.

(** The names the specification lists. *)
Definition cert_reqs_names : list string :=
  ["CERT_NONE"; "CERT_OPTIONAL"; "CERT_REQUIRED"]%string.

(** * Definitions used in the proofs *)

Definition add_events (evs : list event) (w : world) : world :=
  {| _WINCERTS := _WINCERTS w; atexit := atexit w;
     CertFile_count := CertFile_count w; trace := trace w ++ evs |}.

(** Every event a run of [m] adds satisfies [P]. *)
Definition emits {A} (P : event -> Prop) (m : M A) : Prop :=
  forall w, exists evs,
    trace (snd (m w)) = trace w ++ evs /\ Forall P evs.

(** A run of [m] leaves the OS-store cache, the [atexit] registry and
    the count of [CertFile] instances as they were. *)
Definition keeps_cache {A} (m : M A) : Prop :=
  forall w,
    _WINCERTS (snd (m w)) = _WINCERTS w
    /\ atexit (snd (m w)) = atexit w
    /\ CertFile_count (snd (m w)) = CertFile_count w.

(** The context after the client-certificate and CRL statements, when
    they pass. *)
Definition after_cert (args : ssl_args) (ctx : SSLContext) : SSLContext :=
  match certfile args with
  | Some cert => loaded_cert_chain ctx cert (keyfile args)
  | None => ctx
  end.

Definition after_crl (rt : runtime) (args : ssl_args) (ctx : SSLContext)
  : SSLContext :=
  match crlfile args with
  | Some crl =>
      loaded_verify_locations
        (set_verify_flags ctx (VERIFY_CRL_CHECK_LEAF rt)) crl
  | None => ctx
  end.

(** The context a statement returns keeps what the earlier ones put
    in it: flags, client certificate and mode are as they were, and
    the files of trust anchors are added at the end. *)
Definition grows (ctx ctx' : SSLContext) : Prop :=
  verify_flags ctx' = verify_flags ctx
  /\ cert_chain ctx' = cert_chain ctx
  /\ verify_mode ctx' = verify_mode ctx
  /\ exists l, verify_locations ctx' = verify_locations ctx ++ l.

Definition neutral (e : event) : Prop := source_of_event e = None.

Definition raises_only {A} (Q : exn -> Prop) (m : M A) : Prop :=
  forall w e w', m w = (Raises e, w') -> Q e.

(** The exceptions of the statements before the assignment of the
    mode: those of the library calls, and the module's two
    [ConfigurationError]s. *)
Definition assembly_error (e : exn) : Prop :=
  (exists c, e = LibraryError c) \/ e = UnsupportedCRL \/ e = NoTrustMaterial.

(** ** The statements of get_ssl_context, one by one *)

Section Statements.

Variable rt : runtime.
Variable args : ssl_args.

(** Lines 95-103. *)
Definition hardened_context : SSLContext :=
  let ctx := new_SSLContext rt (PROTOCOL_SSLv23 rt) in
  match options ctx with
  | Some _ =>
      let ctx := ior_options ctx (getattr_or_0 (OP_NO_SSLv2 rt)) in
      ior_options ctx (getattr_or_0 (OP_NO_SSLv3 rt))
  | None => ctx
  end.

(** Lines 104-105. *)
Definition load_client_cert (ctx : SSLContext) : M SSLContext :=
  match certfile args with
  | Some cert => ctx_load_cert_chain rt ctx cert (keyfile args)
  | None => ret ctx
  end.

(** Lines 106-113. *)
Definition load_crl (ctx : SSLContext) : M SSLContext :=
  match crlfile args with
  | Some crl =>
      if negb (ctx_has_verify_flags rt) then raise UnsupportedCRL
      else
        let ctx := set_verify_flags ctx (VERIFY_CRL_CHECK_LEAF rt) in
        ctx_load_verify_locations rt ctx crl
  | None => ret ctx
  end.

(** Lines 125-127. *)
Definition OSStoreCache_get : M unit :=
  with_WINCERTSLOCK
    (wc <- read_WINCERTS ;;
     match wc with
     | None => HaveSSL._load_wincerts rt
     | Some _ => ret tt
     end).

(** Line 128. *)
Definition load_wincerts_file (ctx : SSLContext) : M SSLContext :=
  wc <- read_WINCERTS ;;
  match wc with
  | Some cf => ctx_load_verify_locations rt ctx (CertFile_name rt (cf_id cf))
  | None => raise (AttributeError "'NoneType' object has no attribute 'name'")
  end.

(** Lines 117-135: the resolution chain. *)
Definition resolve_ca (ctx : SSLContext) : M SSLContext :=
  if ctx_has_load_default_certs rt then ctx_load_default_certs rt ctx
  else if negb (String.eqb (sys_platform rt) "win32")
          && ctx_has_set_default_verify_paths rt then
    ctx_set_default_verify_paths rt ctx
  else if String.eqb (sys_platform rt) "win32" && HAVE_WINCERTSTORE rt then
    OSStoreCache_get ;;; load_wincerts_file ctx
  else if HAVE_CERTIFI rt then
    bundle <- certifi_where_call rt ;;
    ctx_load_verify_locations rt ctx bundle
  else raise NoTrustMaterial.

(** Lines 114-135. *)
Definition load_ca (ctx : SSLContext) : M SSLContext :=
  match ca_certs args with
  | Some ca => ctx_load_verify_locations rt ctx ca
  | None =>
      if py_ne (cert_reqs args) CERT_NONE then resolve_ca ctx else ret ctx
  end.

(** Line 136. *)
Definition resolved_cert_reqs : pyval :=
  if is_None (cert_reqs args) then CERT_REQUIRED else cert_reqs args.

Definition assign_verify_mode (ctx : SSLContext) : M SSLContext :=
  set_verify_mode rt ctx resolved_cert_reqs.

End Statements.

Module Threads.

Local Open Scope nat_scope.

(** The statement a thread is about to run, with its local variable
    [certfile] where it has one. *)
Inductive pc : Type :=
| AtLock                           (** line 125: [with _WINCERTSLOCK:] *)
| AtTest                           (** line 126: [if _WINCERTS is None:] *)
| AtCertFile                       (** line 74: [certfile = CertFile()] *)
| AtAddCA (certfile : CertFile)    (** line 75 *)
| AtAddROOT (certfile : CertFile)  (** line 76 *)
| AtRegister (certfile : CertFile) (** line 77 *)
| AtStore (certfile : CertFile)    (** line 79: [_WINCERTS = certfile] *)
| AtRelease (pending : option exn) (** leaving the [with] block *)
| AtLoad                           (** line 128: reading [_WINCERTS] *)
| AtCall (handle : CertFile)       (** line 128: [load_verify_locations] *)
| Done (handle : CertFile) (raised : option exn)
| Failed (e : exn).

Record config : Type := {
  threads : list pc;
  (** the thread holding [_WINCERTSLOCK] *)
  owner : option nat;
  shared : world
}.

Definition no_name : exn :=
  AttributeError "'NoneType' object has no attribute 'name'".

(** One statement of thread [i]; [None] when it cannot run. *)
Definition thread_step (rt : runtime) (i : nat) (p : pc)
    (o : option nat) (w : world) : option (pc * option nat * world) :=
  match p with
  | AtLock =>
      match o with
      | None => Some (AtTest, Some i, snd (log AcquireLock w))
      | Some _ => None
      end
  | AtTest =>
      match _WINCERTS w with
      | None => Some (AtCertFile, o, w)
      | Some _ => Some (AtRelease None, o, w)
      end
  | AtCertFile =>
      match new_CertFile rt w with
      | (Returns cf, w') => Some (AtAddCA cf, o, w')
      | (Raises e, w') => Some (AtRelease (Some e), o, w')
      end
  | AtAddCA cf =>
      match cf_addstore rt cf "CA" w with
      | (Returns cf', w') => Some (AtAddROOT cf', o, w')
      | (Raises e, w') => Some (AtRelease (Some e), o, w')
      end
  | AtAddROOT cf =>
      match cf_addstore rt cf "ROOT" w with
      | (Returns cf', w') => Some (AtRegister cf', o, w')
      | (Raises e, w') => Some (AtRelease (Some e), o, w')
      end
  | AtRegister cf => Some (AtStore cf, o, snd (atexit_register cf w))
  | AtStore cf => Some (AtRelease None, o, snd (write_WINCERTS cf w))
  | AtRelease pending =>
      Some (match pending with None => AtLoad | Some e => Failed e end,
            None, snd (log ReleaseLock w))
  | AtLoad =>
      match _WINCERTS w with
      | Some cf => Some (AtCall cf, o, w)
      | None => Some (Failed no_name, o, w)
      end
  | AtCall cf =>
      match call rt (load_verify_locations (CertFile_name rt (cf_id cf))) w with
      | (Returns _, w') => Some (Done cf None, o, w')
      | (Raises e, w') => Some (Done cf (Some e), o, w')
      end
  | Done _ _ | Failed _ => None
  end.

Fixpoint update (i : nat) (p : pc) (l : list pc) : list pc :=
  match l, i with
  | [], _ => []
  | _ :: l', O => p :: l'
  | q :: l', S i' => q :: update i' p l'
  end.

(** A step of the system: some thread runs its next statement. *)
Inductive step (rt : runtime) (c : config) : config -> Prop :=
| step_thread (i : nat) (p p' : pc) (o' : option nat) (w' : world) :
    nth_error (threads c) i = Some p ->
    thread_step rt i p (owner c) (shared c) = Some (p', o', w') ->
    step rt c {| threads := update i p' (threads c);
                 owner := o'; shared := w' |}.

Inductive reachable (rt : runtime) (c0 : config) : config -> Prop :=
| reachable_start : reachable rt c0 c0
| reachable_step c c' :
    reachable rt c0 c -> step rt c c' -> reachable rt c0 c'.

(** [n] callers arriving at the OS-store step in the world [w0]. *)
Definition initial_config (n : nat) (w0 : world) : config :=
  {| threads := repeat AtLock n; owner := None; shared := w0 |}.

Definition finished (p : pc) : bool :=
  match p with Done _ _ | Failed _ => true | _ => false end.

Definition all_finished (c : config) : bool := forallb finished (threads c).

Fixpoint solo (rt : runtime) (fuel : nat) (p : pc) (o : option nat)
    (w : world) : pc * option nat * world :=
  match fuel with
  | O => (p, o, w)
  | S fuel' =>
      match thread_step rt 0 p o w with
      | Some (p', o', w') => solo rt fuel' p' o' w'
      | None => (p, o, w)
      end
  end.

(** What the thread ends with, as an outcome of line 128. *)
Definition outcome_of (ctx : SSLContext) (rt : runtime) (p : pc)
  : option (outcome SSLContext) :=
  match p with
  | Done cf None =>
      Some (Returns (loaded_verify_locations ctx (CertFile_name rt (cf_id cf))))
  | Done cf (Some e) => Some (Raises e)
  | Failed e => Some (Raises e)
  | _ => None
  end.

(** The events of reading the OS store and of registering the release
    of what was read. *)
Definition is_store_event (e : event) : bool :=
  match e with
  | Call CertFile_new | Call (addstore _) | AtexitRegister _ => true
  | _ => false
  end.

Definition store_events (evs : list event) : list event :=
  filter is_store_event evs.

Definition is_store_load (e : event) : bool :=
  match e with Call CertFile_new => true | _ => false end.

(** The number of times the store was opened. *)
Definition store_loads (evs : list event) : nat :=
  length (filter is_store_load evs).

Definition is_registration (e : event) : bool :=
  match e with AtexitRegister _ => true | _ => false end.

Definition registrations (evs : list event) : nat :=
  length (filter is_registration evs).

(** The one load, by the first caller, in a world [w0] whose cache is
    empty: its events and the handle it stores. *)
Definition the_load (w0 : world) : list event :=
  [Call CertFile_new; Call (addstore "CA"); Call (addstore "ROOT");
   AtexitRegister (CertFile_count w0)].

Definition fresh_handle (w0 : world) : CertFile :=
  {| cf_id := CertFile_count w0; cf_stores := ["CA"; "ROOT"]%string |}.

(** What the callers arriving in [w0] are to see. *)
Definition expected_handle (w0 : world) : CertFile :=
  match _WINCERTS w0 with Some cf => cf | None => fresh_handle w0 end.

Definition expected_load (w0 : world) : list event :=
  match _WINCERTS w0 with Some _ => [] | None => the_load w0 end.

Definition expected_atexit (w0 : world) : list nat :=
  match _WINCERTS w0 with
  | Some _ => atexit w0
  | None => atexit w0 ++ [CertFile_count w0]
  end.

Definition no_store_failure (rt : runtime) : Prop :=
  raises rt CertFile_new = false
  /\ raises rt (addstore "CA") = false
  /\ raises rt (addstore "ROOT") = false.

(** Holding the lock. *)
Definition critical (p : pc) : bool :=
  match p with
  | AtTest | AtCertFile | AtAddCA _ | AtAddROOT _ | AtRegister _
  | AtStore _ | AtRelease _ => true
  | _ => false
  end.

(** Inside [_load_wincerts], past the creation of the instance. *)
Definition loading (p : pc) : bool :=
  match p with
  | AtAddCA _ | AtAddROOT _ | AtRegister _ | AtStore _ => true
  | _ => false
  end.

Section InvariantDefinitions.

Variable w0 : world.

Definition seen (w : world) : list event := store_events (new_events w0 w).

Definition partial_handle (stores : list string) : CertFile :=
  {| cf_id := CertFile_count w0; cf_stores := stores |}.

(** What holds of the world while a thread is at [p]. *)
Definition thread_inv (w : world) (p : pc) : Prop :=
  match p with
  | AtLock | AtTest => True
  | AtCertFile => _WINCERTS w = None
  | AtAddCA cf =>
      _WINCERTS w = None /\ seen w = firstn 1 (the_load w0)
      /\ cf = partial_handle [] /\ atexit w = atexit w0
  | AtAddROOT cf =>
      _WINCERTS w = None /\ seen w = firstn 2 (the_load w0)
      /\ cf = partial_handle ["CA"%string] /\ atexit w = atexit w0
  | AtRegister cf =>
      _WINCERTS w = None /\ seen w = firstn 3 (the_load w0)
      /\ cf = fresh_handle w0 /\ atexit w = atexit w0
  | AtStore cf =>
      _WINCERTS w = None /\ seen w = the_load w0
      /\ cf = fresh_handle w0
      /\ atexit w = atexit w0 ++ [CertFile_count w0]
  | AtRelease None | AtLoad => _WINCERTS w <> None
  | AtCall cf | Done cf _ => _WINCERTS w = Some cf
  | AtRelease (Some _) | Failed _ => False
  end.

(** The lock is held by the one thread inside the [with] block. *)
Definition lock_inv (l : list pc) (o : option nat) : Prop :=
  match o with
  | None => forall i p, nth_error l i = Some p -> critical p = false
  | Some j =>
      (exists pj, nth_error l j = Some pj /\ critical pj = true)
      /\ forall i p, nth_error l i = Some p -> critical p = true -> i = j
  end.

Record Inv (c : config) : Prop := {
  inv_lock : lock_inv (threads c) (owner c);
  inv_threads :
    forall i p, nth_error (threads c) i = Some p -> thread_inv (shared c) p;
  inv_trace : exists evs, trace (shared c) = trace w0 ++ evs;
  inv_empty :
    _WINCERTS (shared c) = None ->
    _WINCERTS w0 = None
    /\ ((forall i p, nth_error (threads c) i = Some p -> loading p = false) ->
        seen (shared c) = []
        /\ atexit (shared c) = atexit w0
        /\ CertFile_count (shared c) = CertFile_count w0);
  inv_cached :
    forall cf, _WINCERTS (shared c) = Some cf ->
      cf = expected_handle w0
      /\ seen (shared c) = expected_load w0
      /\ atexit (shared c) = expected_atexit w0
}.

Definition quiet (w w' : world) : Prop :=
  _WINCERTS w' = _WINCERTS w
  /\ atexit w' = atexit w
  /\ CertFile_count w' = CertFile_count w
  /\ exists es, trace w' = trace w ++ es /\ store_events es = [].

End InvariantDefinitions.

(** The statements a thread has left to run, at most. *)
Definition remaining (p : pc) : nat :=
  match p with
  | AtLock => 10 | AtTest => 9 | AtCertFile => 8 | AtAddCA _ => 7
  | AtAddROOT _ => 6 | AtRegister _ => 5 | AtStore _ => 4
  | AtRelease _ => 3 | AtLoad => 2 | AtCall _ => 1
  | Done _ _ | Failed _ => 0
  end%nat.

Definition work (c : config) : nat :=
  fold_right (fun p n => (remaining p + n)%nat) 0%nat (threads c).

(** Thread [i] takes a step; [None] when it cannot. *)
Definition run_thread (rt : runtime) (c : config) (i : nat) : option config :=
  match nth_error (threads c) i with
  | Some p =>
      match thread_step rt i p (owner c) (shared c) with
      | Some (p', o', w') =>
          Some {| threads := update i p' (threads c);
                  owner := o'; shared := w' |}
      | None => None
      end
  | None => None
  end.

(** The threads take steps in the order given. *)
Fixpoint run_schedule (rt : runtime) (s : list nat) (c : config)
  : option config :=
  match s with
  | [] => Some c
  | i :: s' =>
      match run_thread rt c i with
      | Some c' => run_schedule rt s' c'
      | None => None
      end
  end.

(** Two callers: the second takes the lock once the first has let it
    go, and finds the cache set. *)
Definition two_callers : list nat :=
  [1; 1; 1; 1; 1; 1; 1; 1; 0; 1; 0; 0; 1; 0; 0].

End Threads.

(** ** Definitions for the further properties *)

(** The arguments with another [cert_reqs]. *)
Definition with_cert_reqs (args : ssl_args) (v : pyval) : ssl_args :=
  {| certfile := certfile args; keyfile := keyfile args;
     ca_certs := ca_certs args; cert_reqs := v; crlfile := crlfile args |}.

Definition is_cert_chain_call (e : event) : bool :=
  match e with Call (load_cert_chain _ _) => true | _ => false end.

Definition is_acquire (e : event) : bool :=
  match e with AcquireLock => true | _ => false end.

Definition is_release (e : event) : bool :=
  match e with ReleaseLock => true | _ => false end.

(** As many releases of the lock as acquisitions. *)
Definition lock_balanced (evs : list event) : Prop :=
  length (filter is_acquire evs) = length (filter is_release evs).

(** The call [c] is the last thing done in [evs], but for the release
    of the lock. *)
Definition made_last (c : libcall) (evs : list event) : Prop :=
  exists pre, evs = pre ++ [Call c] \/ evs = pre ++ [Call c; ReleaseLock].

(** The conditions under which [get_ssl_context] raises [e], having
    done [evs]. *)
Definition raised_by (rt : runtime) (args : ssl_args) (evs : list event)
    (e : exn) : Prop :=
  (exists c, e = LibraryError c /\ raises rt c = true /\ made_last c evs)
  \/ (e = UnsupportedCRL
      /\ crlfile args <> None /\ ctx_has_verify_flags rt = false)
  \/ (e = NoTrustMaterial
      /\ ca_certs args = None
      /\ py_ne (cert_reqs args) CERT_NONE = true
      /\ CAResolutionChain rt = None)
  \/ (e = VerifyModeError (resolved_cert_reqs args)
      /\ ctx_checks_verify_mode rt = true
      /\ verify_mode_accepted (resolved_cert_reqs args) = false).

(** Whatever [m] raises, it raises under those conditions. *)
Definition raises_at (rt : runtime) (args : ssl_args) {A} (m : M A) : Prop :=
  forall w e w',
    m w = (Raises e, w') ->
    exists evs, trace w' = trace w ++ evs /\ raised_by rt args evs e.

(** Windows with [wincertstore], where the ROOT store cannot be read. *)
Definition win32_unreadable_store : runtime :=
  {| HAVE_SSL := true; HAVE_CERTIFI := true; HAVE_WINCERTSTORE := true;
     sys_platform := "win32";
     PROTOCOL_SSLv23 := 2;
     OP_NO_SSLv2 := None; OP_NO_SSLv3 := None;
     VERIFY_CRL_CHECK_LEAF := 4;
     ssl_other_attrs := [("PROTOCOL_TLSv1", PInt 3)];
     ctx_has_options := false; ctx_default_options := 0;
     ctx_has_verify_flags := false; ctx_default_verify_flags := 0;
     ctx_has_load_default_certs := false;
     ctx_has_set_default_verify_paths := false;
     ctx_checks_verify_mode := false;
     raises := fun c => match c with
                        | addstore s => String.eqb s "ROOT"
                        | _ => false
                        end;
     certifi_where := "cacert.pem";
     CertFile_name := fun n => "wincerts.pem" |}.

(** While the cache is set, a computation leaves it, the [atexit]
    registry and the count of instances alone, and adds no event of
    the store. *)
Definition cache_stable {A} (m : M A) : Prop :=
  forall w cf,
    _WINCERTS w = Some cf ->
    _WINCERTS (snd (m w)) = Some cf
    /\ atexit (snd (m w)) = atexit w
    /\ CertFile_count (snd (m w)) = CertFile_count w
    /\ exists evs,
         trace (snd (m w)) = trace w ++ evs
         /\ Forall (fun e => Threads.is_store_event e = false) evs.

(** One call after another; the world they leave. *)
Fixpoint calls (rt : runtime) (l : list ssl_args) (w : world) : world :=
  match l with
  | [] => w
  | args :: l' => calls rt l' (snd (HaveSSL.get_ssl_context rt args w))
  end.

Definition is_lock_event (e : event) : bool := is_acquire e || is_release e.

(** The files of revocation lists a call loads. *)
Definition crl_files (args : ssl_args) : list string :=
  match crlfile args with
  | Some crl => [crl]
  | None => []
  end.

(** The trust anchors a context carries beyond the revocation lists:
    files, and the two default loaders. *)
Definition anchors_are (ctx : SSLContext) (args : ssl_args)
    (files : list string) (defaults paths : bool) : Prop :=
  verify_locations ctx = crl_files args ++ files
  /\ default_certs ctx = defaults
  /\ default_verify_paths ctx = paths.

(** Events outside the block of lines 125-127: neither the lock nor
    the store. *)
Definition outside_lock (e : event) : Prop :=
  is_lock_event e = false /\ Threads.is_store_event e = false.

(** The lock is taken at most once, released after it is taken, and
    what happens in between is the reading of the store and nothing
    else. *)
Definition lock_discipline (evs : list event) : Prop :=
  Forall outside_lock evs
  \/ exists pre mid post,
       evs = pre ++ AcquireLock :: mid ++ ReleaseLock :: post
       /\ Forall outside_lock pre
       /\ Forall (fun e => Threads.is_store_event e = true) mid
       /\ Forall outside_lock post.

Definition disciplined {A} (m : M A) : Prop :=
  forall w, exists evs,
    trace (snd (m w)) = trace w ++ evs /\ lock_discipline evs.

(** The exceptions of reading the store: those of [CertFile()] and of
    the two [addstore]. *)
Definition store_exn (rt : runtime) (e : exn) : Prop :=
  exists c,
    In c [CertFile_new; addstore "CA"; addstore "ROOT"]
    /\ raises rt c = true /\ e = LibraryError c.

(** What holds of the world while a thread is at [p], whether or not
    the store can be read. *)
Definition thread_safe (rt : runtime) (w : world) (p : Threads.pc) : Prop :=
  match p with
  | Threads.AtLock | Threads.AtTest => True
  | Threads.AtCertFile => _WINCERTS w = None
  | Threads.AtAddCA _ =>
      _WINCERTS w = None /\ raises rt CertFile_new = false
  | Threads.AtAddROOT _ =>
      _WINCERTS w = None /\ raises rt CertFile_new = false
      /\ raises rt (addstore "CA") = false
  | Threads.AtRegister _ | Threads.AtStore _ =>
      _WINCERTS w = None /\ Threads.no_store_failure rt
  | Threads.AtRelease None | Threads.AtLoad => _WINCERTS w <> None
  | Threads.AtRelease (Some e) | Threads.Failed e => store_exn rt e
  | Threads.AtCall cf | Threads.Done cf _ => _WINCERTS w = Some cf
  end.

Record Safe (rt : runtime) (w0 : world) (c : Threads.config) : Prop := {
  safe_lock : Threads.lock_inv (Threads.threads c) (Threads.owner c);
  safe_threads :
    forall i p, nth_error (Threads.threads c) i = Some p ->
                thread_safe rt (Threads.shared c) p;
  safe_cache :
    _WINCERTS (Threads.shared c) = _WINCERTS w0 \/ Threads.no_store_failure rt;
  safe_atexit :
    atexit (Threads.shared c) = atexit w0 \/ Threads.no_store_failure rt
}.

(** Two callers, one after the other. *)
Definition one_then_the_other : list nat :=
  [0; 0; 0; 0; 0; 0; 1; 1; 1; 1; 1; 1]%nat.

(** * Properties *)

(** ** Strings *)

Lemma string_app_assoc (a b c : string) :
  ((a ++ b) ++ c = a ++ (b ++ c))%string.
Proof.
  induction a as [|ch a IH]; simpl.
  - reflexivity.
  - now rewrite IH.
Qed.

(** ** Worlds and traces *)

Lemma add_events_nil (w : world) : add_events [] w = w.
Proof. destruct w; unfold add_events; simpl. now rewrite app_nil_r. Qed.

Lemma add_events_app (e1 e2 : list event) (w : world) :
  add_events e2 (add_events e1 w) = add_events (e1 ++ e2) w.
Proof. unfold add_events; simpl. now rewrite app_assoc. Qed.

Lemma new_events_app (w w' : world) (evs : list event) :
  trace w' = trace w ++ evs -> new_events w w' = evs.
Proof.
  intros H. unfold new_events. rewrite H.
  rewrite skipn_app, skipn_all, Nat.sub_diag. reflexivity.
Qed.

Lemma new_events_add (w : world) (evs : list event) :
  new_events w (add_events evs w) = evs.
Proof. now apply new_events_app. Qed.

Lemma new_events_same (w : world) : new_events w w = [].
Proof. apply new_events_app. now rewrite app_nil_r. Qed.

(** ** What a computation may add to the trace *)

Section Emits.

Variable P : event -> Prop.

Lemma emits_ret {A} (a : A) : emits P (ret a).
Proof. intros w. exists []. simpl. now rewrite app_nil_r. Qed.

Lemma emits_raise {A} (e : exn) : emits P (@raise A e).
Proof. intros w. exists []. simpl. now rewrite app_nil_r. Qed.

Lemma emits_bind {A B} (m : M A) (k : A -> M B) :
  emits P m -> (forall a, emits P (k a)) -> emits P (bind m k).
Proof.
  intros Hm Hk w. unfold bind.
  destruct (Hm w) as (e1 & Ht1 & HP1).
  destruct (m w) as [[a|e] w1]; simpl in *.
  - destruct (Hk a w1) as (e2 & Ht2 & HP2).
    exists (e1 ++ e2). split.
    + now rewrite Ht2, Ht1, app_assoc.
    + apply Forall_app; now split.
  - now exists e1.
Qed.

Lemma emits_log (e : event) : P e -> emits P (log e).
Proof. intros He w. exists [e]. simpl. split; [reflexivity | now constructor]. Qed.

Lemma emits_call (rt : runtime) (c : libcall) : P (Call c) -> emits P (call rt c).
Proof.
  intros Hc. unfold call. apply emits_bind.
  - now apply emits_log.
  - intros _. destruct (raises rt c); [apply emits_raise | apply emits_ret].
Qed.

Lemma emits_read_WINCERTS : emits P read_WINCERTS.
Proof. intros w. exists []. simpl. now rewrite app_nil_r. Qed.

Lemma emits_load_verify_locations (rt : runtime) ctx (f : string) :
  P (Call (load_verify_locations f)) ->
  emits P (ctx_load_verify_locations rt ctx f).
Proof.
  intros H. unfold ctx_load_verify_locations. apply emits_bind.
  - now apply emits_call.
  - intros _. apply emits_ret.
Qed.

Lemma emits_load_cert_chain (rt : runtime) ctx (c : string) k :
  P (Call (load_cert_chain c k)) ->
  emits P (ctx_load_cert_chain rt ctx c k).
Proof.
  intros H. unfold ctx_load_cert_chain. apply emits_bind.
  - now apply emits_call.
  - intros _. apply emits_ret.
Qed.

Lemma emits_set_verify_mode (rt : runtime) ctx v :
  emits P (set_verify_mode rt ctx v).
Proof.
  unfold set_verify_mode.
  destruct (ctx_checks_verify_mode rt && negb (verify_mode_accepted v));
    [apply emits_raise | apply emits_ret].
Qed.

End Emits.

Lemma keeps_ret {A} (a : A) : keeps_cache (ret a).
Proof. intros w; simpl; auto. Qed.

Lemma keeps_raise {A} (e : exn) : keeps_cache (@raise A e).
Proof. intros w; simpl; auto. Qed.

Lemma keeps_bind {A B} (m : M A) (k : A -> M B) :
  keeps_cache m -> (forall a, keeps_cache (k a)) -> keeps_cache (bind m k).
Proof.
  intros Hm Hk w. unfold bind.
  destruct (Hm w) as (H1 & H2 & H3).
  destruct (m w) as [[a|e] w1]; simpl in *.
  - destruct (Hk a w1) as (K1 & K2 & K3). repeat split; congruence.
  - auto.
Qed.

Lemma keeps_call (rt : runtime) (c : libcall) : keeps_cache (call rt c).
Proof.
  unfold call. apply keeps_bind.
  - intros w; simpl; auto.
  - intros _. destruct (raises rt c); [apply keeps_raise | apply keeps_ret].
Qed.

Lemma keeps_load_verify_locations (rt : runtime) ctx (f : string) :
  keeps_cache (ctx_load_verify_locations rt ctx f).
Proof.
  unfold ctx_load_verify_locations. apply keeps_bind.
  - apply keeps_call.
  - intros _. apply keeps_ret.
Qed.

Lemma keeps_load_cert_chain (rt : runtime) ctx (c : string) k :
  keeps_cache (ctx_load_cert_chain rt ctx c k).
Proof.
  unfold ctx_load_cert_chain. apply keeps_bind.
  - apply keeps_call.
  - intros _. apply keeps_ret.
Qed.

Lemma keeps_set_verify_mode (rt : runtime) ctx v :
  keeps_cache (set_verify_mode rt ctx v).
Proof.
  unfold set_verify_mode.
  destruct (ctx_checks_verify_mode rt && negb (verify_mode_accepted v));
    [apply keeps_raise | apply keeps_ret].
Qed.

(** ** The statements of get_ssl_context, one by one *)

Lemma get_ssl_context_statements (rt : runtime) (args : ssl_args) :
  HaveSSL.get_ssl_context rt args =
  (ctx <- load_client_cert rt args (hardened_context rt) ;;
   ctx <- load_crl rt args ctx ;;
   ctx <- load_ca rt args ctx ;;
   assign_verify_mode rt args ctx).
Proof. reflexivity. Qed.

(** ** Running the statements *)

Lemma bind_returns {A B} (m : M A) (k : A -> M B) w a w' :
  m w = (Returns a, w') -> bind m k w = k a w'.
Proof. intros H. unfold bind. now rewrite H. Qed.

Lemma bind_raises {A B} (m : M A) (k : A -> M B) w e w' :
  m w = (Raises e, w') -> bind m k w = (Raises e, w').
Proof. intros H. unfold bind. now rewrite H. Qed.

Lemma call_run (rt : runtime) (c : libcall) (w : world) :
  call rt c w =
  (if raises rt c then Raises (LibraryError c) else Returns tt,
   add_events [Call c] w).
Proof. unfold call, bind, log. simpl. now destruct (raises rt c). Qed.

Lemma load_cert_chain_run rt ctx cert key w :
  ctx_load_cert_chain rt ctx cert key w =
  (if raises rt (load_cert_chain cert key)
   then Raises (InvalidCertificate cert key)
   else Returns (loaded_cert_chain ctx cert key),
   add_events [Call (load_cert_chain cert key)] w).
Proof.
  unfold ctx_load_cert_chain, bind. rewrite call_run.
  now destruct (raises rt _).
Qed.

Lemma load_verify_locations_run rt ctx f w :
  ctx_load_verify_locations rt ctx f w =
  (if raises rt (load_verify_locations f)
   then Raises (LibraryError (load_verify_locations f))
   else Returns (loaded_verify_locations ctx f),
   add_events [Call (load_verify_locations f)] w).
Proof.
  unfold ctx_load_verify_locations, bind. rewrite call_run.
  now destruct (raises rt _).
Qed.

Lemma load_default_certs_run rt ctx w :
  ctx_load_default_certs rt ctx w =
  (if raises rt load_default_certs
   then Raises (LibraryError load_default_certs)
   else Returns (loaded_default_certs ctx),
   add_events [Call load_default_certs] w).
Proof.
  unfold ctx_load_default_certs, bind. rewrite call_run.
  now destruct (raises rt _).
Qed.

Lemma set_default_verify_paths_run rt ctx w :
  ctx_set_default_verify_paths rt ctx w =
  (if raises rt set_default_verify_paths
   then Raises (LibraryError set_default_verify_paths)
   else Returns (loaded_default_verify_paths ctx),
   add_events [Call set_default_verify_paths] w).
Proof.
  unfold ctx_set_default_verify_paths, bind. rewrite call_run.
  now destruct (raises rt _).
Qed.

Lemma set_verify_mode_world rt ctx v w : snd (set_verify_mode rt ctx v w) = w.
Proof.
  unfold set_verify_mode.
  now destruct (ctx_checks_verify_mode rt && negb (verify_mode_accepted v)).
Qed.

(** Assigning the verification mode changes nothing outside the context. *)
Lemma then_assign_world rt args (m : M SSLContext) w :
  snd (bind m (assign_verify_mode rt args) w) = snd (m w).
Proof.
  unfold bind. destruct (m w) as [[ctx|e] w1]; simpl.
  - apply set_verify_mode_world.
  - reflexivity.
Qed.

Lemma then_assign_raises rt args (m : M SSLContext) w e :
  fst (m w) = Raises e -> fst (bind m (assign_verify_mode rt args) w) = Raises e.
Proof.
  unfold bind. destruct (m w) as [[ctx|e'] w1]; simpl; congruence.
Qed.

Lemma load_client_cert_passes rt args ctx w :
  cert_step_passes rt args = true ->
  load_client_cert rt args ctx w
  = (Returns (after_cert args ctx), add_events (cert_step_events args) w).
Proof.
  unfold cert_step_passes, load_client_cert, after_cert, cert_step_events.
  destruct (certfile args) as [cert|]; intros H.
  - rewrite load_cert_chain_run.
    apply negb_true_iff in H. now rewrite H.
  - simpl. now rewrite add_events_nil.
Qed.

Lemma load_client_cert_fails rt args ctx w :
  cert_step_passes rt args = false ->
  exists cert,
    certfile args = Some cert
    /\ load_client_cert rt args ctx w
       = (Raises (InvalidCertificate cert (keyfile args)),
          add_events [Call (load_cert_chain cert (keyfile args))] w).
Proof.
  unfold cert_step_passes, load_client_cert.
  destruct (certfile args) as [cert|]; intros H; [|discriminate].
  exists cert. split; [reflexivity|].
  rewrite load_cert_chain_run.
  apply negb_false_iff in H. now rewrite H.
Qed.

Lemma load_crl_passes rt args ctx w :
  crl_step_passes rt args = true ->
  load_crl rt args ctx w
  = (Returns (after_crl rt args ctx), add_events (crl_step_events args) w).
Proof.
  unfold crl_step_passes, load_crl, after_crl, crl_step_events.
  destruct (crlfile args) as [crl|]; intros H.
  - apply andb_true_iff in H. destruct H as [Hvf Hr].
    rewrite Hvf. simpl. rewrite load_verify_locations_run.
    apply negb_true_iff in Hr. now rewrite Hr.
  - simpl. now rewrite add_events_nil.
Qed.

Lemma load_crl_unsupported rt args ctx w crl :
  crlfile args = Some crl -> ctx_has_verify_flags rt = false ->
  load_crl rt args ctx w = (Raises UnsupportedCRL, w).
Proof. intros Hc Hvf. unfold load_crl. now rewrite Hc, Hvf. Qed.

Lemma load_crl_supported rt args ctx w crl :
  crlfile args = Some crl -> ctx_has_verify_flags rt = true ->
  load_crl rt args ctx w
  = (if raises rt (load_verify_locations crl)
     then Raises (InvalidCRL crl)
     else Returns (loaded_verify_locations
                     (set_verify_flags ctx (VERIFY_CRL_CHECK_LEAF rt)) crl),
     add_events [Call (load_verify_locations crl)] w).
Proof.
  intros Hc Hvf. unfold load_crl. rewrite Hc, Hvf. simpl.
  apply load_verify_locations_run.
Qed.

(** When the first two statements pass, the call goes on with the CA
    material. *)
Lemma reaches_load_ca rt args w :
  cert_step_passes rt args = true ->
  crl_step_passes rt args = true ->
  HaveSSL.get_ssl_context rt args w
  = bind (load_ca rt args
            (after_crl rt args (after_cert args (hardened_context rt))))
         (assign_verify_mode rt args)
         (add_events (cert_step_events args ++ crl_step_events args) w).
Proof.
  intros Hcert Hcrl. rewrite get_ssl_context_statements.
  erewrite bind_returns by (now apply load_client_cert_passes).
  erewrite bind_returns by (now apply load_crl_passes).
  now rewrite add_events_app.
Qed.

Lemma with_WINCERTSLOCK_run {A} (body : M A) (w : world) :
  with_WINCERTSLOCK body w
  = (fst (body (add_events [AcquireLock] w)),
     add_events [ReleaseLock] (snd (body (add_events [AcquireLock] w)))).
Proof.
  unfold with_WINCERTSLOCK, bind, log. simpl.
  fold (add_events [AcquireLock] w).
  now destruct (body (add_events [AcquireLock] w)).
Qed.

Lemma emits_load_wincerts rt :
  emits (fun e => source_of_event e = Some OSStore) (HaveSSL._load_wincerts rt).
Proof.
  assert (silent : forall A (m : M A),
             (forall w, trace (snd (m w)) = trace w) ->
             emits (fun e => source_of_event e = Some OSStore) m).
  { intros A m H w. exists []. rewrite H, app_nil_r. now split. }
  unfold HaveSSL._load_wincerts.
  apply emits_bind.
  { unfold new_CertFile. apply emits_bind.
    - now apply emits_call.
    - intros _. now apply silent. }
  intros cf0. apply emits_bind.
  { unfold cf_addstore. apply emits_bind.
    - now apply emits_call.
    - intros _. apply emits_ret. }
  intros cf1. apply emits_bind.
  { unfold cf_addstore. apply emits_bind.
    - now apply emits_call.
    - intros _. apply emits_ret. }
  intros cf2. apply emits_bind.
  { unfold atexit_register. apply emits_bind.
    - now apply emits_log.
    - intros _. now apply silent. }
  intros _. now apply silent.
Qed.

Lemma OSStoreCache_get_events rt w :
  exists evs,
    trace (snd (OSStoreCache_get rt w)) = trace w ++ AcquireLock :: evs
    /\ Forall (fun e => source_of_event e = Some OSStore) evs.
Proof.
  unfold OSStoreCache_get. rewrite with_WINCERTSLOCK_run.
  set (body := bind read_WINCERTS _).
  assert (Hb : emits (fun e => source_of_event e = Some OSStore) body).
  { subst body. apply emits_bind; [apply emits_read_WINCERTS|].
    intros [cf|]; [apply emits_ret | apply emits_load_wincerts]. }
  destruct (Hb (add_events [AcquireLock] w)) as (evs & Ht & HP).
  exists (evs ++ [ReleaseLock]). split.
  - simpl. rewrite Ht. simpl. now rewrite <- !app_assoc.
  - apply Forall_app. split; [assumption | now repeat constructor].
Qed.

Lemma new_events_after (w w' : world) (pre evs : list event) :
  trace w' = trace (add_events pre w) ++ evs ->
  new_events w w' = pre ++ evs.
Proof.
  intros H. apply new_events_app. rewrite H. simpl. now rewrite app_assoc.
Qed.

Lemma emits_load_wincerts_file (P : event -> Prop) rt ctx :
  (forall f, P (Call (load_verify_locations f))) ->
  emits P (load_wincerts_file rt ctx).
Proof.
  intros HP. unfold load_wincerts_file.
  apply emits_bind; [apply emits_read_WINCERTS|].
  intros [cf|]; [now apply emits_load_verify_locations | apply emits_raise].
Qed.

(** The OS-store step: the lock is taken first, and all that follows
    is the store's own or the loading of a file of trust anchors. *)
Lemma OSStore_step_events rt ctx w :
  exists rest,
    trace (snd (bind (OSStoreCache_get rt)
                     (fun _ => load_wincerts_file rt ctx) w))
    = trace w ++ AcquireLock :: rest
    /\ Forall (fun e => source_of_event e = Some OSStore
                        \/ source_of_event e = None) rest.
Proof.
  destruct (OSStoreCache_get_events rt w) as (evs & Ht & HP).
  assert (HQ : Forall (fun e => source_of_event e = Some OSStore
                                \/ source_of_event e = None) evs).
  { eapply Forall_impl; [|exact HP]. intros e He. now left. }
  unfold bind. destruct (OSStoreCache_get rt w) as [[u|e] w1]; simpl in *.
  - destruct (emits_load_wincerts_file
                (fun e => source_of_event e = Some OSStore
                          \/ source_of_event e = None) rt ctx
                (fun f => or_intror eq_refl) w1) as (evs2 & Ht2 & HP2).
    exists (evs ++ evs2). split.
    + rewrite Ht2, Ht. now rewrite <- app_assoc.
    + apply Forall_app. now split.
  - now exists evs.
Qed.

(** ** What a successful call went through *)

Lemma bind_returns_inv {A B} (m : M A) (k : A -> M B) w b w' :
  bind m k w = (Returns b, w') ->
  exists a w1, m w = (Returns a, w1) /\ k a w1 = (Returns b, w').
Proof.
  unfold bind. destruct (m w) as [[a|e] w1]; intros H.
  - now exists a, w1.
  - discriminate.
Qed.

Lemma set_verify_mode_returns rt ctx v w ctx' w' :
  set_verify_mode rt ctx v w = (Returns ctx', w') ->
  ctx' = assigned_verify_mode ctx v /\ w' = w.
Proof.
  unfold set_verify_mode.
  destruct (ctx_checks_verify_mode rt && negb (verify_mode_accepted v));
    simpl; intros H; inversion H; auto.
Qed.

Lemma grows_refl ctx : grows ctx ctx.
Proof. repeat split. exists []. now rewrite app_nil_r. Qed.

Lemma grows_loaded_verify_locations ctx f :
  grows ctx (loaded_verify_locations ctx f).
Proof. repeat split. now exists [f]. Qed.

Lemma load_verify_locations_returns rt ctx f w ctx' w' :
  ctx_load_verify_locations rt ctx f w = (Returns ctx', w') ->
  ctx' = loaded_verify_locations ctx f
  /\ raises rt (load_verify_locations f) = false.
Proof.
  rewrite load_verify_locations_run.
  destruct (raises rt (load_verify_locations f)); intros H; inversion H; auto.
Qed.

Lemma resolve_ca_grows rt ctx w ctx' w' :
  resolve_ca rt ctx w = (Returns ctx', w') -> grows ctx ctx'.
Proof.
  unfold resolve_ca.
  destruct (ctx_has_load_default_certs rt).
  { rewrite load_default_certs_run.
    destruct (raises rt load_default_certs); intros H; inversion H.
    repeat split. exists []. simpl. now rewrite app_nil_r. }
  destruct (negb (String.eqb (sys_platform rt) "win32")
            && ctx_has_set_default_verify_paths rt).
  { rewrite set_default_verify_paths_run.
    destruct (raises rt set_default_verify_paths); intros H; inversion H.
    repeat split. exists []. simpl. now rewrite app_nil_r. }
  destruct (String.eqb (sys_platform rt) "win32" && HAVE_WINCERTSTORE rt).
  { intros H. apply bind_returns_inv in H. destruct H as (u & w1 & _ & H).
    unfold load_wincerts_file in H.
    apply bind_returns_inv in H. destruct H as (wc & w2 & _ & H).
    destruct wc as [cf|]; [|discriminate].
    apply load_verify_locations_returns in H. destruct H as [-> _].
    apply grows_loaded_verify_locations. }
  destruct (HAVE_CERTIFI rt).
  { intros H. apply bind_returns_inv in H. destruct H as (b & w1 & _ & H).
    apply load_verify_locations_returns in H. destruct H as [-> _].
    apply grows_loaded_verify_locations. }
  discriminate.
Qed.

Lemma load_ca_grows rt args ctx w ctx' w' :
  load_ca rt args ctx w = (Returns ctx', w') -> grows ctx ctx'.
Proof.
  unfold load_ca. destruct (ca_certs args) as [ca|].
  - intros H. apply load_verify_locations_returns in H. destruct H as [-> _].
    apply grows_loaded_verify_locations.
  - destruct (py_ne (cert_reqs args) CERT_NONE).
    + apply resolve_ca_grows.
    + intros H. inversion H. apply grows_refl.
Qed.

(** A call that returns a context passed the client-certificate and
    CRL statements, loaded its CA material, and assigned the mode. *)
Lemma get_ssl_context_returns_inv rt args w ctx w' :
  HaveSSL.get_ssl_context rt args w = (Returns ctx, w') ->
  cert_step_passes rt args = true
  /\ crl_step_passes rt args = true
  /\ exists ctx3,
       load_ca rt args
         (after_crl rt args (after_cert args (hardened_context rt)))
         (add_events (cert_step_events args ++ crl_step_events args) w)
       = (Returns ctx3, w')
       /\ ctx = assigned_verify_mode ctx3 (resolved_cert_reqs args).
Proof.
  intros H.
  destruct (cert_step_passes rt args) eqn:Hcert.
  2:{ exfalso. rewrite get_ssl_context_statements in H.
      destruct (load_client_cert_fails rt args (hardened_context rt) w Hcert)
        as (cert & _ & Hf).
      erewrite bind_raises in H by exact Hf. discriminate. }
  destruct (crl_step_passes rt args) eqn:Hcrl.
  2:{ exfalso. rewrite get_ssl_context_statements in H.
      erewrite bind_returns in H by (now apply load_client_cert_passes).
      apply bind_returns_inv in H. destruct H as (c2 & w2 & H & _).
      revert H Hcrl. unfold load_crl, crl_step_passes.
      destruct (crlfile args) as [crl|]; [|discriminate].
      destruct (ctx_has_verify_flags rt); simpl; [|discriminate].
      intros H Hr. apply load_verify_locations_returns in H.
      destruct H as [_ H]. rewrite H in Hr. discriminate. }
  repeat split.
  rewrite (reaches_load_ca rt args w Hcert Hcrl) in H.
  apply bind_returns_inv in H. destruct H as (ctx3 & w3 & Hca & Hmode).
  apply set_verify_mode_returns in Hmode. destruct Hmode as [-> ->].
  now exists ctx3.
Qed.

(** The mode of a returned context is what line 136 assigns. *)
Lemma returned_verify_mode rt args w ctx w' :
  HaveSSL.get_ssl_context rt args w = (Returns ctx, w') ->
  verify_mode ctx = resolved_cert_reqs args.
Proof.
  intros H. apply get_ssl_context_returns_inv in H.
  destruct H as (_ & _ & ctx3 & _ & ->). reflexivity.
Qed.

(** The CRL settings of a returned context. *)
Lemma returned_crl rt args w ctx w' crl :
  crlfile args = Some crl ->
  HaveSSL.get_ssl_context rt args w = (Returns ctx, w') ->
  verify_flags ctx = Some (VERIFY_CRL_CHECK_LEAF rt)
  /\ In crl (verify_locations ctx).
Proof.
  intros Hcrl H. apply get_ssl_context_returns_inv in H.
  destruct H as (_ & _ & ctx3 & Hca & ->).
  apply load_ca_grows in Hca. destruct Hca as (Hvf & _ & _ & l & Hloc).
  unfold after_crl in *. rewrite Hcrl in *. simpl in *. split.
  - exact Hvf.
  - rewrite Hloc. apply in_or_app. left. apply in_or_app. right. now left.
Qed.

(** ** What any call adds to the trace *)

Lemma emits_weaken {A} (P Q : event -> Prop) (m : M A) :
  (forall e, P e -> Q e) -> emits P m -> emits Q m.
Proof.
  intros HPQ Hm w. destruct (Hm w) as (evs & Ht & HP).
  exists evs. split; [assumption|]. eapply Forall_impl; eauto.
Qed.

Lemma emits_OSStoreCache_get rt :
  emits (fun e => source_of_event e = Some OSStore) (OSStoreCache_get rt).
Proof.
  intros w. destruct (OSStoreCache_get_events rt w) as (evs & Ht & HP).
  exists (AcquireLock :: evs). split; [assumption | now constructor].
Qed.

Lemma emits_resolve_ca rt ctx : emits (fun _ => True) (resolve_ca rt ctx).
Proof.
  unfold resolve_ca.
  destruct (ctx_has_load_default_certs rt).
  { unfold ctx_load_default_certs. apply emits_bind.
    - now apply emits_call.
    - intros _. apply emits_ret. }
  destruct (negb (String.eqb (sys_platform rt) "win32")
            && ctx_has_set_default_verify_paths rt).
  { unfold ctx_set_default_verify_paths. apply emits_bind.
    - now apply emits_call.
    - intros _. apply emits_ret. }
  destruct (String.eqb (sys_platform rt) "win32" && HAVE_WINCERTSTORE rt).
  { apply emits_bind.
    - eapply emits_weaken; [|apply emits_OSStoreCache_get]. auto.
    - intros _. now apply emits_load_wincerts_file. }
  destruct (HAVE_CERTIFI rt).
  { apply emits_bind.
    - unfold certifi_where_call. apply emits_bind.
      + now apply emits_log.
      + intros _. apply emits_ret.
    - intros b. now apply emits_load_verify_locations. }
  apply emits_raise.
Qed.

Lemma emits_load_ca rt args ctx : emits (fun _ => True) (load_ca rt args ctx).
Proof.
  unfold load_ca. destruct (ca_certs args) as [ca|].
  - now apply emits_load_verify_locations.
  - destruct (py_ne (cert_reqs args) CERT_NONE).
    + apply emits_resolve_ca.
    + apply emits_ret.
Qed.

(** With CRL support, a call whose client certificate loaded goes on
    to load the CRL file. *)
Lemma crl_load_is_attempted rt args w crl :
  crlfile args = Some crl ->
  ctx_has_verify_flags rt = true ->
  cert_step_passes rt args = true ->
  exists rest,
    new_events w (snd (HaveSSL.get_ssl_context rt args w))
    = cert_step_events args ++ Call (load_verify_locations crl) :: rest.
Proof.
  intros Hcrl Hvf Hcert.
  destruct (raises rt (load_verify_locations crl)) eqn:Hr.
  - exists []. rewrite get_ssl_context_statements.
    erewrite bind_returns by (now apply load_client_cert_passes).
    erewrite bind_raises
      by (rewrite (load_crl_supported rt args _ _ crl Hcrl Hvf), Hr;
          reflexivity).
    simpl. rewrite add_events_app. apply new_events_add.
  - assert (Hpass : crl_step_passes rt args = true).
    { unfold crl_step_passes. now rewrite Hcrl, Hvf, Hr. }
    rewrite (reaches_load_ca rt args w Hcert Hpass), then_assign_world.
    destruct (emits_load_ca rt args
                (after_crl rt args (after_cert args (hardened_context rt)))
                (add_events (cert_step_events args ++ crl_step_events args) w))
      as (evs & Ht & _).
    exists evs. apply new_events_app. rewrite Ht. simpl.
    unfold crl_step_events. rewrite Hcrl.
    now rewrite <- !app_assoc.
Qed.

(** When the statements before it pass and the CA material loads, the
    call returns unless the class rejects the mode assigned. *)
Lemma get_ssl_context_succeeds rt args w ctx3 w3 :
  cert_step_passes rt args = true ->
  crl_step_passes rt args = true ->
  load_ca rt args
    (after_crl rt args (after_cert args (hardened_context rt)))
    (add_events (cert_step_events args ++ crl_step_events args) w)
  = (Returns ctx3, w3) ->
  ctx_checks_verify_mode rt
  && negb (verify_mode_accepted (resolved_cert_reqs args)) = false ->
  HaveSSL.get_ssl_context rt args w
  = (Returns (assigned_verify_mode ctx3 (resolved_cert_reqs args)), w3).
Proof.
  intros Hcert Hcrl Hca Hmode.
  rewrite (reaches_load_ca rt args w Hcert Hcrl).
  erewrite bind_returns by exact Hca.
  unfold assign_verify_mode, set_verify_mode. now rewrite Hmode.
Qed.

(** ** C6: a CRL file needs CRL support *)

(** C6.  With a [crlfile] and a context class without [verify_flags],
    [get_ssl_context] always raises and never loads the CRL file (no
    file of that kind is loaded at all); the error is the "Support for
    ssl_crlfile requires ..." one in every call that gets as far as the
    CRL statement, that is, whose client certificate, if any, loaded.
    With [verify_flags], such a call assigns [VERIFY_CRL_CHECK_LEAF]
    and then loads the CRL file; if that load raises, its exception is
    the outcome of the call. *)
Theorem crl_requires_support :
  forall (rt : runtime) (args : ssl_args) (w : world) (crl : string),
    crlfile args = Some crl ->
    (ctx_has_verify_flags rt = false ->
       (exists e, fst (HaveSSL.get_ssl_context rt args w) = Raises e)
       /\ (forall f, ~ In (Call (load_verify_locations f))
                       (new_events w (snd (HaveSSL.get_ssl_context rt args w))))
       /\ (cert_step_passes rt args = true ->
           HaveSSL.get_ssl_context rt args w
           = (Raises UnsupportedCRL, add_events (cert_step_events args) w)))
    /\ (ctx_has_verify_flags rt = true ->
        cert_step_passes rt args = true ->
        (exists rest,
           new_events w (snd (HaveSSL.get_ssl_context rt args w))
           = cert_step_events args ++ Call (load_verify_locations crl) :: rest)
        /\ (raises rt (load_verify_locations crl) = true ->
            HaveSSL.get_ssl_context rt args w
            = (Raises (InvalidCRL crl),
               add_events (cert_step_events args
                           ++ [Call (load_verify_locations crl)]) w))
        /\ (forall ctx,
              fst (HaveSSL.get_ssl_context rt args w) = Returns ctx ->
              verify_flags ctx = Some (VERIFY_CRL_CHECK_LEAF rt)
              /\ In crl (verify_locations ctx))).
Proof.
  intros rt args w crl Hcrl. split.
  - intros Hvf.
    destruct (cert_step_passes rt args) eqn:Hcert.
    + assert (Hrun : HaveSSL.get_ssl_context rt args w
                     = (Raises UnsupportedCRL,
                        add_events (cert_step_events args) w)).
      { rewrite get_ssl_context_statements.
        erewrite bind_returns by (now apply load_client_cert_passes).
        erewrite bind_raises; [reflexivity|].
        now apply load_crl_unsupported with (crl := crl). }
      rewrite Hrun. simpl. repeat split.
      * now exists UnsupportedCRL.
      * intros f. rewrite new_events_add. unfold cert_step_events.
        destruct (certfile args); simpl; intuition discriminate.
    + destruct (load_client_cert_fails rt args (hardened_context rt) w Hcert)
        as (cert & Hc & Hf).
      rewrite get_ssl_context_statements.
      erewrite bind_raises by exact Hf. simpl. repeat split.
      * eexists; reflexivity.
      * intros f. rewrite new_events_add. simpl. intuition discriminate.
      * discriminate.
  - intros Hvf Hcert.
    assert (Hstart : forall k : SSLContext -> M SSLContext,
              bind (load_client_cert rt args (hardened_context rt)) k w
              = k (after_cert args (hardened_context rt))
                  (add_events (cert_step_events args) w)).
    { intros k. now erewrite bind_returns by (now apply load_client_cert_passes). }
    destruct (raises rt (load_verify_locations crl)) eqn:Hr.
    + assert (Hrun : HaveSSL.get_ssl_context rt args w
                     = (Raises (InvalidCRL crl),
                        add_events (cert_step_events args
                                    ++ [Call (load_verify_locations crl)]) w)).
      { rewrite get_ssl_context_statements, Hstart.
        erewrite bind_raises; [reflexivity|].
        rewrite (load_crl_supported rt args _ _ crl Hcrl Hvf), Hr.
        now rewrite add_events_app. }
      rewrite Hrun. simpl. repeat split.
      * exists []. now rewrite new_events_add.
      * discriminate.
      * discriminate.
    + repeat split.
      * now apply crl_load_is_attempted.
      * discriminate.
      * destruct (HaveSSL.get_ssl_context rt args w) as [r w'] eqn:Hrun.
        simpl in H. subst r.
        now apply (returned_crl rt args w ctx w' crl Hcrl Hrun).
      * destruct (HaveSSL.get_ssl_context rt args w) as [r w'] eqn:Hrun.
        simpl in H. subst r.
        now apply (returned_crl rt args w ctx w' crl Hcrl Hrun).
Qed.

(** ** C10: the CRL is handled whatever the verification mode *)

(** C10.  With a [crlfile] and a context class with [verify_flags], a
    call whose client certificate, if any, loaded goes on to load the
    CRL file whatever [cert_reqs] is; a context it returns has
    [VERIFY_CRL_CHECK_LEAF] as its flags, the CRL file among its
    locations, and the mode of line 136.  With [cert_reqs] equal to
    [CERT_NONE] and files that load, it does return one: CRL
    enforcement together with the mode [CERT_NONE]. *)
Theorem crl_independent_of_verify_mode :
  forall (rt : runtime) (args : ssl_args) (w : world) (crl : string),
    crlfile args = Some crl ->
    ctx_has_verify_flags rt = true ->
    cert_step_passes rt args = true ->
    (exists rest,
       new_events w (snd (HaveSSL.get_ssl_context rt args w))
       = cert_step_events args ++ Call (load_verify_locations crl) :: rest)
    /\ (forall ctx,
          fst (HaveSSL.get_ssl_context rt args w) = Returns ctx ->
          verify_flags ctx = Some (VERIFY_CRL_CHECK_LEAF rt)
          /\ In crl (verify_locations ctx)
          /\ verify_mode ctx = resolved_cert_reqs args)
    /\ (cert_reqs args = CERT_NONE ->
        raises rt (load_verify_locations crl) = false ->
        (forall ca, ca_certs args = Some ca ->
                    raises rt (load_verify_locations ca) = false) ->
        exists ctx,
          fst (HaveSSL.get_ssl_context rt args w) = Returns ctx
          /\ verify_flags ctx = Some (VERIFY_CRL_CHECK_LEAF rt)
          /\ In crl (verify_locations ctx)
          /\ verify_mode ctx = CERT_NONE).
Proof.
  intros rt args w crl Hcrl Hvf Hcert.
  assert (Hret : forall ctx,
             fst (HaveSSL.get_ssl_context rt args w) = Returns ctx ->
             verify_flags ctx = Some (VERIFY_CRL_CHECK_LEAF rt)
             /\ In crl (verify_locations ctx)
             /\ verify_mode ctx = resolved_cert_reqs args).
  { intros ctx H.
    destruct (HaveSSL.get_ssl_context rt args w) as [r w'] eqn:Hrun.
    simpl in H. subst r.
    destruct (returned_crl rt args w ctx w' crl Hcrl Hrun) as [H1 H2].
    repeat split; try assumption.
    now apply (returned_verify_mode rt args w ctx w'). }
  split; [now apply crl_load_is_attempted|].
  split; [exact Hret|].
  intros Hnone Hr Hca.
  assert (Hpass : crl_step_passes rt args = true).
  { unfold crl_step_passes. now rewrite Hcrl, Hvf, Hr. }
  assert (Hres : resolved_cert_reqs args = CERT_NONE).
  { unfold resolved_cert_reqs. now rewrite Hnone. }
  assert (Hload : exists ctx3 w3,
             load_ca rt args
               (after_crl rt args (after_cert args (hardened_context rt)))
               (add_events (cert_step_events args ++ crl_step_events args) w)
             = (Returns ctx3, w3)).
  { unfold load_ca. destruct (ca_certs args) as [ca|] eqn:Eca.
    - rewrite load_verify_locations_run, (Hca ca eq_refl).
      do 2 eexists; reflexivity.
    - rewrite Hnone. do 2 eexists; reflexivity. }
  destruct Hload as (ctx3 & w3 & Hload).
  assert (Hrun := get_ssl_context_succeeds rt args w ctx3 w3 Hcert Hpass Hload).
  rewrite Hres in Hrun. simpl in Hrun. rewrite andb_false_r in Hrun.
  specialize (Hrun eq_refl).
  exists (assigned_verify_mode ctx3 CERT_NONE).
  rewrite Hrun. split; [reflexivity|].
  destruct (Hret (assigned_verify_mode ctx3 CERT_NONE)) as (H1 & H2 & _).
  { now rewrite Hrun. }
  repeat split; assumption.
Qed.

(** ** C7: an explicit CA file, or no verification, bypasses the chain *)

Lemma emits_load_client_cert rt args ctx :
  emits neutral (load_client_cert rt args ctx).
Proof.
  unfold load_client_cert. destruct (certfile args).
  - now apply emits_load_cert_chain.
  - apply emits_ret.
Qed.

Lemma emits_load_crl rt args ctx : emits neutral (load_crl rt args ctx).
Proof.
  unfold load_crl. destruct (crlfile args).
  - destruct (negb (ctx_has_verify_flags rt)).
    + apply emits_raise.
    + now apply emits_load_verify_locations.
  - apply emits_ret.
Qed.

Lemma keeps_load_client_cert rt args ctx :
  keeps_cache (load_client_cert rt args ctx).
Proof.
  unfold load_client_cert. destruct (certfile args).
  - apply keeps_load_cert_chain.
  - apply keeps_ret.
Qed.

Lemma keeps_load_crl rt args ctx : keeps_cache (load_crl rt args ctx).
Proof.
  unfold load_crl. destruct (crlfile args).
  - destruct (negb (ctx_has_verify_flags rt)).
    + apply keeps_raise.
    + apply keeps_load_verify_locations.
  - apply keeps_ret.
Qed.

Section Bypass.

Variable rt : runtime.
Variable args : ssl_args.
Hypothesis bypass :
  ca_certs args <> None \/ py_ne (cert_reqs args) CERT_NONE = false.

Lemma load_ca_bypass ctx :
  load_ca rt args ctx
  = match ca_certs args with
    | Some ca => ctx_load_verify_locations rt ctx ca
    | None => ret ctx
    end.
Proof.
  unfold load_ca. destruct (ca_certs args) as [ca|]; [reflexivity|].
  destruct bypass as [H|H]; [congruence | now rewrite H].
Qed.

Lemma emits_load_ca_bypass ctx : emits neutral (load_ca rt args ctx).
Proof.
  rewrite load_ca_bypass. destruct (ca_certs args).
  - now apply emits_load_verify_locations.
  - apply emits_ret.
Qed.

Lemma keeps_load_ca_bypass ctx : keeps_cache (load_ca rt args ctx).
Proof.
  rewrite load_ca_bypass. destruct (ca_certs args).
  - apply keeps_load_verify_locations.
  - apply keeps_ret.
Qed.

Lemma emits_get_ssl_context_bypass :
  emits neutral (HaveSSL.get_ssl_context rt args).
Proof.
  rewrite get_ssl_context_statements.
  apply emits_bind; [apply emits_load_client_cert|]. intros c1.
  apply emits_bind; [apply emits_load_crl|]. intros c2.
  apply emits_bind; [apply emits_load_ca_bypass|]. intros c3.
  apply emits_set_verify_mode.
Qed.

Lemma keeps_get_ssl_context_bypass :
  keeps_cache (HaveSSL.get_ssl_context rt args).
Proof.
  rewrite get_ssl_context_statements.
  apply keeps_bind; [apply keeps_load_client_cert|]. intros c1.
  apply keeps_bind; [apply keeps_load_crl|]. intros c2.
  apply keeps_bind; [apply keeps_load_ca_bypass|]. intros c3.
  apply keeps_set_verify_mode.
Qed.

End Bypass.

(** C7.  With [ca_certs] given, or [cert_reqs] equal to [CERT_NONE],
    no step of the resolution chain runs: every event of the call is
    the loading of a file named in the arguments, and [_WINCERTS], the
    [atexit] registry and the count of [CertFile] instances are left
    as they were.  With [ca_certs] given, in a call whose earlier
    statements pass, that file is loaded next and is the last thing
    loaded; if the load raises, its exception is the outcome of the
    call. *)
Theorem explicit_ca_bypasses_chain :
  forall (rt : runtime) (args : ssl_args) (w : world),
    ca_certs args <> None \/ py_ne (cert_reqs args) CERT_NONE = false ->
    Forall (fun e => source_of_event e = None)
      (new_events w (snd (HaveSSL.get_ssl_context rt args w)))
    /\ _WINCERTS (snd (HaveSSL.get_ssl_context rt args w)) = _WINCERTS w
    /\ atexit (snd (HaveSSL.get_ssl_context rt args w)) = atexit w
    /\ CertFile_count (snd (HaveSSL.get_ssl_context rt args w))
       = CertFile_count w
    /\ forall ca,
         ca_certs args = Some ca ->
         cert_step_passes rt args = true ->
         crl_step_passes rt args = true ->
         new_events w (snd (HaveSSL.get_ssl_context rt args w))
         = (cert_step_events args ++ crl_step_events args)
           ++ [Call (load_verify_locations ca)]
         /\ (raises rt (load_verify_locations ca) = true ->
             fst (HaveSSL.get_ssl_context rt args w)
             = Raises (InvalidCAFile ca))
         /\ (forall ctx,
               fst (HaveSSL.get_ssl_context rt args w) = Returns ctx ->
               exists l, verify_locations ctx = l ++ [ca]).
Proof.
  intros rt args w Hby.
  destruct (emits_get_ssl_context_bypass rt args Hby w) as (evs & Ht & HP).
  destruct (keeps_get_ssl_context_bypass rt args Hby w) as (K1 & K2 & K3).
  split; [now rewrite (new_events_app _ _ _ Ht)|].
  repeat (split; [assumption|]).
  intros ca Hca Hcert Hcrl.
  rewrite (reaches_load_ca rt args w Hcert Hcrl).
  unfold load_ca. rewrite Hca.
  repeat split.
  - rewrite then_assign_world, load_verify_locations_run. simpl snd.
    now apply new_events_after.
  - intros Hr. apply then_assign_raises.
    rewrite load_verify_locations_run, Hr. reflexivity.
  - intros ctx. unfold bind. rewrite load_verify_locations_run.
    destruct (raises rt (load_verify_locations ca)); [discriminate|].
    unfold assign_verify_mode, set_verify_mode.
    destruct (ctx_checks_verify_mode rt && _); simpl; [discriminate|].
    intros H. inversion H. simpl. eauto.
Qed.

(** ** C4: the verification mode of a returned context *)

Lemma validated_cert_reqs rt option raw v :
  HaveSSL.validate_cert_reqs rt option raw = Returns v ->
  v = PNone \/ py_in v cert_reqs_values = true.
Proof.
  unfold HaveSSL.validate_cert_reqs.
  destruct (is_None raw) eqn:Hn.
  - intros H. inversion H. subst. destruct v; try discriminate. now left.
  - match goal with
    | |- context [py_in ?x cert_reqs_values] =>
        destruct (py_in x cert_reqs_values) eqn:Hin
    end; intros H; inversion H. subst. now right.
Qed.

Lemma py_eq_refl (v : pyval) : py_eq v v = true.
Proof.
  destruct v as [|b|n|q|s|i]; simpl.
  - reflexivity.
  - apply Bool.eqb_reflx.
  - apply Z.eqb_refl.
  - apply Qeq_bool_iff. reflexivity.
  - apply String.eqb_refl.
  - apply Nat.eqb_refl.
Qed.

(** A class that checks the mode has accepted the mode of a context
    that is returned. *)
Lemma returned_mode_accepted rt args w ctx w' :
  HaveSSL.get_ssl_context rt args w = (Returns ctx, w') ->
  ctx_checks_verify_mode rt = true ->
  verify_mode_accepted (resolved_cert_reqs args) = true.
Proof.
  intros H Hchk.
  destruct (get_ssl_context_returns_inv rt args w ctx w' H)
    as (Hcert & Hcrl & _).
  rewrite (reaches_load_ca rt args w Hcert Hcrl) in H.
  apply bind_returns_inv in H. destruct H as (ctx3 & w3 & _ & H).
  unfold assign_verify_mode, set_verify_mode in H. rewrite Hchk in H.
  destruct (verify_mode_accepted (resolved_cert_reqs args));
    [reflexivity | discriminate].
Qed.

(** C4, as the code has it.  [get_ssl_context] assigns [cert_reqs] as
    it is given, [CERT_REQUIRED] for None, and does not restrict it to
    the three modes.  The mode read from a returned context equals
    that value and is never None; it is [CERT_REQUIRED] for None and
    [cert_reqs] itself when that is one of the three modes; it is one
    of the three modes whenever the context class checks what is
    assigned, and equal to one of them whenever [cert_reqs] is a value
    [validate_cert_reqs] returns.  With a class that stores what it
    is given it is [cert_reqs], whatever that is. *)
Theorem verify_mode_is_resolved_cert_reqs :
  forall (rt : runtime) (args : ssl_args) (w w' : world) (ctx : SSLContext),
    HaveSSL.get_ssl_context rt args w = (Returns ctx, w') ->
    py_eq (get_verify_mode rt ctx)
      (if is_None (cert_reqs args) then CERT_REQUIRED else cert_reqs args)
    = true
    /\ get_verify_mode rt ctx <> PNone
    /\ (cert_reqs args = PNone -> get_verify_mode rt ctx = CERT_REQUIRED)
    /\ (In (cert_reqs args) cert_reqs_values ->
        get_verify_mode rt ctx = cert_reqs args)
    /\ (ctx_checks_verify_mode rt = true ->
        In (get_verify_mode rt ctx) cert_reqs_values)
    /\ (ctx_checks_verify_mode rt = false ->
        get_verify_mode rt ctx
        = (if is_None (cert_reqs args) then CERT_REQUIRED
           else cert_reqs args))
    /\ ((exists option raw,
           HaveSSL.validate_cert_reqs rt option raw
           = Returns (cert_reqs args)) ->
        py_in (get_verify_mode rt ctx) cert_reqs_values = true).
Proof.
  intros rt args w w' ctx Hrun.
  assert (Hacc := returned_mode_accepted rt args w ctx w' Hrun).
  apply returned_verify_mode in Hrun.
  unfold get_verify_mode. rewrite Hrun.
  unfold resolved_cert_reqs in *.
  destruct (ctx_checks_verify_mode rt) eqn:Hchk.
  - specialize (Hacc eq_refl).
    assert (Hmodes : forall n,
              py_in (PInt n) cert_reqs_values = true ->
              In (PInt n) cert_reqs_values).
    { intros n Hn. simpl in Hn. rewrite orb_false_r in Hn.
      apply orb_true_iff in Hn. destruct Hn as [Hn|Hn];
        [|apply orb_true_iff in Hn; destruct Hn as [Hn|Hn]];
        apply Z.eqb_eq in Hn; subst n; simpl; auto. }
    destruct (cert_reqs args) as [|b|n|q|s|i] eqn:Hv; simpl in Hacc;
      try discriminate; cbn [is_None].
    + split; [reflexivity|]. split; [discriminate|].
      split; [reflexivity|]. split.
      { intros [H|[H|[H|[]]]]; discriminate. }
      split; [intros _; simpl; auto|]. split; [discriminate|].
      reflexivity.
    + assert (Hb : In (PInt (Z.b2z b)) cert_reqs_values).
      { destruct b; simpl; auto. }
      split; [simpl; apply Z.eqb_refl|]. split; [discriminate|].
      split; [discriminate|]. split.
      { intros [H|[H|[H|[]]]]; discriminate. }
      split; [auto|]. split; [discriminate|].
      intros _. now destruct b.
    + split; [simpl; apply Z.eqb_refl|]. split; [discriminate|].
      split; [discriminate|]. split; [reflexivity|].
      split; [intros _; now apply Hmodes|]. split; [discriminate|].
      intros _. exact Hacc.
  - split; [apply py_eq_refl|]. split.
    { destruct (cert_reqs args); discriminate. }
    split; [intros ->; reflexivity|]. split.
    { intros Hin. destruct (cert_reqs args); try reflexivity.
      destruct Hin as [H|[H|[H|[]]]]; discriminate. }
    split; [discriminate|]. split; [reflexivity|].
    intros (option & raw & Hval). apply validated_cert_reqs in Hval.
    destruct Hval as [-> | Hin]; [reflexivity|].
    destruct (cert_reqs args); try discriminate; exact Hin.
Qed.

(** [get_ssl_context] returns a context whose mode is none of the
    three: with a class that stores what it is given, a [cert_reqs]
    of 5 is the mode of the context. *)
Lemma get_ssl_context_returns_other_mode :
  exists ctx w',
    HaveSSL.get_ssl_context cpython26_win32 (with_ca "ca.pem" (PInt 5))
      initial_world = (Returns ctx, w')
    /\ get_verify_mode cpython26_win32 ctx = PInt 5
    /\ verify_mode ctx = PInt 5
    /\ py_in (PInt 5) cert_reqs_values = false
    /\ ~ In (PInt 5) cert_reqs_values.
Proof.
  do 2 eexists. split; [reflexivity|].
  repeat split. simpl. intuition discriminate.
Qed.

(** ** C5: no verification and no file *)

(** C5.  With [cert_reqs] equal to [CERT_NONE] and no file given,
    [get_ssl_context] returns a context whose mode is [CERT_NONE] and
    which holds no client certificate and no trust material; the call
    leaves the world as it found it, so it makes no call to a library
    and does not touch the OS-store cache.  This holds in every
    runtime, and the mode and the (empty) material of the context are
    the same in all of them. *)
Theorem get_ssl_context_no_verification :
  forall (rt : runtime) (args : ssl_args) (w : world),
    certfile args = None -> keyfile args = None ->
    ca_certs args = None -> crlfile args = None ->
    cert_reqs args = CERT_NONE ->
    exists ctx : SSLContext,
      HaveSSL.get_ssl_context rt args w = (Returns ctx, w)
      /\ verify_mode ctx = CERT_NONE
      /\ cert_chain ctx = [] /\ verify_locations ctx = []
      /\ default_certs ctx = false /\ default_verify_paths ctx = false
      /\ forall (rt' : runtime),
           exists ctx' : SSLContext,
             HaveSSL.get_ssl_context rt' args w = (Returns ctx', w)
             /\ verify_mode ctx' = verify_mode ctx
             /\ cert_chain ctx' = cert_chain ctx
             /\ verify_locations ctx' = verify_locations ctx
             /\ default_certs ctx' = default_certs ctx
             /\ default_verify_paths ctx' = default_verify_paths ctx.
Proof.
  intros rt args w Hcert Hkey Hca Hcrl Hreqs.
  assert (run : forall r : runtime,
             exists c : SSLContext,
               HaveSSL.get_ssl_context r args w = (Returns c, w)
               /\ verify_mode c = CERT_NONE
               /\ cert_chain c = [] /\ verify_locations c = []
               /\ default_certs c = false /\ default_verify_paths c = false).
  { intros r. rewrite get_ssl_context_statements.
    unfold load_client_cert, load_crl, load_ca, assign_verify_mode,
      resolved_cert_reqs, set_verify_mode, hardened_context, new_SSLContext.
    rewrite Hcert, Hcrl, Hca, Hreqs. simpl.
    rewrite andb_false_r. unfold bind, ret.
    destruct (ctx_has_options r); simpl; eexists; repeat split. }
  destruct (run rt) as (ctx & Hrun & Hmode & Hchain & Hloc & Hdef & Hpaths).
  exists ctx. repeat split; try assumption.
  intros rt'.
  destruct (run rt') as (ctx' & Hrun' & Hmode' & Hchain' & Hloc' & Hdef' & Hpaths').
  exists ctx'. repeat split; congruence.
Qed.

Lemma get_ssl_context_no_verification_witness :
  exists ctx : SSLContext,
    HaveSSL.get_ssl_context cpython_linux (only_cert_reqs CERT_NONE)
      initial_world = (Returns ctx, initial_world)
    /\ verify_mode ctx = CERT_NONE.
Proof.
  destruct (get_ssl_context_no_verification cpython_linux
              (only_cert_reqs CERT_NONE) initial_world
              eq_refl eq_refl eq_refl eq_refl eq_refl)
    as (ctx & Hrun & Hmode & _).
  exists ctx. split; assumption.
Defined.

(** ** C8: without the ssl module *)

(** C8.  When [HAVE_SSL] is false, every call of [validate_cert_reqs]
    (with None as with any other value) and every call of
    [get_ssl_context] raises a [ConfigurationError] saying that the ssl
    module is not available, whatever the arguments; [get_ssl_context]
    leaves the world as it found it. *)
Theorem no_ssl_every_call_fails :
  forall (rt : runtime),
    HAVE_SSL rt = false ->
    (forall (option : string) (value : pyval),
       exists e, validate_cert_reqs rt option value = Raises e
                 /\ TLSUnsupported e)
    /\ (forall (option : string),
          exists e, validate_cert_reqs rt option PNone = Raises e
                    /\ TLSUnsupported e)
    /\ (forall (args : ssl_args) (w : world),
          exists e, get_ssl_context rt args w = (Raises e, w)
                    /\ TLSUnsupported e).
Proof.
  intros rt Hno.
  assert (Hval : forall (option : string) (value : pyval),
             exists e, validate_cert_reqs rt option value = Raises e
                       /\ TLSUnsupported e).
  { intros option value. unfold validate_cert_reqs. rewrite Hno.
    unfold NoSSL.validate_cert_reqs. eexists. split; [reflexivity|].
    exists ("The value of " ++ option ++ " is set but can't be validated. ")%string,
           ""%string.
    f_equal. rewrite !string_app_assoc. reflexivity. }
  split; [exact Hval|]. split; [intros option; apply Hval|].
  intros args w. unfold get_ssl_context. rewrite Hno.
  unfold NoSSL.get_ssl_context, raise. eexists. split; [reflexivity|].
  exists ""%string, "."%string. reflexivity.
Qed.

Lemma no_ssl_every_call_fails_witness :
  exists e,
    validate_cert_reqs no_ssl_runtime "ssl_cert_reqs" PNone = Raises e
    /\ TLSUnsupported e.
Proof.
  destruct (no_ssl_every_call_fails no_ssl_runtime eq_refl) as (_ & H & _).
  exact (H "ssl_cert_reqs"%string).
Defined.

(** ** Witnesses on sample calls *)

Lemma crl_requires_support_witness :
  HaveSSL.get_ssl_context cpython33_linux (with_crl "crl.pem" PNone)
    initial_world
  = (Raises UnsupportedCRL, initial_world).
Proof.
  destruct (crl_requires_support cpython33_linux (with_crl "crl.pem" PNone)
              initial_world "crl.pem" eq_refl) as [H _].
  destruct (H eq_refl) as (_ & _ & Hrun).
  exact (Hrun eq_refl).
Defined.

Lemma crl_independent_of_verify_mode_witness :
  exists ctx,
    fst (HaveSSL.get_ssl_context cpython_linux (with_crl "crl.pem" CERT_NONE)
           initial_world) = Returns ctx
    /\ verify_flags ctx = Some 4
    /\ In "crl.pem"%string (verify_locations ctx)
    /\ verify_mode ctx = CERT_NONE.
Proof.
  destruct (crl_independent_of_verify_mode cpython_linux
              (with_crl "crl.pem" CERT_NONE) initial_world "crl.pem"
              eq_refl eq_refl eq_refl) as (_ & _ & H).
  apply (H eq_refl eq_refl). intros ca Hca. discriminate Hca.
Defined.

Lemma explicit_ca_bypasses_chain_witness :
  new_events initial_world
    (snd (HaveSSL.get_ssl_context cpython26_win32
            (with_ca "ca.pem" CERT_REQUIRED) initial_world))
  = [Call (load_verify_locations "ca.pem")]
  /\ _WINCERTS (snd (HaveSSL.get_ssl_context cpython26_win32
                       (with_ca "ca.pem" CERT_REQUIRED) initial_world))
     = None.
Proof.
  destruct (explicit_ca_bypasses_chain cpython26_win32
              (with_ca "ca.pem" CERT_REQUIRED) initial_world)
    as (_ & Hcache & _ & _ & H).
  { left. discriminate. }
  destruct (H "ca.pem"%string eq_refl eq_refl eq_refl) as (Hev & _).
  split; [exact Hev | exact Hcache].
Defined.

Lemma verify_mode_is_resolved_cert_reqs_witness :
  exists ctx w',
    HaveSSL.get_ssl_context cpython_linux (with_ca "ca.pem" (PBool true))
      initial_world = (Returns ctx, w')
    /\ get_verify_mode cpython_linux ctx = CERT_OPTIONAL.
Proof.
  eexists. eexists. split; [vm_compute; reflexivity|].
  match goal with
  | |- get_verify_mode _ ?ctx = _ =>
      destruct (verify_mode_is_resolved_cert_reqs cpython_linux
                  (with_ca "ca.pem" (PBool true)) initial_world
                  (add_events [Call (load_verify_locations "ca.pem")]
                     initial_world) ctx)
        as (_ & _ & _ & _ & Hin & _)
  end.
  - vm_compute. reflexivity.
  - vm_compute. reflexivity.
Defined.

(** ** The exceptions a computation may raise *)

Section RaisesOnly.

Variable Q : exn -> Prop.

Lemma raises_only_ret {A} (a : A) : raises_only Q (ret a).
Proof. intros w e w' H. discriminate. Qed.

Lemma raises_only_raise {A} (e : exn) : Q e -> raises_only Q (@raise A e).
Proof. intros He w e' w' H. inversion H. now subst. Qed.

Lemma raises_only_bind {A B} (m : M A) (k : A -> M B) :
  raises_only Q m -> (forall a, raises_only Q (k a)) ->
  raises_only Q (bind m k).
Proof.
  intros Hm Hk w e w'. unfold bind.
  destruct (m w) as [[a|e1] w1] eqn:E.
  - apply Hk.
  - intros H. inversion H. subst. eapply Hm. exact E.
Qed.

Lemma raises_only_call rt c : Q (LibraryError c) -> raises_only Q (call rt c).
Proof.
  intros HQ w e w'. rewrite call_run.
  destruct (raises rt c); intros H; inversion H. now subst.
Qed.

Lemma raises_only_silent {A} (m : M A) :
  (forall w, exists a w', m w = (Returns a, w')) -> raises_only Q m.
Proof.
  intros Hm w e w' H. destruct (Hm w) as (a & w1 & E). congruence.
Qed.

End RaisesOnly.

Lemma assembly_error_call c : assembly_error (LibraryError c).
Proof. left. now exists c. Qed.

Lemma raises_only_method (Q : exn -> Prop) rt c {A} (a : A) :
  Q (LibraryError c) -> raises_only Q (call rt c ;;; ret a).
Proof.
  intros HQ. apply raises_only_bind.
  - now apply raises_only_call.
  - intros _. apply raises_only_ret.
Qed.

Lemma load_wincerts_run rt w :
  (exists c, In c [CertFile_new; addstore "CA"; addstore "ROOT"]
             /\ raises rt c = true
             /\ fst (HaveSSL._load_wincerts rt w) = Raises (LibraryError c)
             /\ _WINCERTS (snd (HaveSSL._load_wincerts rt w)) = _WINCERTS w
             /\ atexit (snd (HaveSSL._load_wincerts rt w)) = atexit w)
  \/ (raises rt CertFile_new = false
      /\ raises rt (addstore "CA") = false
      /\ raises rt (addstore "ROOT") = false
      /\ HaveSSL._load_wincerts rt w
         = (Returns tt,
            {| _WINCERTS := Some {| cf_id := CertFile_count w;
                                    cf_stores := ["CA"; "ROOT"]%string |};
               atexit := atexit w ++ [CertFile_count w];
               CertFile_count := S (CertFile_count w);
               trace := trace w ++ [Call CertFile_new; Call (addstore "CA");
                                    Call (addstore "ROOT");
                                    AtexitRegister (CertFile_count w)] |})).
Proof.
  unfold HaveSSL._load_wincerts, new_CertFile, cf_addstore, atexit_register,
    write_WINCERTS, bind. rewrite !call_run.
  destruct (raises rt CertFile_new) eqn:H1.
  { left. exists CertFile_new. simpl. auto 6. }
  simpl. rewrite !call_run.
  destruct (raises rt (addstore "CA")) eqn:H2.
  { left. exists (addstore "CA"). simpl. auto 7. }
  simpl. rewrite !call_run.
  destruct (raises rt (addstore "ROOT")) eqn:H3.
  { left. exists (addstore "ROOT"). simpl. auto 8. }
  right. simpl. repeat split. unfold log, ret. simpl.
  now rewrite <- !app_assoc.
Qed.

(** After [with _WINCERTSLOCK: ...] has returned, [_WINCERTS] is set. *)
Lemma OSStoreCache_get_returns rt w u w' :
  OSStoreCache_get rt w = (Returns u, w') ->
  exists cf, _WINCERTS w' = Some cf.
Proof.
  unfold OSStoreCache_get. rewrite with_WINCERTSLOCK_run.
  unfold bind at 1 2. unfold read_WINCERTS at 1 2. simpl.
  destruct (_WINCERTS w) as [cf|] eqn:Hw.
  - intros H. inversion H. simpl. eauto.
  - destruct (load_wincerts_run rt (add_events [AcquireLock] w))
      as [(c & _ & _ & Hf & _) | (_ & _ & _ & Hrun)].
    + rewrite Hf. discriminate.
    + rewrite Hrun. intros H. inversion H. simpl. eauto.
Qed.

Lemma raises_only_load_wincerts rt :
  raises_only assembly_error (HaveSSL._load_wincerts rt).
Proof.
  intros w e w' H.
  destruct (load_wincerts_run rt w) as [(c & _ & _ & Hf & _) | (_ & _ & _ & Hrun)].
  - rewrite H in Hf. simpl in Hf. inversion Hf. apply assembly_error_call.
  - rewrite Hrun in H. discriminate.
Qed.

Lemma raises_only_OSStoreCache_get rt :
  raises_only assembly_error (OSStoreCache_get rt).
Proof.
  intros w e w'. unfold OSStoreCache_get. rewrite with_WINCERTSLOCK_run.
  intros H. inversion H as [[Hf Hw]]. clear H Hw.
  revert Hf. unfold bind, read_WINCERTS. simpl.
  destruct (_WINCERTS w); [discriminate|].
  destruct (HaveSSL._load_wincerts rt (add_events [AcquireLock] w))
    as [[u|e1] w1] eqn:E; simpl; intros H; inversion H. subst.
  eapply raises_only_load_wincerts. exact E.
Qed.

Lemma raises_only_resolve_ca rt ctx :
  raises_only assembly_error (resolve_ca rt ctx).
Proof.
  unfold resolve_ca.
  destruct (ctx_has_load_default_certs rt).
  { apply raises_only_method, assembly_error_call. }
  destruct (negb (String.eqb (sys_platform rt) "win32")
            && ctx_has_set_default_verify_paths rt).
  { apply raises_only_method, assembly_error_call. }
  destruct (String.eqb (sys_platform rt) "win32" && HAVE_WINCERTSTORE rt).
  { intros w e w' H. unfold bind in H.
    destruct (OSStoreCache_get rt w) as [[u|e1] w1] eqn:E.
    - destruct (OSStoreCache_get_returns rt w u w1 E) as (cf & Hcf).
      unfold load_wincerts_file, bind, read_WINCERTS in H.
      rewrite Hcf in H.
      eapply (raises_only_method assembly_error); [|exact H].
      apply assembly_error_call.
    - inversion H. subst. eapply raises_only_OSStoreCache_get. exact E. }
  destruct (HAVE_CERTIFI rt).
  { apply raises_only_bind.
    - apply raises_only_silent. intros w. unfold certifi_where_call, bind, log.
      simpl. do 2 eexists. reflexivity.
    - intros b. apply raises_only_method, assembly_error_call. }
  apply raises_only_raise. right. now right.
Qed.

Lemma raises_only_assembly rt args :
  raises_only assembly_error
    (ctx <- load_client_cert rt args (hardened_context rt) ;;
     ctx <- load_crl rt args ctx ;;
     load_ca rt args ctx).
Proof.
  apply raises_only_bind.
  { unfold load_client_cert. destruct (certfile args).
    - apply raises_only_method, assembly_error_call.
    - apply raises_only_ret. }
  intros c1. apply raises_only_bind.
  { unfold load_crl. destruct (crlfile args).
    - destruct (negb (ctx_has_verify_flags rt)).
      + apply raises_only_raise. right. now left.
      + apply raises_only_method, assembly_error_call.
    - apply raises_only_ret. }
  intros c2. unfold load_ca. destruct (ca_certs args).
  - apply raises_only_method, assembly_error_call.
  - destruct (py_ne (cert_reqs args) CERT_NONE).
    + apply raises_only_resolve_ca.
    + apply raises_only_ret.
Qed.

Lemma bind_assoc {A B C} (m : M A) (k : A -> M B) (h : B -> M C) w :
  bind (bind m k) h w = bind m (fun a => bind (k a) h) w.
Proof. unfold bind. destruct (m w) as [[a|e] w1]; reflexivity. Qed.

(** Every exception of [get_ssl_context] is one of the assembly, or
    comes from the class refusing the mode once the assembly is done. *)
Lemma get_ssl_context_raises rt args w e w' :
  HaveSSL.get_ssl_context rt args w = (Raises e, w') ->
  assembly_error e
  \/ (e = VerifyModeError (resolved_cert_reqs args)
      /\ ctx_checks_verify_mode rt = true
      /\ verify_mode_accepted (resolved_cert_reqs args) = false
      /\ cert_step_passes rt args = true
      /\ crl_step_passes rt args = true
      /\ exists ctx3,
           load_ca rt args
             (after_crl rt args (after_cert args (hardened_context rt)))
             (add_events (cert_step_events args ++ crl_step_events args) w)
           = (Returns ctx3, w')).
Proof.
  intros H.
  destruct (cert_step_passes rt args) eqn:Hcert.
  2:{ left. rewrite get_ssl_context_statements in H.
      destruct (load_client_cert_fails rt args (hardened_context rt) w Hcert)
        as (cert & _ & Hf).
      erewrite bind_raises in H by exact Hf. inversion H.
      apply assembly_error_call. }
  destruct (crl_step_passes rt args) eqn:Hcrl.
  2:{ left. rewrite get_ssl_context_statements in H.
      erewrite bind_returns in H by (now apply load_client_cert_passes).
      unfold bind in H at 1.
      destruct (load_crl rt args _ _) as [[c2|e2] w2] eqn:E.
      - exfalso. revert E Hcrl. unfold load_crl, crl_step_passes.
        destruct (crlfile args) as [crl|]; [|discriminate].
        destruct (ctx_has_verify_flags rt); simpl; [|discriminate].
        intros E Hr. apply load_verify_locations_returns in E.
        destruct E as [_ E]. rewrite E in Hr. discriminate.
      - inversion H. subst. revert E. unfold load_crl.
        destruct (crlfile args) as [crl|]; [|discriminate].
        destruct (negb (ctx_has_verify_flags rt)).
        + intros E. inversion E. right. now left.
        + intros E. eapply (raises_only_method assembly_error); [|exact E].
          apply assembly_error_call. }
  rewrite (reaches_load_ca rt args w Hcert Hcrl) in H.
  unfold bind in H.
  destruct (load_ca rt args _ _) as [[ctx3|e3] w3] eqn:E.
  - right. unfold assign_verify_mode, set_verify_mode in H.
    destruct (ctx_checks_verify_mode rt
              && negb (verify_mode_accepted (resolved_cert_reqs args))) eqn:Hm;
      [|discriminate].
    inversion H. subst. apply andb_true_iff in Hm. destruct Hm as [Hc Ha].
    apply negb_true_iff in Ha. repeat split; try assumption. now exists ctx3.
  - left. inversion H. subst.
    assert (Hasm := raises_only_assembly rt args w e w').
    apply Hasm. rewrite <- !bind_assoc.
    erewrite bind_returns.
    2:{ erewrite bind_returns by (now apply load_client_cert_passes).
        now apply load_crl_passes. }
    rewrite add_events_app. exact E.
Qed.

(** ** C3: get_ssl_context takes cert_reqs as it is given *)

(** [get_ssl_context] does not call [validate_cert_reqs].  A string
    the validator rejects goes through: the CA file is loaded, and the
    string becomes the mode of the context where the class stores what
    it is given; where the class checks the mode, the class raises once
    the file has been loaded.  The [ValueError] of the validator is
    raised in neither case. *)
Lemma get_ssl_context_accepts_rejected_cert_reqs :
  (exists e,
     HaveSSL.validate_cert_reqs cpython26_win32 "ssl_cert_reqs" (PStr "bogus")
     = Raises e
     /\ InvalidOption "ssl_cert_reqs" e)
  /\ (exists ctx w',
        HaveSSL.get_ssl_context cpython26_win32
          (with_ca "ca.pem" (PStr "bogus")) initial_world
        = (Returns ctx, w')
        /\ verify_mode ctx = PStr "bogus"
        /\ verify_locations ctx = ["ca.pem"%string])
  /\ HaveSSL.get_ssl_context cpython_linux
       (with_ca "ca.pem" (PStr "bogus")) initial_world
     = (Raises (VerifyModeError (PStr "bogus")),
        add_events [Call (load_verify_locations "ca.pem")] initial_world).
Proof.
  split; [|split].
  - eexists. split; [reflexivity|].
    exists "The value of "%string,
           " must be one of: `ssl.CERT_NONE`, `ssl.CERT_OPTIONAL` or `ssl.CERT_REQUIRED"%string.
    reflexivity.
  - do 2 eexists. split; [reflexivity|]. split; reflexivity.
  - reflexivity.
Qed.

(** C3, as the code has it.  [get_ssl_context] uses [cert_reqs] as
    given, without validating it: it never raises the [ValueError] of
    [validate_cert_reqs]; the mode of a context it returns is
    [cert_reqs] itself, or [CERT_REQUIRED] for None; the only
    objection to [cert_reqs] comes from a context class that checks
    its mode, after the client certificate, the CRL and the CA
    material have all been loaded.  A value [validate_cert_reqs]
    returns is not objected to, unless it is a number that is not an
    [int]. *)
Theorem get_ssl_context_takes_cert_reqs_as_given :
  forall (rt : runtime) (args : ssl_args) (w : world),
    (forall msg,
       fst (HaveSSL.get_ssl_context rt args w) <> Raises (ValueError msg))
    /\ (forall ctx,
          fst (HaveSSL.get_ssl_context rt args w) = Returns ctx ->
          verify_mode ctx
          = (if is_None (cert_reqs args) then CERT_REQUIRED
             else cert_reqs args))
    /\ (forall v,
          fst (HaveSSL.get_ssl_context rt args w) = Raises (VerifyModeError v) ->
          v = (if is_None (cert_reqs args) then CERT_REQUIRED
               else cert_reqs args)
          /\ ctx_checks_verify_mode rt = true
          /\ verify_mode_accepted v = false
          /\ cert_step_passes rt args = true
          /\ crl_step_passes rt args = true
          /\ exists ctx3,
               load_ca rt args
                 (after_crl rt args (after_cert args (hardened_context rt)))
                 (add_events (cert_step_events args ++ crl_step_events args) w)
               = (Returns ctx3, snd (HaveSSL.get_ssl_context rt args w)))
    /\ (forall option raw,
          HaveSSL.validate_cert_reqs rt option raw = Returns (cert_reqs args) ->
          (forall q, cert_reqs args <> PFloat q) ->
          forall v,
            fst (HaveSSL.get_ssl_context rt args w)
            <> Raises (VerifyModeError v)).
Proof.
  intros rt args w.
  destruct (HaveSSL.get_ssl_context rt args w) as [r w'] eqn:Hrun. simpl.
  assert (Hmode : forall v, r = Raises (VerifyModeError v) ->
            v = resolved_cert_reqs args
            /\ ctx_checks_verify_mode rt = true
            /\ verify_mode_accepted v = false
            /\ cert_step_passes rt args = true
            /\ crl_step_passes rt args = true
            /\ exists ctx3,
                 load_ca rt args
                   (after_crl rt args (after_cert args (hardened_context rt)))
                   (add_events (cert_step_events args ++ crl_step_events args) w)
                 = (Returns ctx3, w')).
  { intros v Hr. subst r.
    destruct (get_ssl_context_raises rt args w _ w' Hrun)
      as [[(c & Hc) | [Hc | Hc]] | (Hv & H1 & H2 & H3 & H4 & H5)];
      try discriminate.
    inversion Hv. subst v. auto 7. }
  split; [|split; [|split]].
  - intros msg Hr. subst r.
    destruct (get_ssl_context_raises rt args w _ w' Hrun)
      as [[(c & Hc) | [Hc | Hc]] | (Hv & _)]; discriminate.
  - intros ctx Hr. subst r.
    now apply (returned_verify_mode rt args w ctx w').
  - exact Hmode.
  - intros option raw Hval Hfloat v Hr.
    destruct (Hmode v Hr) as (Hv & _ & Hacc & _).
    apply validated_cert_reqs in Hval. subst v.
    unfold resolved_cert_reqs in Hacc.
    destruct Hval as [Hnone | Hin].
    + rewrite Hnone in Hacc. discriminate.
    + destruct (cert_reqs args) as [|b|n|q|s|i]; simpl in *;
        try discriminate; try congruence.
      now apply (Hfloat q).
Qed.

Lemma get_ssl_context_takes_cert_reqs_as_given_witness :
  fst (HaveSSL.get_ssl_context cpython_linux
         (with_ca "ca.pem" (PStr "bogus")) initial_world)
  <> Raises (ValueError (HaveSSL.cert_reqs_message "ssl_cert_reqs")).
Proof.
  apply (get_ssl_context_takes_cert_reqs_as_given cpython_linux
           (with_ca "ca.pem" (PStr "bogus")) initial_world).
Defined.

(** ** C1: validate_cert_reqs *)

(** A string outside the three names is accepted when it names
    another attribute of the ssl module whose value equals one of the
    modes: [ssl.PROTOCOL_SSLv23] is 2, as [ssl.CERT_REQUIRED] is, and
    [ssl.HAS_SNI] is [True], which equals 1.  So is a value which is
    neither None, nor a mode, nor a string, but equals a mode. *)
Lemma validate_cert_reqs_accepts_other_names :
  ~ In "PROTOCOL_SSLv23"%string cert_reqs_names
  /\ HaveSSL.validate_cert_reqs cpython_linux "ssl_cert_reqs"
       (PStr "PROTOCOL_SSLv23") = Returns (PInt 2)
  /\ ~ In "HAS_SNI"%string cert_reqs_names
  /\ HaveSSL.validate_cert_reqs cpython_linux "ssl_cert_reqs"
       (PStr "HAS_SNI") = Returns (PBool true)
  /\ ~ In (PBool true) (PNone :: cert_reqs_values)
  /\ HaveSSL.validate_cert_reqs cpython_linux "ssl_cert_reqs"
       (PBool true) = Returns (PBool true).
Proof.
  repeat split; try reflexivity;
    simpl; intuition discriminate.
Qed.

Lemma ssl_getattr_names rt :
  ssl_getattr rt "CERT_NONE" = Some CERT_NONE
  /\ ssl_getattr rt "CERT_OPTIONAL" = Some CERT_OPTIONAL
  /\ ssl_getattr rt "CERT_REQUIRED" = Some CERT_REQUIRED.
Proof. repeat split. Qed.

Lemma cert_reqs_message_names option :
  InvalidOption option (ValueError (HaveSSL.cert_reqs_message option)).
Proof.
  exists "The value of "%string,
         " must be one of: `ssl.CERT_NONE`, `ssl.CERT_OPTIONAL` or `ssl.CERT_REQUIRED"%string.
  reflexivity.
Qed.

(** C1, as the code has it.  For every value: None is returned
    unchanged; each of the three modes is returned as it is; each of
    the three names is mapped to its mode; a string is accepted
    exactly when it names an attribute of the ssl module whose value
    equals one of the three modes, and that value is returned; a
    value that is neither None nor a string is accepted exactly when
    it equals one of the three modes, and is returned as it is; every
    other value makes the call raise a [ValueError] whose message
    names the option. *)
Theorem validate_cert_reqs_spec :
  forall (rt : runtime) (option : string) (value : pyval),
    HaveSSL.validate_cert_reqs rt option PNone = Returns PNone
    /\ (In value cert_reqs_values ->
        HaveSSL.validate_cert_reqs rt option value = Returns value)
    /\ HaveSSL.validate_cert_reqs rt option (PStr "CERT_NONE")
       = Returns CERT_NONE
    /\ HaveSSL.validate_cert_reqs rt option (PStr "CERT_OPTIONAL")
       = Returns CERT_OPTIONAL
    /\ HaveSSL.validate_cert_reqs rt option (PStr "CERT_REQUIRED")
       = Returns CERT_REQUIRED
    /\ (forall name r,
          HaveSSL.validate_cert_reqs rt option (PStr name) = Returns r
          <-> ssl_getattr rt name = Some r
              /\ py_in r cert_reqs_values = true)
    /\ (is_None value = false -> is_string value = false ->
        forall r,
          HaveSSL.validate_cert_reqs rt option value = Returns r
          <-> r = value /\ py_in value cert_reqs_values = true)
    /\ (forall e,
          HaveSSL.validate_cert_reqs rt option value = Raises e ->
          e = ValueError (HaveSSL.cert_reqs_message option)
          /\ InvalidOption option e).
Proof.
  intros rt option value.
  split; [reflexivity|].
  split.
  { intros [H|[H|[H|[]]]]; subst value; reflexivity. }
  split; [reflexivity|]. split; [reflexivity|]. split; [reflexivity|].
  split.
  { intros name r. unfold HaveSSL.validate_cert_reqs. cbn [is_None].
    destruct (ssl_getattr rt name) as [v|] eqn:Hattr.
    - destruct (py_in v cert_reqs_values) eqn:Hin; split.
      + intros H. inversion H. subst. now split.
      + intros [H _]. inversion H. now subst.
      + discriminate.
      + intros [H Hr]. inversion H. subst. congruence.
    - change (py_in (PStr name) cert_reqs_values) with false.
      split; [discriminate | intros [H _]; discriminate]. }
  split.
  { intros Hn Hs r. unfold HaveSSL.validate_cert_reqs. rewrite Hn.
    destruct value; try discriminate;
      match goal with
      | |- context [py_in ?x cert_reqs_values] =>
          destruct (py_in x cert_reqs_values) eqn:Hin
      end; split;
      try (intros H; inversion H; now auto);
      try (intros [-> H]; congruence);
      try discriminate. }
  intros e. unfold HaveSSL.validate_cert_reqs.
  destruct (is_None value); [discriminate|].
  match goal with
  | |- context [py_in ?x cert_reqs_values] =>
      destruct (py_in x cert_reqs_values)
  end; [discriminate|].
  intros H. inversion H. split; [reflexivity|].
  apply cert_reqs_message_names.
Qed.

Lemma validate_cert_reqs_spec_witness :
  HaveSSL.validate_cert_reqs cpython_linux "ssl_cert_reqs" CERT_OPTIONAL
  = Returns CERT_OPTIONAL.
Proof.
  destruct (validate_cert_reqs_spec cpython_linux "ssl_cert_reqs"
              CERT_OPTIONAL) as (_ & H & _).
  apply H. right. left. reflexivity.
Defined.

(** ** The OS-store cache, one call after another *)

(** With the cache set, the block takes and releases the lock and
    does nothing else. *)
Lemma OSStoreCache_get_cached rt w cf :
  _WINCERTS w = Some cf ->
  OSStoreCache_get rt w = (Returns tt, add_events [AcquireLock; ReleaseLock] w).
Proof.
  intros Hw. unfold OSStoreCache_get. rewrite with_WINCERTSLOCK_run.
  unfold bind, read_WINCERTS. simpl. rewrite Hw. simpl.
  now rewrite add_events_app.
Qed.

(** With the cache empty and a store that can be read, the block
    reads it once, registers the release and sets the cache. *)
Lemma OSStoreCache_get_first rt w :
  _WINCERTS w = None ->
  raises rt CertFile_new = false ->
  raises rt (addstore "CA") = false ->
  raises rt (addstore "ROOT") = false ->
  OSStoreCache_get rt w
  = (Returns tt,
     {| _WINCERTS := Some {| cf_id := CertFile_count w;
                             cf_stores := ["CA"; "ROOT"]%string |};
        atexit := atexit w ++ [CertFile_count w];
        CertFile_count := S (CertFile_count w);
        trace := trace w ++ [AcquireLock; Call CertFile_new;
                             Call (addstore "CA"); Call (addstore "ROOT");
                             AtexitRegister (CertFile_count w);
                             ReleaseLock] |}).
Proof.
  intros Hw H1 H2 H3. unfold OSStoreCache_get. rewrite with_WINCERTSLOCK_run.
  unfold bind at 1 2. unfold read_WINCERTS at 1 2. simpl. rewrite Hw.
  destruct (load_wincerts_run rt (add_events [AcquireLock] w))
    as [(c & Hin & Hr & _) | (_ & _ & _ & Hrun)].
  - exfalso. simpl in Hin. destruct Hin as [<-|[<-|[<-|[]]]]; congruence.
  - rewrite Hrun. unfold add_events. simpl. f_equal. f_equal.
    now rewrite <- !app_assoc.
Qed.

Lemma load_wincerts_fails rt w e w' :
  HaveSSL._load_wincerts rt w = (Raises e, w') ->
  _WINCERTS w' = _WINCERTS w
  /\ atexit w' = atexit w
  /\ ((e = LibraryError CertFile_new /\ raises rt CertFile_new = true
       /\ CertFile_count w' = CertFile_count w
       /\ trace w' = trace w ++ [Call CertFile_new])
      \/ (e = LibraryError (addstore "CA") /\ raises rt (addstore "CA") = true
          /\ CertFile_count w' = S (CertFile_count w)
          /\ trace w' = trace w ++ [Call CertFile_new; Call (addstore "CA")])
      \/ (e = LibraryError (addstore "ROOT")
          /\ raises rt (addstore "ROOT") = true
          /\ CertFile_count w' = S (CertFile_count w)
          /\ trace w' = trace w ++ [Call CertFile_new; Call (addstore "CA");
                                    Call (addstore "ROOT")])).
Proof.
  unfold HaveSSL._load_wincerts, new_CertFile, cf_addstore, atexit_register,
    write_WINCERTS, bind. rewrite !call_run.
  destruct (raises rt CertFile_new) eqn:H1.
  { intros H. inversion H. simpl. auto 8. }
  simpl. rewrite !call_run.
  destruct (raises rt (addstore "CA")) eqn:H2.
  { intros H. inversion H. simpl. rewrite <- app_assoc. auto 10. }
  simpl. rewrite !call_run.
  destruct (raises rt (addstore "ROOT")) eqn:H3.
  { intros H. inversion H. simpl. rewrite <- !app_assoc. auto 12. }
  discriminate.
Qed.

Lemma OSStoreCache_get_fails rt w e w' :
  OSStoreCache_get rt w = (Raises e, w') ->
  _WINCERTS w = None
  /\ exists w1,
       HaveSSL._load_wincerts rt (add_events [AcquireLock] w) = (Raises e, w1)
       /\ w' = add_events [ReleaseLock] w1.
Proof.
  intros H.
  unfold OSStoreCache_get in H. rewrite with_WINCERTSLOCK_run in H.
  unfold bind at 1 2 in H. unfold read_WINCERTS at 1 2 in H. simpl in H.
  destruct (_WINCERTS w) as [cf|] eqn:Hw; [discriminate|].
  destruct (HaveSSL._load_wincerts rt (add_events [AcquireLock] w))
    as [[u|e1] w1] eqn:E; simpl in H; [discriminate|].
  inversion H. subst e1 w'. split; [reflexivity|]. now exists w1.
Qed.

Lemma OSStoreCache_get_raises_library rt w e w' :
  OSStoreCache_get rt w = (Raises e, w') ->
  exists c, raises rt c = true /\ e = LibraryError c.
Proof.
  intros H. destruct (OSStoreCache_get_fails rt w e w' H) as (_ & w1 & E & _).
  destruct (load_wincerts_fails rt _ e w1 E)
    as (_ & _ & [(-> & Hr & _) | [(-> & Hr & _) | (-> & Hr & _)]]); eauto.
Qed.

(** ** The step that uses the OS store, case by case *)

(** With the cache empty and a store that cannot be read, the block
    stops at the first call that raises and releases the lock. *)
Lemma OSStoreCache_get_unreadable rt w :
  _WINCERTS w = None ->
  (raises rt CertFile_new = true ->
   exists w',
     OSStoreCache_get rt w = (Raises (LibraryError CertFile_new), w')
     /\ trace w' = trace w ++ [AcquireLock; Call CertFile_new; ReleaseLock])
  /\ (raises rt CertFile_new = false -> raises rt (addstore "CA") = true ->
      exists w',
        OSStoreCache_get rt w = (Raises (LibraryError (addstore "CA")), w')
        /\ trace w' = trace w ++ [AcquireLock; Call CertFile_new;
                                  Call (addstore "CA"); ReleaseLock])
  /\ (raises rt CertFile_new = false -> raises rt (addstore "CA") = false ->
      raises rt (addstore "ROOT") = true ->
      exists w',
        OSStoreCache_get rt w = (Raises (LibraryError (addstore "ROOT")), w')
        /\ trace w' = trace w ++ [AcquireLock; Call CertFile_new;
                                  Call (addstore "CA"); Call (addstore "ROOT");
                                  ReleaseLock]).
Proof.
  intros Hw. destruct w as [wc ax cnt tr]. simpl in Hw. subst wc.
  split; [|split].
  - intros H1. eexists. split.
    + cbv -[raises app]. rewrite H1. reflexivity.
    + simpl. rewrite <- ?app_assoc. reflexivity.
  - intros H1 H2. eexists. split.
    + cbv -[raises app]. rewrite H1, H2. reflexivity.
    + simpl. rewrite <- ?app_assoc. reflexivity.
  - intros H1 H2 H3. eexists. split.
    + cbv -[raises app]. rewrite H1, H2, H3. reflexivity.
    + simpl. rewrite <- ?app_assoc. reflexivity.
Qed.

Lemma OS_store_cached rt ctx w cf :
  _WINCERTS w = Some cf ->
  (OSStoreCache_get rt ;;; load_wincerts_file rt ctx) w
  = (if raises rt (load_verify_locations (CertFile_name rt (cf_id cf)))
     then Raises (LibraryError
                    (load_verify_locations (CertFile_name rt (cf_id cf))))
     else Returns (loaded_verify_locations ctx (CertFile_name rt (cf_id cf))),
     add_events
       [AcquireLock; ReleaseLock;
        Call (load_verify_locations (CertFile_name rt (cf_id cf)))] w).
Proof.
  intros Hw. unfold bind at 1. rewrite (OSStoreCache_get_cached rt w cf Hw).
  unfold load_wincerts_file, bind at 1, read_WINCERTS.
  replace (_WINCERTS (add_events [AcquireLock; ReleaseLock] w))
    with (Some cf) by (symmetry; exact Hw).
  rewrite load_verify_locations_run. f_equal.
  unfold add_events. simpl. f_equal. now rewrite <- !app_assoc.
Qed.

Lemma OS_store_first rt ctx w :
  _WINCERTS w = None ->
  raises rt CertFile_new = false ->
  raises rt (addstore "CA") = false ->
  raises rt (addstore "ROOT") = false ->
  (OSStoreCache_get rt ;;; load_wincerts_file rt ctx) w
  = (if raises rt (load_verify_locations (CertFile_name rt (CertFile_count w)))
     then Raises (LibraryError
                    (load_verify_locations
                       (CertFile_name rt (CertFile_count w))))
     else Returns (loaded_verify_locations ctx
                     (CertFile_name rt (CertFile_count w))),
     {| _WINCERTS := Some {| cf_id := CertFile_count w;
                             cf_stores := ["CA"; "ROOT"]%string |};
        atexit := atexit w ++ [CertFile_count w];
        CertFile_count := S (CertFile_count w);
        trace := trace w
                 ++ [AcquireLock; Call CertFile_new;
                     Call (addstore "CA"); Call (addstore "ROOT");
                     AtexitRegister (CertFile_count w); ReleaseLock;
                     Call (load_verify_locations
                             (CertFile_name rt (CertFile_count w)))] |}).
Proof.
  intros Hw F1 F2 F3. unfold bind at 1.
  rewrite (OSStoreCache_get_first rt w Hw F1 F2 F3).
  unfold load_wincerts_file, bind at 1, read_WINCERTS.
  cbn [_WINCERTS cf_id]. rewrite load_verify_locations_run. f_equal.
  unfold add_events. simpl. f_equal. now rewrite <- !app_assoc.
Qed.

(** ** C2: the order of the resolution chain *)



(** ** A cache that is set stays as it is *)

Lemma cache_stable_ret {A} (a : A) : cache_stable (ret a).
Proof.
  intros w cf Hw. simpl. repeat split; auto.
  exists []. now rewrite app_nil_r.
Qed.

Lemma cache_stable_raise {A} (e : exn) : cache_stable (@raise A e).
Proof.
  intros w cf Hw. simpl. repeat split; auto.
  exists []. now rewrite app_nil_r.
Qed.

Lemma cache_stable_bind {A B} (m : M A) (k : A -> M B) :
  cache_stable m -> (forall a, cache_stable (k a)) -> cache_stable (bind m k).
Proof.
  intros Hm Hk w cf Hw. unfold bind.
  destruct (Hm w cf Hw) as (H1 & H2 & H3 & evs & Ht & HP).
  destruct (m w) as [[a|e] w1]; simpl in *.
  - destruct (Hk a w1 cf H1) as (K1 & K2 & K3 & evs2 & Ht2 & HP2).
    repeat split; try congruence.
    exists (evs ++ evs2). split.
    + now rewrite Ht2, Ht, app_assoc.
    + apply Forall_app. now split.
  - repeat split; auto. now exists evs.
Qed.

Lemma cache_stable_method rt c {A} (a : A) :
  Threads.is_store_event (Call c) = false ->
  cache_stable (call rt c ;;; ret a).
Proof.
  intros Hc w cf Hw. unfold bind. rewrite call_run.
  assert (Hev : exists evs,
            trace (add_events [Call c] w) = trace w ++ evs
            /\ Forall (fun e => Threads.is_store_event e = false) evs).
  { exists [Call c]. split; [reflexivity | now constructor]. }
  destruct (raises rt c); simpl; repeat split; auto.
Qed.

Lemma cache_stable_resolve_ca rt ctx : cache_stable (resolve_ca rt ctx).
Proof.
  unfold resolve_ca.
  destruct (ctx_has_load_default_certs rt).
  { now apply cache_stable_method. }
  destruct (negb (String.eqb (sys_platform rt) "win32")
            && ctx_has_set_default_verify_paths rt).
  { now apply cache_stable_method. }
  destruct (String.eqb (sys_platform rt) "win32" && HAVE_WINCERTSTORE rt).
  { apply cache_stable_bind.
    - intros w cf Hw. rewrite (OSStoreCache_get_cached rt w cf Hw). simpl.
      repeat split; auto.
      exists [AcquireLock; ReleaseLock]. split; [reflexivity|].
      now repeat constructor.
    - intros _. unfold load_wincerts_file. apply cache_stable_bind.
      + intros w cf Hw. simpl. repeat split; auto.
        exists []. now rewrite app_nil_r.
      + intros [cf|]; [now apply cache_stable_method | apply cache_stable_raise]. }
  destruct (HAVE_CERTIFI rt).
  { apply cache_stable_bind.
    - intros w cf Hw. simpl. repeat split; auto.
      exists [CertifiWhere]. split; [reflexivity | now constructor].
    - intros b. now apply cache_stable_method. }
  apply cache_stable_raise.
Qed.

Lemma cache_stable_get_ssl_context rt args :
  cache_stable (HaveSSL.get_ssl_context rt args).
Proof.
  rewrite get_ssl_context_statements.
  apply cache_stable_bind.
  { unfold load_client_cert. destruct (certfile args).
    - now apply cache_stable_method.
    - apply cache_stable_ret. }
  intros c1. apply cache_stable_bind.
  { unfold load_crl. destruct (crlfile args).
    - destruct (negb (ctx_has_verify_flags rt)).
      + apply cache_stable_raise.
      + now apply cache_stable_method.
    - apply cache_stable_ret. }
  intros c2. apply cache_stable_bind.
  { unfold load_ca. destruct (ca_certs args).
    - now apply cache_stable_method.
    - destruct (py_ne (cert_reqs args) CERT_NONE).
      + apply cache_stable_resolve_ca.
      + apply cache_stable_ret. }
  intros c3. unfold assign_verify_mode, set_verify_mode.
  destruct (ctx_checks_verify_mode rt && _);
    [apply cache_stable_raise | apply cache_stable_ret].
Qed.

Lemma reaches_OS_store rt args w :
  CAResolutionChain rt = Some OSStore ->
  ca_certs args = None ->
  py_ne (cert_reqs args) CERT_NONE = true ->
  cert_step_passes rt args = true ->
  crl_step_passes rt args = true ->
  snd (HaveSSL.get_ssl_context rt args w)
  = snd ((OSStoreCache_get rt ;;;
          load_wincerts_file rt
            (after_crl rt args (after_cert args (hardened_context rt))))
           (add_events (cert_step_events args ++ crl_step_events args) w)).
Proof.
  intros Hchain Hca Hne Hcert Hcrl.
  rewrite (reaches_load_ca rt args w Hcert Hcrl), then_assign_world.
  unfold load_ca. rewrite Hca, Hne. unfold resolve_ca.
  unfold CAResolutionChain in Hchain.
  destruct (ctx_has_load_default_certs rt); [discriminate|].
  destruct (negb (String.eqb (sys_platform rt) "win32")
            && ctx_has_set_default_verify_paths rt); [discriminate|].
  destruct (String.eqb (sys_platform rt) "win32" && HAVE_WINCERTSTORE rt);
    [reflexivity|].
  destruct (HAVE_CERTIFI rt); discriminate.
Qed.

(** ** One call after another *)

Lemma calls_keep_cache rt l w cf :
  _WINCERTS w = Some cf ->
  _WINCERTS (calls rt l w) = Some cf
  /\ atexit (calls rt l w) = atexit w
  /\ CertFile_count (calls rt l w) = CertFile_count w
  /\ exists evs,
       trace (calls rt l w) = trace w ++ evs
       /\ Forall (fun e => Threads.is_store_event e = false) evs.
Proof.
  revert w. induction l as [|args l IH]; intros w Hw; simpl.
  - repeat split; auto. exists []. split; [now rewrite app_nil_r | constructor].
  - destruct (cache_stable_get_ssl_context rt args w cf Hw)
      as (H1 & H2 & H3 & evs & Ht & HP).
    destruct (IH _ H1) as (K1 & K2 & K3 & evs2 & Kt & KP).
    repeat split; try congruence.
    exists (evs ++ evs2). split.
    + now rewrite Kt, Ht, app_assoc.
    + apply Forall_app. now split.
Qed.

Lemma first_call_reads_the_store rt args w :
  CAResolutionChain rt = Some OSStore ->
  ca_certs args = None ->
  py_ne (cert_reqs args) CERT_NONE = true ->
  cert_step_passes rt args = true ->
  crl_step_passes rt args = true ->
  Threads.no_store_failure rt ->
  _WINCERTS w = None ->
  snd (HaveSSL.get_ssl_context rt args w)
  = {| _WINCERTS := Some (Threads.fresh_handle w);
       atexit := atexit w ++ [CertFile_count w];
       CertFile_count := S (CertFile_count w);
       trace := trace w
                ++ (cert_step_events args ++ crl_step_events args)
                ++ [AcquireLock; Call CertFile_new;
                    Call (addstore "CA"); Call (addstore "ROOT");
                    AtexitRegister (CertFile_count w); ReleaseLock;
                    Call (load_verify_locations
                            (CertFile_name rt (CertFile_count w)))] |}.
Proof.
  intros Hchain Hca Hne Hcert Hcrl (F1 & F2 & F3) Hw.
  rewrite (reaches_OS_store rt args w Hchain Hca Hne Hcert Hcrl).
  set (w1 := add_events (cert_step_events args ++ crl_step_events args) w).
  assert (Hw1 : _WINCERTS w1 = None) by exact Hw.
  rewrite (OS_store_first rt _ w1 Hw1 F1 F2 F3).
  unfold w1, add_events, Threads.fresh_handle. simpl. f_equal.
  now rewrite <- !app_assoc.
Qed.

Lemma no_store_event_counts evs :
  Forall (fun e => Threads.is_store_event e = false) evs ->
  filter Threads.is_store_load evs = []
  /\ filter Threads.is_registration evs = [].
Proof.
  induction 1 as [|e evs He _ [IH1 IH2]]; [now split|].
  simpl. destruct e as [[]| | | |]; simpl in *; try discriminate; now split.
Qed.

Lemma earlier_steps_counts args :
  filter Threads.is_store_load (cert_step_events args ++ crl_step_events args)
  = []
  /\ filter Threads.is_registration
       (cert_step_events args ++ crl_step_events args) = [].
Proof.
  unfold cert_step_events, crl_step_events.
  destruct (certfile args), (crlfile args); now split.
Qed.

(** Calls made one after the other, the first of which reaches the
    step of the OS store with the cache empty and a store that can be
    read: the store is read once, by the first. *)
Lemma sequential_calls_load_once rt args rest w :
  CAResolutionChain rt = Some OSStore ->
  ca_certs args = None ->
  py_ne (cert_reqs args) CERT_NONE = true ->
  cert_step_passes rt args = true ->
  crl_step_passes rt args = true ->
  Threads.no_store_failure rt ->
  _WINCERTS w = None ->
  Threads.store_loads (new_events w (calls rt (args :: rest) w)) = 1%nat
  /\ Threads.registrations (new_events w (calls rt (args :: rest) w)) = 1%nat
  /\ _WINCERTS (calls rt (args :: rest) w) = Some (Threads.fresh_handle w)
  /\ atexit (calls rt (args :: rest) w) = atexit w ++ [CertFile_count w].
Proof.
  intros Hchain Hca Hne Hcert Hcrl Hnf Hw. simpl calls.
  assert (H1 := first_call_reads_the_store rt args w
                  Hchain Hca Hne Hcert Hcrl Hnf Hw).
  set (w1 := snd (HaveSSL.get_ssl_context rt args w)) in *.
  assert (Hc1 : _WINCERTS w1 = Some (Threads.fresh_handle w))
    by (now rewrite H1).
  destruct (calls_keep_cache rt rest w1 _ Hc1)
    as (K1 & K2 & _ & evs & Kt & KP).
  destruct (no_store_event_counts evs KP) as [L1 L2].
  destruct (earlier_steps_counts args) as [E1 E2].
  assert (Hev : new_events w (calls rt rest w1)
                = (cert_step_events args ++ crl_step_events args)
                  ++ [AcquireLock; Call CertFile_new;
                      Call (addstore "CA"); Call (addstore "ROOT");
                      AtexitRegister (CertFile_count w); ReleaseLock;
                      Call (load_verify_locations
                              (CertFile_name rt (CertFile_count w)))]
                  ++ evs).
  { apply new_events_app. rewrite Kt, H1. simpl.
    now rewrite <- !app_assoc. }
  unfold Threads.store_loads, Threads.registrations. rewrite Hev.
  split; [rewrite filter_app, E1, filter_app, L1; reflexivity|].
  split; [rewrite filter_app, E2, filter_app, L2; reflexivity|].
  split; [assumption|]. now rewrite K2, H1.
Qed.

(** * The OS-store cache under concurrent callers (C9)

    Lines 125-128 of [get_ssl_context], with the body of
    [_load_wincerts] (lines 74-79), run by several threads at once.
    Each thread goes through the statements in order; a step of the
    system is one statement of one thread, built from the same
    operations on the world as the sequential code; a thread takes
    [_WINCERTSLOCK] only while no thread holds it. *)

Section Callers.

Import Threads.
Local Open Scope nat_scope.

(** *** One thread alone is the sequential code *)

Lemma solo_is_sequential (rt : runtime) (ctx : SSLContext) (w : world) :
  let '(p, o, w') := solo rt 10 AtLock None w in
  o = None
  /\ outcome_of ctx rt p
     = Some (fst (bind (OSStoreCache_get rt)
                       (fun _ => load_wincerts_file rt ctx) w))
  /\ w' = snd (bind (OSStoreCache_get rt)
                    (fun _ => load_wincerts_file rt ctx) w).
Proof.
  destruct w as [wc ax cnt tr].
  destruct wc as [cf|]; cbv -[raises CertFile_name app];
    repeat (match goal with
            | |- context [raises rt ?c] => destruct (raises rt c)
            end; cbv -[raises CertFile_name app]);
    auto.
Qed.

(** *** Lists of threads *)

Lemma update_length i p l : length (update i p l) = length l.
Proof.
  revert i. induction l as [|q l IH]; intros [|i]; simpl; auto.
Qed.

Lemma nth_error_update i p l j q :
  nth_error (update i p l) j = Some q ->
  (j = i /\ q = p /\ nth_error l i <> None)
  \/ (j <> i /\ nth_error l j = Some q).
Proof.
  revert i j. induction l as [|a l IH]; intros i j H.
  - destruct i, j; discriminate.
  - destruct i as [|i], j as [|j]; simpl in H.
    + inversion H. left. repeat split. discriminate.
    + right. split; [discriminate | assumption].
    + right. split; [discriminate | assumption].
    + destruct (IH i j H) as [(-> & -> & Hn) | (Hn & Hq)].
      * left. auto.
      * right. split; [congruence | assumption].
Qed.

Lemma nth_error_update_same i p l q :
  nth_error l i = Some q -> nth_error (update i p l) i = Some p.
Proof.
  revert i. induction l as [|a l IH]; intros [|i]; simpl; intros H;
    try discriminate; auto.
Qed.

Lemma nth_error_update_other i p l j :
  j <> i -> nth_error (update i p l) j = nth_error l j.
Proof.
  revert i j. induction l as [|a l IH]; intros [|i] [|j] H; simpl; auto;
    try congruence.
Qed.

(** *** What is observed of the store *)

(** *** The invariant *)

Section Invariant.

Variable rt : runtime.
Variable w0 : world.

Local Abbreviation seen := (Threads.seen w0).
Local Abbreviation partial_handle := (Threads.partial_handle w0).
Local Abbreviation thread_inv := (Threads.thread_inv w0).
Local Abbreviation Inv := (Threads.Inv w0).
Local Abbreviation inv_lock := (Threads.inv_lock w0).
Local Abbreviation inv_threads := (Threads.inv_threads w0).
Local Abbreviation inv_trace := (Threads.inv_trace w0).
Local Abbreviation inv_empty := (Threads.inv_empty w0).
Local Abbreviation inv_cached := (Threads.inv_cached w0).

(** **** The lock *)

Lemma lock_acquire l i p p' :
  lock_inv l None -> nth_error l i = Some p -> critical p' = true ->
  lock_inv (update i p' l) (Some i).
Proof.
  intros Hfree Hnth Hc. split.
  - exists p'. split; [|assumption]. eapply nth_error_update_same; eauto.
  - intros j q Hq Hcq.
    destruct (nth_error_update _ _ _ _ _ Hq) as [(-> & _) | (_ & Hold)].
    + reflexivity.
    + rewrite (Hfree j q Hold) in Hcq. discriminate.
Qed.

Lemma lock_keep l o i p p' :
  lock_inv l o -> nth_error l i = Some p -> critical p' = critical p ->
  lock_inv (update i p' l) o.
Proof.
  intros Hl Hnth Hc. destruct o as [j|]; simpl in *.
  - destruct Hl as [(pj & Hj & Hcj) Huniq]. split.
    + destruct (Nat.eq_dec j i) as [->|Hne].
      * exists p'. split; [eapply nth_error_update_same; eauto|].
        rewrite Hc. congruence.
      * exists pj. split; [|assumption].
        now rewrite nth_error_update_other.
    + intros k q Hq Hcq.
      destruct (nth_error_update _ _ _ _ _ Hq) as [(-> & -> & _) | (_ & Hold)].
      * apply (Huniq i p Hnth). congruence.
      * now apply (Huniq k q).
  - intros k q Hq.
    destruct (nth_error_update _ _ _ _ _ Hq) as [(-> & -> & _) | (_ & Hold)].
    + rewrite Hc. now apply (Hl i p).
    + now apply (Hl k q).
Qed.

Lemma lock_release l o i p p' :
  lock_inv l o -> nth_error l i = Some p ->
  critical p = true -> critical p' = false ->
  lock_inv (update i p' l) None.
Proof.
  intros Hl Hnth Hc Hc' k q Hq.
  destruct (nth_error_update _ _ _ _ _ Hq) as [(-> & -> & _) | (Hne & Hold)].
  - assumption.
  - destruct o as [j|]; simpl in Hl.
    + destruct Hl as [_ Huniq].
      destruct (critical q) eqn:Hcq; [|reflexivity].
      exfalso. apply Hne.
      rewrite (Huniq k q Hold Hcq). symmetry. now apply (Huniq i p).
    + now apply (Hl k q).
Qed.

(** The thread inside the block is the only one there. *)
Lemma lock_holder l o i p :
  lock_inv l o -> nth_error l i = Some p -> critical p = true ->
  o = Some i
  /\ forall j q, nth_error l j = Some q -> j <> i -> critical q = false.
Proof.
  intros Hl Hnth Hc. destruct o as [j|]; simpl in Hl.
  - destruct Hl as [_ Huniq]. rewrite <- (Huniq i p Hnth Hc). split; [reflexivity|].
    intros k q Hq Hne. destruct (critical q) eqn:Hcq; [|reflexivity].
    exfalso. apply Hne. rewrite (Huniq k q Hq Hcq). symmetry.
    now apply (Huniq i p).
  - rewrite (Hl i p Hnth) in Hc. discriminate.
Qed.

(** **** Steps that leave the store alone *)

Lemma quiet_refl w : quiet w w.
Proof. repeat split. exists []. now rewrite app_nil_r. Qed.

Lemma quiet_log w e :
  is_store_event e = false -> quiet w (snd (log e w)).
Proof.
  intros He. repeat split. exists [e]. simpl. unfold store_events. simpl.
  now rewrite He.
Qed.

Lemma seen_app w w' evs es :
  trace w = trace w0 ++ evs -> trace w' = trace w ++ es ->
  seen w' = seen w ++ store_events es.
Proof.
  intros Hw Hw'. unfold seen, store_events.
  rewrite (new_events_app w0 w evs Hw).
  rewrite (new_events_app w0 w' (evs ++ es)).
  - apply filter_app.
  - rewrite Hw', Hw. now rewrite app_assoc.
Qed.

Lemma quiet_seen w w' :
  (exists evs, trace w = trace w0 ++ evs) -> quiet w w' -> seen w' = seen w.
Proof.
  intros (evs & Hw) (_ & _ & _ & es & Hes & Hq).
  rewrite (seen_app w w' evs es Hw Hes), Hq. apply app_nil_r.
Qed.

Lemma quiet_trace w w' :
  (exists evs, trace w = trace w0 ++ evs) -> quiet w w' ->
  exists evs, trace w' = trace w0 ++ evs.
Proof.
  intros (evs & Hw) (_ & _ & _ & es & Hes & _).
  exists (evs ++ es). rewrite Hes, Hw. now rewrite app_assoc.
Qed.

Lemma quiet_thread_inv w w' p :
  (exists evs, trace w = trace w0 ++ evs) -> quiet w w' ->
  thread_inv w p -> thread_inv w' p.
Proof.
  intros Ht Hq. assert (Hs := quiet_seen w w' Ht Hq).
  destruct Hq as (Hwc & Hax & _ & _).
  destruct p as [| | | | | | |[e|]| | | |]; simpl;
    rewrite ?Hwc, ?Hs, ?Hax; auto.
Qed.

(** A thread that is not in the block, in a world with an empty
    cache, has not yet taken the lock. *)
Lemma waiting_thread w q :
  critical q = false -> _WINCERTS w = None -> thread_inv w q -> q = AtLock.
Proof.
  intros Hc Hw. destruct q; simpl in *; try discriminate; try congruence.
  intros []. 
Qed.

(** A step that leaves the store alone, by a thread that is not
    loading before or after it. *)
Lemma inv_quiet_step c i p p' o' w' :
  Inv c -> nth_error (threads c) i = Some p ->
  quiet (shared c) w' ->
  loading p = false -> loading p' = false ->
  thread_inv w' p' ->
  lock_inv (update i p' (threads c)) o' ->
  Inv {| threads := update i p' (threads c); owner := o'; shared := w' |}.
Proof.
  intros HI Hnth Hq Hl Hl' Hp' Hlock.
  assert (Hs := quiet_seen _ _ (inv_trace c HI) Hq).
  assert (Hloading :
            (forall j q, nth_error (update i p' (threads c)) j = Some q ->
                         loading q = false) ->
            forall j q, nth_error (threads c) j = Some q -> loading q = false).
  { intros H j q Hjq. destruct (Nat.eq_dec j i) as [->|Hne].
    - congruence.
    - apply (H j). now rewrite nth_error_update_other. }
  destruct Hq as (Hwc & Hax & Hcnt & Hes).
  constructor; simpl.
  - assumption.
  - intros j q Hjq.
    destruct (nth_error_update _ _ _ _ _ Hjq) as [(-> & -> & _) | (_ & Hold)].
    + assumption.
    + apply (quiet_thread_inv (shared c) w' q (inv_trace c HI)).
      * repeat split; assumption.
      * now apply (inv_threads c HI j).
  - apply (quiet_trace (shared c) w' (inv_trace c HI)).
    repeat split; assumption.
  - rewrite Hwc, Hs, Hax, Hcnt. intros Hnone.
    destruct (inv_empty c HI Hnone) as [H0 H]. split; [assumption|].
    intros Hall. apply H. now apply Hloading.
  - rewrite Hwc, Hs, Hax. apply (inv_cached c HI).
Qed.

(** **** Steps of the load *)

Lemma loading_critical p : loading p = true -> critical p = true.
Proof. destruct p; simpl; auto; discriminate. Qed.

Lemma inv_store_step c i p p' w' :
  Inv c -> nth_error (threads c) i = Some p ->
  critical p = true -> critical p' = true ->
  _WINCERTS (shared c) = None ->
  (exists es, trace w' = trace (shared c) ++ es) ->
  thread_inv w' p' ->
  (_WINCERTS w' = None -> loading p' = true) ->
  (forall cf, _WINCERTS w' = Some cf ->
     cf = fresh_handle w0 /\ seen w' = the_load w0
     /\ atexit w' = atexit w0 ++ [CertFile_count w0]) ->
  Inv {| threads := update i p' (threads c); owner := owner c; shared := w' |}.
Proof.
  intros HI Hnth Hc Hc' Hnone (es & Hes) Hp' Hload Hcached.
  destruct (lock_holder _ _ _ _ (inv_lock c HI) Hnth Hc) as [_ Hothers].
  destruct (inv_empty c HI Hnone) as [H0 _].
  constructor; simpl.
  - apply (lock_keep _ _ _ p); [apply (inv_lock c HI) | assumption | congruence].
  - intros j q Hjq.
    destruct (nth_error_update _ _ _ _ _ Hjq) as [(-> & -> & _) | (Hne & Hold)].
    + assumption.
    + rewrite (waiting_thread (shared c) q (Hothers j q Hold Hne) Hnone
                 (inv_threads c HI j q Hold)).
      exact I.
  - destruct (inv_trace c HI) as (evs & Hevs).
    exists (evs ++ es). rewrite Hes, Hevs. now rewrite app_assoc.
  - intros Hw'. split; [assumption|]. intros Hall. exfalso.
    assert (Hl : loading p' = false).
    { apply (Hall i). eapply nth_error_update_same; eauto. }
    rewrite (Hload Hw') in Hl. discriminate.
  - intros cf Hcf. destruct (Hcached cf Hcf) as (-> & Hs & Hax).
    unfold expected_handle, expected_load, expected_atexit. rewrite H0. auto.
Qed.

(** While a thread is at [CertFile()], nothing of the store has been
    observed. *)
Lemma nothing_seen_yet c i p :
  Inv c -> nth_error (threads c) i = Some p ->
  critical p = true -> loading p = false ->
  _WINCERTS (shared c) = None ->
  seen (shared c) = []
  /\ atexit (shared c) = atexit w0
  /\ CertFile_count (shared c) = CertFile_count w0.
Proof.
  intros HI Hnth Hc Hl Hnone.
  destruct (lock_holder _ _ _ _ (inv_lock c HI) Hnth Hc) as [_ Hothers].
  apply (inv_empty c HI Hnone). intros j q Hjq.
  destruct (Nat.eq_dec j i) as [->|Hne].
  - congruence.
  - destruct (loading q) eqn:Hlq; [|reflexivity].
    apply loading_critical in Hlq.
    rewrite (Hothers j q Hjq Hne) in Hlq. discriminate.
Qed.

Hypothesis no_failure : no_store_failure rt.

Lemma new_CertFile_loads w :
  new_CertFile rt w
  = (Returns {| cf_id := CertFile_count w; cf_stores := [] |},
     {| _WINCERTS := _WINCERTS w; atexit := atexit w;
        CertFile_count := S (CertFile_count w);
        trace := trace w ++ [Call CertFile_new] |}).
Proof.
  destruct no_failure as (H & _).
  unfold new_CertFile, bind. rewrite call_run, H. reflexivity.
Qed.

Lemma cf_addstore_loads cf store w :
  store = "CA"%string \/ store = "ROOT"%string ->
  cf_addstore rt cf store w
  = (Returns {| cf_id := cf_id cf; cf_stores := cf_stores cf ++ [store] |},
     add_events [Call (addstore store)] w).
Proof.
  destruct no_failure as (_ & H1 & H2).
  intros Hs. unfold cf_addstore, bind. rewrite call_run.
  destruct Hs as [-> | ->]; [rewrite H1 | rewrite H2]; reflexivity.
Qed.

(** **** The invariant is kept *)

Lemma step_preserves_inv c c' : Inv c -> step rt c c' -> Inv c'.
Proof.
  intros HI Hs. destruct Hs as [i p p' o' w' Hnth Hts].
  assert (Hp := inv_threads c HI i p Hnth).
  assert (Htr := inv_trace c HI).
  assert (Hlock := inv_lock c HI).
  destruct p as [| | |cf|cf|cf|cf|[e|]| |cf|cf r|e]; simpl in Hts, Hp.
  - (* AtLock *)
    destruct (owner c) eqn:Ho; [discriminate|]. inversion Hts; subst.
    apply (inv_quiet_step c i AtLock _ _ _ HI Hnth);
      [ now apply quiet_log | reflexivity | reflexivity | exact I
      | now apply (lock_acquire _ _ AtLock) ].
  - (* AtTest *)
    destruct (_WINCERTS (shared c)) as [cf|] eqn:Hw;
      inversion Hts; subst;
      apply (inv_quiet_step c i AtTest _ _ _ HI Hnth);
      [ apply quiet_refl | reflexivity | reflexivity | simpl; congruence
      | now apply (lock_keep _ _ _ AtTest)
      | apply quiet_refl | reflexivity | reflexivity | assumption
      | now apply (lock_keep _ _ _ AtTest) ].
  - (* AtCertFile *)
    rewrite new_CertFile_loads in Hts. inversion Hts; subst. clear Hts.
    destruct (nothing_seen_yet c i AtCertFile HI Hnth eq_refl eq_refl Hp)
      as (Hs & Hax & Hcnt).
    apply (inv_store_step c i _ _ _ HI Hnth);
      [ reflexivity | reflexivity | assumption
      | eexists; reflexivity | | reflexivity
      | simpl; intros ? Hcf; congruence ].
    destruct Htr as (evs & Hevs). simpl. repeat split; auto.
    + rewrite (seen_app (shared c) _ evs [Call CertFile_new] Hevs) by reflexivity.
      now rewrite Hs.
    + unfold partial_handle. now rewrite Hcnt.
  - (* AtAddCA *)
    destruct Hp as (Hw & Hs & -> & Hax).
    rewrite cf_addstore_loads in Hts by auto. inversion Hts; subst. clear Hts.
    apply (inv_store_step c i _ _ _ HI Hnth);
      [ reflexivity | reflexivity | assumption
      | eexists; reflexivity | | reflexivity
      | simpl; intros ? Hcf; congruence ].
    destruct Htr as (evs & Hevs). simpl. repeat split; auto.
    rewrite (seen_app (shared c) _ evs [Call (addstore "CA")] Hevs) by reflexivity.
    now rewrite Hs.
  - (* AtAddROOT *)
    destruct Hp as (Hw & Hs & -> & Hax).
    rewrite cf_addstore_loads in Hts by auto. inversion Hts; subst. clear Hts.
    apply (inv_store_step c i _ _ _ HI Hnth);
      [ reflexivity | reflexivity | assumption
      | eexists; reflexivity | | reflexivity
      | simpl; intros ? Hcf; congruence ].
    destruct Htr as (evs & Hevs). simpl. repeat split; auto.
    rewrite (seen_app (shared c) _ evs [Call (addstore "ROOT")] Hevs) by reflexivity.
    now rewrite Hs.
  - (* AtRegister *)
    destruct Hp as (Hw & Hs & -> & Hax).
    inversion Hts; subst. clear Hts.
    apply (inv_store_step c i _ _ _ HI Hnth);
      [ reflexivity | reflexivity | assumption
      | eexists; reflexivity | | reflexivity
      | simpl; intros ? Hcf; congruence ].
    destruct Htr as (evs & Hevs). simpl. repeat split; auto.
    + rewrite (seen_app (shared c) _ evs [AtexitRegister (CertFile_count w0)] Hevs) by reflexivity.
      now rewrite Hs.
    + now rewrite Hax.
  - (* AtStore *)
    destruct Hp as (Hw & Hs & -> & Hax).
    inversion Hts; subst. clear Hts.
    assert (Hs' : seen (snd (write_WINCERTS (fresh_handle w0) (shared c)))
                  = the_load w0).
    { destruct Htr as (evs & Hevs).
      rewrite (seen_app (shared c) _ evs [] Hevs).
      - rewrite Hs. apply app_nil_r.
      - simpl. now rewrite app_nil_r. }
    apply (inv_store_step c i _ _ _ HI Hnth);
      [ reflexivity | reflexivity | assumption
      | exists []; simpl; now rewrite app_nil_r
      | simpl; discriminate | simpl; discriminate | ].
    simpl. intros cf Hcf. inversion Hcf. subst. repeat split; auto.
  - (* AtRelease with a pending exception *)
    contradiction.
  - (* AtRelease *)
    inversion Hts; subst. clear Hts.
    apply (inv_quiet_step c i (AtRelease None) _ _ _ HI Hnth);
      [ now apply quiet_log | reflexivity | reflexivity | assumption
      | now apply (lock_release _ (owner c) _ (AtRelease None)) ].
  - (* AtLoad *)
    destruct (_WINCERTS (shared c)) as [cf|] eqn:Hw; [|congruence].
    inversion Hts; subst. clear Hts.
    apply (inv_quiet_step c i AtLoad _ _ _ HI Hnth);
      [ apply quiet_refl | reflexivity | reflexivity | assumption
      | now apply (lock_keep _ _ _ AtLoad) ].
  - (* AtCall *)
    rewrite call_run in Hts.
    assert (Hq : quiet (shared c)
                   (add_events [Call (load_verify_locations
                                        (CertFile_name rt (cf_id cf)))]
                      (shared c))).
    { repeat split. eexists. split; reflexivity. }
    destruct (raises rt _); inversion Hts; subst; clear Hts;
      apply (inv_quiet_step c i (AtCall cf) _ _ _ HI Hnth);
      [ assumption | reflexivity | reflexivity | assumption
      | now apply (lock_keep _ _ _ (AtCall cf))
      | assumption | reflexivity | reflexivity | assumption
      | now apply (lock_keep _ _ _ (AtCall cf)) ].
  - discriminate.
  - discriminate.
Qed.

End Invariant.

(** *** What the invariant gives *)

Lemma inv_initial (w0 : world) (n : nat) : Inv w0 (initial_config n w0).
Proof.
  assert (Hth : forall i p, nth_error (repeat AtLock n) i = Some p -> p = AtLock).
  { intros i p H. apply nth_error_In in H. now apply repeat_spec in H. }
  assert (Hseen : seen w0 w0 = []).
  { unfold seen. now rewrite new_events_same. }
  constructor; simpl.
  - intros i p H. now rewrite (Hth i p H).
  - intros i p H. now rewrite (Hth i p H).
  - exists []. now rewrite app_nil_r.
  - intros Hw. split; [assumption|]. intros _. auto.
  - intros cf Hw. unfold expected_handle, expected_load, expected_atexit.
    rewrite Hw. auto.
Qed.

Lemma reachable_inv rt w0 n c :
  no_store_failure rt -> reachable rt (initial_config n w0) c -> Inv w0 c.
Proof.
  intros Hnf Hr. induction Hr as [|c c' _ IH Hs].
  - apply inv_initial.
  - now apply (step_preserves_inv rt w0 Hnf c c').
Qed.

Lemma step_length rt c c' : step rt c c' -> length (threads c') = length (threads c).
Proof. intros [i p p' o' w' _ _]. simpl. apply update_length. Qed.

Lemma reachable_length rt w0 n c :
  reachable rt (initial_config n w0) c -> length (threads c) = n.
Proof.
  intros Hr. induction Hr as [|c c' _ IH Hs].
  - simpl. apply repeat_length.
  - now rewrite (step_length rt c c' Hs).
Qed.

Lemma no_thread_loading l :
  existsb loading l = false ->
  forall i p, nth_error l i = Some p -> loading p = false.
Proof.
  intros H i p Hp. apply nth_error_In in Hp.
  destruct (loading p) eqn:Hl; [|reflexivity].
  assert (Hex : existsb loading l = true) by (apply existsb_exists; eauto).
  congruence.
Qed.

Lemma some_thread_loading l :
  existsb loading l = true ->
  exists i p, nth_error l i = Some p /\ loading p = true.
Proof.
  intros H. apply existsb_exists in H. destruct H as (p & Hin & Hl).
  apply In_nth_error in Hin. destruct Hin as (i & Hi). eauto.
Qed.

(** The store events seen so far are the beginning of the one load. *)
Lemma seen_prefix w0 c :
  Inv w0 c -> exists k, seen w0 (shared c) = firstn k (expected_load w0).
Proof.
  intros HI. destruct (_WINCERTS (shared c)) as [cf|] eqn:Hw.
  - destruct (inv_cached w0 c HI cf Hw) as (_ & Hs & _).
    exists (length (expected_load w0)). now rewrite firstn_all.
  - destruct (inv_empty w0 c HI Hw) as [H0 Hnone].
    unfold expected_load. rewrite H0.
    destruct (existsb loading (threads c)) eqn:Hl.
    + destruct (some_thread_loading _ Hl) as (i & p & Hp & Hlp).
      assert (Hinv := inv_threads w0 c HI i p Hp).
      destruct p; try discriminate; simpl in Hinv;
        destruct Hinv as (_ & Hs & _).
      * now exists 1.
      * now exists 2.
      * now exists 3.
      * now exists 4.
    + exists 0. now apply Hnone, no_thread_loading.
Qed.

Lemma filter_store_load evs :
  filter is_store_load (store_events evs) = filter is_store_load evs.
Proof.
  unfold store_events. induction evs as [|e evs IH]; simpl; [reflexivity|].
  destruct e as [[]| | | |]; simpl; now rewrite ?IH.
Qed.

Lemma filter_registration evs :
  filter is_registration (store_events evs) = filter is_registration evs.
Proof.
  unfold store_events. induction evs as [|e evs IH]; simpl; [reflexivity|].
  destruct e as [[]| | | |]; simpl; now rewrite ?IH.
Qed.

Lemma prefix_counts w0 k evs :
  store_events evs = firstn k (expected_load w0) ->
  store_loads evs <= 1
  /\ registrations evs <= store_loads evs
  /\ (_WINCERTS w0 <> None -> store_loads evs = 0).
Proof.
  intros H. unfold store_loads, registrations.
  rewrite <- filter_store_load, <- filter_registration, H.
  unfold expected_load. destruct (_WINCERTS w0).
  - rewrite firstn_nil. simpl. auto.
  - destruct k as [|[|[|[|k]]]]; simpl; rewrite ?firstn_nil; simpl;
      repeat split; try lia; intros H0; now destruct H0.
Qed.

Lemma full_counts w0 evs :
  store_events evs = expected_load w0 ->
  _WINCERTS w0 = None ->
  store_loads evs = 1 /\ registrations evs = 1.
Proof.
  intros H H0. unfold store_loads, registrations.
  rewrite <- filter_store_load, <- filter_registration, H.
  unfold expected_load. rewrite H0. simpl. auto.
Qed.

(** A thread that has read the cache holds the expected handle. *)
Lemma handle_is_cached w0 c i p cf :
  Inv w0 c -> nth_error (threads c) i = Some p ->
  (p = AtCall cf \/ exists r, p = Done cf r) ->
  cf = expected_handle w0 /\ _WINCERTS (shared c) = Some cf.
Proof.
  intros HI Hp Hcase.
  assert (Hinv := inv_threads w0 c HI i p Hp).
  assert (Hw : _WINCERTS (shared c) = Some cf).
  { destruct Hcase as [-> | (r & ->)]; exact Hinv. }
  split; [|assumption]. now apply (inv_cached w0 c HI cf Hw).
Qed.

(** No thread fails. *)
Lemma finished_is_done w0 c i p :
  Inv w0 c -> nth_error (threads c) i = Some p -> finished p = true ->
  exists r, p = Done (expected_handle w0) r.
Proof.
  intros HI Hp Hf. destruct p; try discriminate.
  - destruct (handle_is_cached w0 c i _ handle HI Hp) as [-> _]; eauto.
  - destruct (inv_threads w0 c HI i _ Hp).
Qed.

(** **** The callers do finish *)

Ltac case_step :=
  repeat match goal with
         | |- context [match ?x with _ => _ end] => destruct x
         | H : context [match ?x with _ => _ end] |- _ => destruct x
         end.

Lemma can_step rt i p w :
  finished p = false -> p <> AtLock ->
  exists r, thread_step rt i p (Some i) w = Some r.
Proof.
  intros Hf Hl. destruct p; simpl in *; try discriminate; try congruence;
    case_step; eexists; reflexivity.
Qed.

Lemma unfinished_thread l :
  forallb finished l = false ->
  exists i p, nth_error l i = Some p /\ finished p = false.
Proof.
  induction l as [|q l IH]; simpl; [discriminate|].
  destruct (finished q) eqn:Hq; simpl.
  - intros H. destruct (IH H) as (i & p & Hp & Hf). now exists (S i), p.
  - intros _. now exists 0%nat, q.
Qed.

Lemma thread_can_run rt c i p :
  nth_error (threads c) i = Some p ->
  (exists r, thread_step rt i p (owner c) (shared c) = Some r) ->
  exists c', step rt c c'.
Proof.
  intros Hp ([[p' o'] w'] & Hts). eexists. now apply (step_thread rt c i p p' o' w').
Qed.

(** While a caller has not finished, some caller can take a step:
    the one holding the lock, or any one when the lock is free. *)
Lemma progress rt w0 c :
  Inv w0 c -> all_finished c = false -> exists c', step rt c c'.
Proof.
  intros HI Hnf. assert (Hlock := inv_lock w0 c HI).
  destruct (owner c) as [j|] eqn:Ho; simpl in Hlock.
  - destruct Hlock as [(pj & Hj & Hcj) _].
    apply (thread_can_run rt c j pj Hj). rewrite Ho.
    apply can_step.
    + destruct pj; simpl in *; congruence.
    + intros ->. discriminate.
  - destruct (unfinished_thread _ Hnf) as (i & p & Hp & Hf).
    apply (thread_can_run rt c i p Hp). rewrite Ho.
    destruct (thread_step rt i p None (shared c)) as [r|] eqn:Hts; [eauto|].
    exfalso. assert (Hc := Hlock i _ Hp).
    destruct p; simpl in Hts, Hc, Hf; try discriminate;
      case_step; discriminate.
Qed.

Lemma thread_step_decreases rt i p o w p' o' w' :
  thread_step rt i p o w = Some (p', o', w') ->
  (remaining p' < remaining p)%nat.
Proof.
  destruct p; simpl; try discriminate; case_step;
    intros H; inversion H; simpl; lia.
Qed.

Lemma work_update i p p' l :
  nth_error l i = Some p -> (remaining p' < remaining p)%nat ->
  (fold_right (fun p n => (remaining p + n)%nat) 0%nat (update i p' l)
   < fold_right (fun p n => (remaining p + n)%nat) 0%nat l)%nat.
Proof.
  revert i. induction l as [|q l IH]; intros [|i] Hp Hlt; simpl in *;
    try discriminate.
  - inversion Hp. subst. lia.
  - specialize (IH i Hp Hlt). lia.
Qed.

(** Every step uses up work: no execution goes on for ever. *)
Lemma step_decreases rt c c' : step rt c c' -> (work c' < work c)%nat.
Proof.
  intros [i p p' o' w' Hp Hts]. unfold work. simpl.
  apply (work_update i p p' _ Hp).
  now apply (thread_step_decreases rt i p (owner c) (shared c) p' o' w').
Qed.

(** *** Schedules *)

Lemma run_thread_step rt c i c' : run_thread rt c i = Some c' -> step rt c c'.
Proof.
  unfold run_thread. destruct (nth_error (threads c) i) as [p|] eqn:Hp;
    [|discriminate].
  destruct (thread_step rt i p (owner c) (shared c)) as [[[p' o'] w']|] eqn:Hts;
    [|discriminate].
  intros H. inversion H. now apply (step_thread rt c i p p' o' w').
Qed.

Lemma run_schedule_reachable rt s c0 c c' :
  reachable rt c0 c -> run_schedule rt s c = Some c' -> reachable rt c0 c'.
Proof.
  revert c. induction s as [|i s IH]; simpl; intros c Hr H.
  - inversion H. now subst.
  - destruct (run_thread rt c i) as [c1|] eqn:H1; [|discriminate].
    apply (IH c1); [|assumption].
    apply (reachable_step rt c0 c c1 Hr). now apply (run_thread_step rt c i).
Qed.

(** *** C9 *)




End Callers.

(** * Further properties of the code *)

(** ** A store that cannot be read *)

(** X1.  When the block of lines 125-127 raises, the store could not
    be read: the exception is that of [CertFile()] or of one of the
    two [addstore]; the cache was empty and stays empty; nothing is
    registered with [atexit], also when the instance had already been
    created; the lock has been released.  So a later call, with a
    store that can be read, reads it and sets the cache. *)
Theorem failed_store_load_is_not_cached :
  forall (rt : runtime) (w w' : world) (e : exn),
    OSStoreCache_get rt w = (Raises e, w') ->
    _WINCERTS w = None /\ _WINCERTS w' = None
    /\ atexit w' = atexit w
    /\ (exists c,
          In c [CertFile_new; addstore "CA"; addstore "ROOT"]
          /\ raises rt c = true /\ e = LibraryError c)
    /\ (exists calls,
          trace w' = trace w ++ AcquireLock :: map Call calls ++ [ReleaseLock])
    /\ (e <> LibraryError CertFile_new ->
        CertFile_count w' = S (CertFile_count w))
    /\ forall rt',
         Threads.no_store_failure rt' ->
         exists w'',
           OSStoreCache_get rt' w' = (Returns tt, w'')
           /\ _WINCERTS w''
              = Some {| cf_id := CertFile_count w';
                        cf_stores := ["CA"; "ROOT"]%string |}
           /\ atexit w'' = atexit w ++ [CertFile_count w'].
Proof.
  intros rt w w' e H.
  destruct (OSStoreCache_get_fails rt w e w' H) as (Hw & w1 & E & ->).
  destruct (load_wincerts_fails rt _ e w1 E) as (Hwc & Hax & Hcases).
  simpl in Hwc, Hax.
  assert (Hnone : _WINCERTS (add_events [ReleaseLock] w1) = None).
  { simpl. congruence. }
  split; [exact Hw|]. split; [exact Hnone|]. split; [exact Hax|].
  split.
  { destruct Hcases as [(-> & Hr & _) | [(-> & Hr & _) | (-> & Hr & _)]];
      eexists; (split; [|split; [exact Hr | reflexivity]]); simpl; auto. }
  split.
  { destruct Hcases as [(_ & _ & _ & Ht) | [(_ & _ & _ & Ht) | (_ & _ & _ & Ht)]];
      simpl in Ht.
    - exists [CertFile_new]. simpl. rewrite Ht. now rewrite <- !app_assoc.
    - exists [CertFile_new; addstore "CA"]. simpl. rewrite Ht.
      now rewrite <- !app_assoc.
    - exists [CertFile_new; addstore "CA"; addstore "ROOT"]. simpl.
      rewrite Ht. now rewrite <- !app_assoc. }
  split.
  { intros Hne.
    destruct Hcases as [(-> & _) | [(_ & _ & Hc & _) | (_ & _ & Hc & _)]];
      [congruence | exact Hc | exact Hc]. }
  intros rt' (H1 & H2 & H3).
  eexists. split; [now apply OSStoreCache_get_first|].
  simpl. split; [reflexivity|]. now rewrite Hax.
Qed.

Lemma failed_store_load_is_not_cached_witness :
  _WINCERTS (snd (OSStoreCache_get win32_unreadable_store initial_world))
  = None
  /\ atexit (snd (OSStoreCache_get win32_unreadable_store initial_world)) = [].
Proof.
  destruct (failed_store_load_is_not_cached win32_unreadable_store
              initial_world
              (snd (OSStoreCache_get win32_unreadable_store initial_world))
              (LibraryError (addstore "ROOT")))
    as (_ & Hw & Hax & _).
  - vm_compute. reflexivity.
  - split; [exact Hw | exact Hax].
Defined.

(** ** The exceptions of get_ssl_context *)

Lemma raised_by_later rt args pre evs e :
  raised_by rt args evs e -> raised_by rt args (pre ++ evs) e.
Proof.
  intros [(c & He & Hr & p & Hp) | H]; [|now right].
  left. exists c. split; [assumption|]. split; [assumption|].
  exists (pre ++ p). destruct Hp as [-> | ->]; rewrite app_assoc; auto.
Qed.

Lemma raises_at_ret rt args {A} (a : A) : raises_at rt args (ret a).
Proof. intros w e w' H. discriminate. Qed.

Lemma raises_at_raise rt args {A} (e : exn) :
  raised_by rt args [] e -> raises_at rt args (@raise A e).
Proof.
  intros He w e' w' H. inversion H. subst.
  exists []. split; [now rewrite app_nil_r | assumption].
Qed.

Lemma raises_at_bind rt args {A B} (m : M A) (k : A -> M B) :
  emits (fun _ => True) m ->
  raises_at rt args m -> (forall a, raises_at rt args (k a)) ->
  raises_at rt args (bind m k).
Proof.
  intros Hem Hm Hk w e w' H. unfold bind in H.
  destruct (Hem w) as (e0 & Ht0 & _).
  destruct (m w) as [[a|e1] w1] eqn:E; simpl in Ht0.
  - destruct (Hk a w1 e w' H) as (evs & Ht & Hby).
    exists (e0 ++ evs). split.
    + now rewrite Ht, Ht0, app_assoc.
    + now apply raised_by_later.
  - inversion H. subst. now apply (Hm w).
Qed.

(** A method of the context that raises: its call is the last thing
    that was done. *)
Lemma raises_at_method rt args c {A} (a : A) :
  raises_at rt args (call rt c ;;; ret a).
Proof.
  intros w e w' H. unfold bind in H. rewrite call_run in H.
  destruct (raises rt c) eqn:Hr; inversion H. subst.
  exists [Call c]. split; [reflexivity|].
  left. exists c. split; [reflexivity|]. split; [assumption|].
  exists []. now left.
Qed.

Lemma emits_method rt c {A} (a : A) : emits (fun _ => True) (call rt c ;;; ret a).
Proof.
  apply emits_bind; [now apply emits_call | intros _; apply emits_ret].
Qed.

Lemma raises_at_OSStoreCache_get rt args :
  raises_at rt args (OSStoreCache_get rt).
Proof.
  intros w e w' H.
  destruct (OSStoreCache_get_fails rt w e w' H) as (_ & w1 & E & ->).
  destruct (load_wincerts_fails rt _ e w1 E)
    as (_ & _ & [(-> & Hr & _ & Ht) | [(-> & Hr & _ & Ht) | (-> & Hr & _ & Ht)]]);
    simpl in Ht.
  - exists [AcquireLock; Call CertFile_new; ReleaseLock]. split.
    + simpl. rewrite Ht. now rewrite <- !app_assoc.
    + left. exists CertFile_new. repeat split; try assumption.
      exists [AcquireLock]. now right.
  - exists [AcquireLock; Call CertFile_new; Call (addstore "CA"); ReleaseLock].
    split.
    + simpl. rewrite Ht. now rewrite <- !app_assoc.
    + left. exists (addstore "CA"). repeat split; try assumption.
      exists [AcquireLock; Call CertFile_new]. now right.
  - exists [AcquireLock; Call CertFile_new; Call (addstore "CA");
            Call (addstore "ROOT"); ReleaseLock].
    split.
    + simpl. rewrite Ht. now rewrite <- !app_assoc.
    + left. exists (addstore "ROOT"). repeat split; try assumption.
      exists [AcquireLock; Call CertFile_new; Call (addstore "CA")].
      now right.
Qed.

Lemma raises_at_resolve_ca rt args ctx :
  ca_certs args = None -> py_ne (cert_reqs args) CERT_NONE = true ->
  raises_at rt args (resolve_ca rt ctx).
Proof.
  intros Hca Hne. unfold resolve_ca.
  destruct (ctx_has_load_default_certs rt) eqn:H1.
  { apply raises_at_method. }
  destruct (negb (String.eqb (sys_platform rt) "win32")
            && ctx_has_set_default_verify_paths rt) eqn:H2.
  { apply raises_at_method. }
  destruct (String.eqb (sys_platform rt) "win32" && HAVE_WINCERTSTORE rt)
    eqn:H3.
  { intros w e w' H. unfold bind in H.
    destruct (emits_OSStoreCache_get rt w) as (e0 & Ht0 & _).
    destruct (OSStoreCache_get rt w) as [[u|e1] w1] eqn:E; simpl in Ht0.
    - destruct (OSStoreCache_get_returns rt w u w1 E) as (cf & Hcf).
      unfold load_wincerts_file, bind, read_WINCERTS in H.
      rewrite Hcf in H.
      unfold ctx_load_verify_locations in H.
      destruct (raises_at_method rt args _ _ w1 e w' H) as (evs & Ht & Hby).
      exists (e0 ++ evs). split.
      + now rewrite Ht, Ht0, app_assoc.
      + now apply raised_by_later.
    - inversion H. subst. now apply (raises_at_OSStoreCache_get rt args w). }
  destruct (HAVE_CERTIFI rt) eqn:H4.
  { apply raises_at_bind.
    - unfold certifi_where_call. apply emits_bind.
      + now apply emits_log.
      + intros _. apply emits_ret.
    - intros w e w' H. unfold certifi_where_call, bind, log in H.
      discriminate.
    - intros b. apply raises_at_method. }
  apply raises_at_raise. right. right. left. repeat split; try assumption.
  unfold CAResolutionChain. now rewrite H1, H2, H3, H4.
Qed.

Lemma raises_at_assembly rt args :
  raises_at rt args
    (ctx <- load_client_cert rt args (hardened_context rt) ;;
     ctx <- load_crl rt args ctx ;;
     ctx <- load_ca rt args ctx ;;
     assign_verify_mode rt args ctx).
Proof.
  apply raises_at_bind.
  { eapply emits_weaken; [|apply emits_load_client_cert]. auto. }
  { unfold load_client_cert. destruct (certfile args).
    - apply raises_at_method.
    - apply raises_at_ret. }
  intros c1. apply raises_at_bind.
  { eapply emits_weaken; [|apply emits_load_crl]. auto. }
  { unfold load_crl. destruct (crlfile args) eqn:Hcrl.
    - destruct (ctx_has_verify_flags rt) eqn:Hvf; simpl.
      + apply raises_at_method.
      + apply raises_at_raise. right. left. repeat split; congruence.
    - apply raises_at_ret. }
  intros c2. apply raises_at_bind.
  { apply emits_load_ca. }
  { unfold load_ca. destruct (ca_certs args) eqn:Hca.
    - apply raises_at_method.
    - destruct (py_ne (cert_reqs args) CERT_NONE) eqn:Hne.
      + now apply raises_at_resolve_ca.
      + apply raises_at_ret. }
  intros c3. unfold assign_verify_mode, set_verify_mode.
  destruct (ctx_checks_verify_mode rt
            && negb (verify_mode_accepted (resolved_cert_reqs args))) eqn:Hm.
  - apply raises_at_raise. right. right. right.
    apply andb_true_iff in Hm. destruct Hm as [Hc Ha].
    apply negb_true_iff in Ha. auto.
  - apply raises_at_ret.
Qed.

(** X2.  Every exception [get_ssl_context] raises is one of four
    kinds, each under its own condition: the exception of a library
    call that raised, that call being the last thing the function did
    (but for releasing the lock, when the call was reading the store);
    the CRL [ConfigurationError], only with a [crlfile] and a class
    without [verify_flags]; the "no CA certificates"
    [ConfigurationError], only with no [ca_certs], [cert_reqs]
    different from [CERT_NONE] and no step of the chain available; the
    exception of a context class that refuses the mode.  In
    particular line 128 never fails on an unset [_WINCERTS]. *)
Theorem get_ssl_context_exceptions :
  forall (rt : runtime) (args : ssl_args) (w w' : world) (e : exn),
    HaveSSL.get_ssl_context rt args w = (Raises e, w') ->
    raised_by rt args (new_events w w') e
    /\ (forall msg, e <> AttributeError msg).
Proof.
  intros rt args w w' e H.
  rewrite get_ssl_context_statements in H.
  destruct (raises_at_assembly rt args w e w' H) as (evs & Ht & Hby).
  rewrite (new_events_app _ _ _ Ht). split; [assumption|].
  intros msg ->.
  destruct Hby as [(c & Hc & _) | [(Hc & _) | [(Hc & _) | (Hc & _)]]];
    discriminate.
Qed.

Lemma get_ssl_context_exceptions_witness :
  raised_by win32_unreadable_store (only_cert_reqs CERT_REQUIRED)
    (new_events initial_world
       (snd (HaveSSL.get_ssl_context win32_unreadable_store
               (only_cert_reqs CERT_REQUIRED) initial_world)))
    (LibraryError (addstore "ROOT")).
Proof.
  refine (proj1 (get_ssl_context_exceptions win32_unreadable_store
                   (only_cert_reqs CERT_REQUIRED) initial_world _ _ _)).
  vm_compute. reflexivity.
Defined.

(** ** The context that is returned *)

(** What the CA statement may do to the context. *)
Lemma load_ca_returns rt args ctx w ctx' w' :
  load_ca rt args ctx w = (Returns ctx', w') ->
  ctx' = ctx \/ ctx' = loaded_default_certs ctx
  \/ ctx' = loaded_default_verify_paths ctx
  \/ exists f, ctx' = loaded_verify_locations ctx f.
Proof.
  unfold load_ca. destruct (ca_certs args) as [ca|].
  { intros H. apply load_verify_locations_returns in H. destruct H as [-> _].
    right. right. right. now exists ca. }
  destruct (py_ne (cert_reqs args) CERT_NONE).
  2:{ intros H. inversion H. now left. }
  unfold resolve_ca.
  destruct (ctx_has_load_default_certs rt).
  { rewrite load_default_certs_run.
    destruct (raises rt load_default_certs); intros H; inversion H. auto. }
  destruct (negb (String.eqb (sys_platform rt) "win32")
            && ctx_has_set_default_verify_paths rt).
  { rewrite set_default_verify_paths_run.
    destruct (raises rt set_default_verify_paths); intros H; inversion H.
    auto. }
  destruct (String.eqb (sys_platform rt) "win32" && HAVE_WINCERTSTORE rt).
  { intros H. apply bind_returns_inv in H. destruct H as (u & w1 & _ & H).
    unfold load_wincerts_file in H.
    apply bind_returns_inv in H. destruct H as (wc & w2 & _ & H).
    destruct wc as [cf|]; [|discriminate].
    apply load_verify_locations_returns in H. destruct H as [-> _].
    right. right. right. eauto. }
  destruct (HAVE_CERTIFI rt).
  { intros H. apply bind_returns_inv in H. destruct H as (b & w1 & _ & H).
    apply load_verify_locations_returns in H. destruct H as [-> _].
    right. right. right. eauto. }
  discriminate.
Qed.

Lemma lor_keeps_bits (a b : Z) : Z.land (Z.lor a b) b = b.
Proof.
  apply Z.bits_inj'. intros n Hn.
  rewrite Z.land_spec, Z.lor_spec.
  destruct (Z.testbit a n), (Z.testbit b n); reflexivity.
Qed.

Lemma lor_keeps_bits_l (a b : Z) : Z.land (Z.lor a b) a = a.
Proof. rewrite Z.lor_comm. apply lor_keeps_bits. Qed.

Lemma land_lor_more (a b c : Z) : Z.land a c = c -> Z.land (Z.lor a b) c = c.
Proof.
  intros H. apply Z.bits_inj'. intros n Hn.
  assert (Hb := f_equal (fun z => Z.testbit z n) H). simpl in Hb.
  rewrite Z.land_spec in Hb. rewrite Z.land_spec, Z.lor_spec.
  destruct (Z.testbit a n), (Z.testbit b n), (Z.testbit c n);
    simpl in *; congruence.
Qed.

(** X3.  Every context [get_ssl_context] returns was created for
    [PROTOCOL_SSLv23]; where the class has [options], they contain
    every bit of [OP_NO_SSLv2] and of [OP_NO_SSLv3] (as far as the ssl
    module has them) and every bit that was set by default; where the
    class has no [options], the context has none and the call does not
    fail for that. *)
Theorem returned_context_is_hardened :
  forall (rt : runtime) (args : ssl_args) (w w' : world) (ctx : SSLContext),
    HaveSSL.get_ssl_context rt args w = (Returns ctx, w') ->
    protocol ctx = PROTOCOL_SSLv23 rt
    /\ (ctx_has_options rt = false -> options ctx = None)
    /\ (ctx_has_options rt = true ->
        exists o,
          options ctx = Some o
          /\ (forall n, OP_NO_SSLv2 rt = Some n -> Z.land o n = n)
          /\ (forall n, OP_NO_SSLv3 rt = Some n -> Z.land o n = n)
          /\ Z.land o (ctx_default_options rt) = ctx_default_options rt).
Proof.
  intros rt args w w' ctx H.
  apply get_ssl_context_returns_inv in H.
  destruct H as (_ & _ & ctx3 & Hca & ->).
  assert (Hkeep : protocol ctx3 = protocol (hardened_context rt)
                  /\ options ctx3 = options (hardened_context rt)).
  { apply load_ca_returns in Hca.
    assert (H0 : protocol (after_crl rt args (after_cert args (hardened_context rt)))
                 = protocol (hardened_context rt)
                 /\ options (after_crl rt args (after_cert args (hardened_context rt)))
                    = options (hardened_context rt)).
    { unfold after_crl, after_cert.
      destruct (crlfile args), (certfile args); simpl; auto. }
    destruct Hca as [-> | [-> | [-> | (f & ->)]]]; simpl; exact H0. }
  destruct Hkeep as [Hp Ho]. simpl. rewrite Hp, Ho. clear Hp Ho.
  unfold hardened_context, new_SSLContext. simpl.
  destruct (ctx_has_options rt); simpl.
  - split; [reflexivity|]. split; [discriminate|]. intros _.
    eexists. split; [reflexivity|]. repeat split.
    + intros n Hn. rewrite Hn. simpl. apply land_lor_more, lor_keeps_bits.
    + intros n Hn. rewrite Hn. simpl. apply lor_keeps_bits.
    + apply land_lor_more, lor_keeps_bits_l.
  - split; [reflexivity|]. split; [reflexivity|]. discriminate.
Qed.

Lemma returned_context_is_hardened_witness :
  exists ctx,
    fst (HaveSSL.get_ssl_context cpython_linux (only_cert_reqs PNone)
           initial_world) = Returns ctx
    /\ protocol ctx = 2.
Proof.
  eexists. split; [vm_compute; reflexivity|].
  refine (proj1 (returned_context_is_hardened cpython_linux
                   (only_cert_reqs PNone) initial_world _ _ _)).
  vm_compute. reflexivity.
Defined.

(** ** The client certificate *)

Lemma emits_resolve_ca_not_cert_chain rt ctx :
  emits (fun e => is_cert_chain_call e = false) (resolve_ca rt ctx).
Proof.
  unfold resolve_ca.
  destruct (ctx_has_load_default_certs rt).
  { unfold ctx_load_default_certs. apply emits_bind.
    - now apply emits_call.
    - intros _. apply emits_ret. }
  destruct (negb (String.eqb (sys_platform rt) "win32")
            && ctx_has_set_default_verify_paths rt).
  { unfold ctx_set_default_verify_paths. apply emits_bind.
    - now apply emits_call.
    - intros _. apply emits_ret. }
  destruct (String.eqb (sys_platform rt) "win32" && HAVE_WINCERTSTORE rt).
  { apply emits_bind.
    - eapply emits_weaken; [|apply emits_OSStoreCache_get].
      intros e He.
      destruct e as [[]| | | |]; simpl in *; congruence.
    - intros _. now apply emits_load_wincerts_file. }
  destruct (HAVE_CERTIFI rt).
  { apply emits_bind.
    - unfold certifi_where_call. apply emits_bind.
      + now apply emits_log.
      + intros _. apply emits_ret.
    - intros b. now apply emits_load_verify_locations. }
  apply emits_raise.
Qed.

Lemma emits_rest_not_cert_chain rt args ctx :
  emits (fun e => is_cert_chain_call e = false)
    (ctx <- load_crl rt args ctx ;;
     ctx <- load_ca rt args ctx ;;
     assign_verify_mode rt args ctx).
Proof.
  apply emits_bind.
  { unfold load_crl. destruct (crlfile args).
    - destruct (negb (ctx_has_verify_flags rt)).
      + apply emits_raise.
      + now apply emits_load_verify_locations.
    - apply emits_ret. }
  intros c2. apply emits_bind.
  { unfold load_ca. destruct (ca_certs args).
    - now apply emits_load_verify_locations.
    - destruct (py_ne (cert_reqs args) CERT_NONE).
      + apply emits_resolve_ca_not_cert_chain.
      + apply emits_ret. }
  intros c3. apply emits_set_verify_mode.
Qed.

Lemma returned_cert_chain rt args w ctx w' :
  HaveSSL.get_ssl_context rt args w = (Returns ctx, w') ->
  cert_chain ctx
  = match certfile args with
    | Some cert => [(cert, keyfile args)]
    | None => []
    end.
Proof.
  intros H. apply get_ssl_context_returns_inv in H.
  destruct H as (_ & _ & ctx3 & Hca & ->).
  apply load_ca_grows in Hca. destruct Hca as (_ & Hchain & _).
  simpl. rewrite Hchain.
  unfold after_crl, after_cert, hardened_context, new_SSLContext.
  cbn [options].
  destruct (crlfile args), (certfile args), (ctx_has_options rt); reflexivity.
Qed.

(** X4.  With a [certfile], loading the client certificate (with the
    [keyfile], None included) is the first thing [get_ssl_context]
    does and is done once; if it raises, its exception is the outcome
    of the call and nothing else has been attempted; a returned
    context holds exactly that certificate.  Without a [certfile] no
    client certificate is loaded, a [keyfile] given alone being
    ignored. *)
Theorem client_certificate_comes_first :
  forall (rt : runtime) (args : ssl_args) (w : world),
    (forall cert,
       certfile args = Some cert ->
       (exists rest,
          new_events w (snd (HaveSSL.get_ssl_context rt args w))
          = Call (load_cert_chain cert (keyfile args)) :: rest
          /\ Forall (fun e => is_cert_chain_call e = false) rest)
       /\ (raises rt (load_cert_chain cert (keyfile args)) = true ->
           HaveSSL.get_ssl_context rt args w
           = (Raises (InvalidCertificate cert (keyfile args)),
              add_events [Call (load_cert_chain cert (keyfile args))] w))
       /\ (forall ctx,
             fst (HaveSSL.get_ssl_context rt args w) = Returns ctx ->
             cert_chain ctx = [(cert, keyfile args)]))
    /\ (certfile args = None ->
        Forall (fun e => is_cert_chain_call e = false)
          (new_events w (snd (HaveSSL.get_ssl_context rt args w)))
        /\ (forall ctx,
              fst (HaveSSL.get_ssl_context rt args w) = Returns ctx ->
              cert_chain ctx = [])).
Proof.
  intros rt args w.
  assert (Hchain : forall ctx,
            fst (HaveSSL.get_ssl_context rt args w) = Returns ctx ->
            cert_chain ctx
            = match certfile args with
              | Some cert => [(cert, keyfile args)]
              | None => []
              end).
  { intros ctx H.
    destruct (HaveSSL.get_ssl_context rt args w) as [r w'] eqn:Hrun.
    simpl in H. subst r. now apply (returned_cert_chain rt args w ctx w'). }
  split.
  - intros cert Hcert. rewrite Hcert in Hchain.
    split; [|split; [|exact Hchain]].
    + rewrite get_ssl_context_statements. unfold load_client_cert.
      rewrite Hcert. unfold bind at 1. rewrite load_cert_chain_run.
      destruct (raises rt (load_cert_chain cert (keyfile args))).
      * exists []. simpl snd. rewrite new_events_add. now split.
      * destruct (emits_rest_not_cert_chain rt args
                    (loaded_cert_chain (hardened_context rt) cert (keyfile args))
                    (add_events [Call (load_cert_chain cert (keyfile args))] w))
          as (evs & Ht & HP).
        exists evs. split; [|exact HP].
        apply new_events_app. rewrite Ht. simpl. now rewrite <- app_assoc.
    + intros Hr. rewrite get_ssl_context_statements. unfold load_client_cert.
      rewrite Hcert. unfold bind at 1. rewrite load_cert_chain_run, Hr.
      reflexivity.
  - intros Hnone. rewrite Hnone in Hchain. split; [|exact Hchain].
    rewrite get_ssl_context_statements. unfold load_client_cert.
    rewrite Hnone. unfold bind at 1, ret at 1.
    destruct (emits_rest_not_cert_chain rt args (hardened_context rt) w)
      as (evs & Ht & HP).
    now rewrite (new_events_app _ _ _ Ht).
Qed.

Lemma client_certificate_comes_first_witness :
  HaveSSL.get_ssl_context cpython_linux
    {| certfile := Some "missing.pem"%string; keyfile := None;
       ca_certs := None; cert_reqs := PNone; crlfile := None |}
    initial_world
  = (Raises (InvalidCertificate "missing.pem" None),
     add_events [Call (load_cert_chain "missing.pem" None)] initial_world).
Proof.
  destruct (client_certificate_comes_first cpython_linux
              {| certfile := Some "missing.pem"%string; keyfile := None;
                 ca_certs := None; cert_reqs := PNone; crlfile := None |}
              initial_world) as [H _].
  destruct (H "missing.pem"%string eq_refl) as (_ & Hr & _).
  apply Hr. vm_compute. reflexivity.
Defined.

(** ** An unset cert_reqs *)

(** X5.  A call with [cert_reqs] None is the call with
    [CERT_REQUIRED]: the same outcome, context and events.  Lines 116
    and 136 agree on what None stands for. *)
Theorem unset_cert_reqs_is_required :
  forall (rt : runtime) (args : ssl_args) (w : world),
    cert_reqs args = PNone ->
    HaveSSL.get_ssl_context rt args w
    = HaveSSL.get_ssl_context rt (with_cert_reqs args CERT_REQUIRED) w.
Proof.
  intros rt args w Hnone. rewrite !get_ssl_context_statements.
  unfold load_client_cert, load_crl, load_ca, assign_verify_mode,
    resolved_cert_reqs, with_cert_reqs.
  cbn [certfile keyfile ca_certs cert_reqs crlfile].
  rewrite Hnone. reflexivity.
Qed.

Lemma unset_cert_reqs_is_required_witness :
  HaveSSL.get_ssl_context cpython26_win32 (only_cert_reqs PNone) initial_world
  = HaveSSL.get_ssl_context cpython26_win32
      (with_cert_reqs (only_cert_reqs PNone) CERT_REQUIRED) initial_world.
Proof.
  apply (unset_cert_reqs_is_required cpython26_win32 (only_cert_reqs PNone)
           initial_world).
  reflexivity.
Defined.

(** ** What validate_cert_reqs returns *)

(** X6.  A value [validate_cert_reqs] returns is None or equal to
    one of the three modes, and is not a string; validating it again,
    under any option name, returns it unchanged.  When it is None or
    an integer (a boolean included), assigning it as the mode (with
    [CERT_REQUIRED] for None) is accepted by a context class that
    checks its mode.  But it need not be an integer: a number that
    equals a mode without being an [int], such as [1.0], is returned
    by [validate_cert_reqs] and refused by such a class. *)
Theorem validated_value_is_stable :
  forall (rt : runtime) (option : string) (raw v : pyval),
    HaveSSL.validate_cert_reqs rt option raw = Returns v ->
    (v = PNone \/ py_in v cert_reqs_values = true)
    /\ is_string v = false
    /\ (forall option',
          HaveSSL.validate_cert_reqs rt option' v = Returns v)
    /\ (v = PNone \/ is_int v = true ->
        forall ctx w,
          set_verify_mode rt ctx (if is_None v then CERT_REQUIRED else v) w
          = (Returns (assigned_verify_mode ctx
                        (if is_None v then CERT_REQUIRED else v)), w))
    /\ (v <> PNone -> is_int v = false ->
        ctx_checks_verify_mode rt = true ->
        forall ctx w,
          set_verify_mode rt ctx v w = (Raises (VerifyModeError v), w)).
Proof.
  intros rt option raw v H. apply validated_cert_reqs in H.
  destruct H as [-> | Hin].
  - split; [now left|]. split; [reflexivity|]. split; [reflexivity|].
    split.
    + intros _ ctx w. unfold set_verify_mode. simpl.
      now rewrite andb_false_r.
    + intros Hn. now destruct Hn.
  - split; [now right|].
    destruct v as [|b|n|q|s|i]; try discriminate.
    + split; [reflexivity|]. split.
      { intros option'. unfold HaveSSL.validate_cert_reqs.
        cbn [is_None]. now rewrite Hin. }
      split; [|discriminate].
      intros _ ctx w. unfold set_verify_mode. cbn [is_None].
      cbn [verify_mode_accepted]. now rewrite Hin, andb_false_r.
    + split; [reflexivity|]. split.
      { intros option'. unfold HaveSSL.validate_cert_reqs.
        cbn [is_None]. now rewrite Hin. }
      split; [|discriminate].
      intros _ ctx w. unfold set_verify_mode. cbn [is_None].
      cbn [verify_mode_accepted]. now rewrite Hin, andb_false_r.
    + split; [reflexivity|]. split.
      { intros option'. unfold HaveSSL.validate_cert_reqs.
        cbn [is_None]. now rewrite Hin. }
      split.
      { intros [H|H]; discriminate. }
      intros _ _ Hchk ctx w. unfold set_verify_mode. now rewrite Hchk.
Qed.

Lemma validated_value_is_stable_witness :
  HaveSSL.validate_cert_reqs cpython_linux "ssl_cert_reqs" (PFloat 1)
  = Returns (PFloat 1)
  /\ forall ctx w,
       set_verify_mode cpython_linux ctx (PFloat 1) w
       = (Raises (VerifyModeError (PFloat 1)), w).
Proof.
  split; [reflexivity|].
  refine (proj2 (proj2 (proj2 (proj2
            (validated_value_is_stable cpython_linux "ssl_cert_reqs"
               (PFloat 1) (PFloat 1) eq_refl)))) _ eq_refl eq_refl);
    discriminate.
Defined.

(** ** Once the cache is set *)

(** X7.  Once [_WINCERTS] is set, no sequence of calls of
    [get_ssl_context], whatever their arguments and outcomes, changes
    it, opens the OS store again, or registers anything with
    [atexit]. *)
Theorem cache_is_never_reset :
  forall (rt : runtime) (l : list ssl_args) (w : world) (cf : CertFile),
    _WINCERTS w = Some cf ->
    _WINCERTS (calls rt l w) = Some cf
    /\ atexit (calls rt l w) = atexit w
    /\ CertFile_count (calls rt l w) = CertFile_count w
    /\ Forall (fun e => Threads.is_store_event e = false)
         (new_events w (calls rt l w)).
Proof.
  intros rt l w cf Hw.
  assert (H : _WINCERTS (calls rt l w) = Some cf
              /\ atexit (calls rt l w) = atexit w
              /\ CertFile_count (calls rt l w) = CertFile_count w
              /\ exists evs,
                   trace (calls rt l w) = trace w ++ evs
                   /\ Forall (fun e => Threads.is_store_event e = false) evs).
  { revert w Hw. induction l as [|args l IH]; intros w Hw; simpl.
    - repeat split; auto. exists []. split; [now rewrite app_nil_r | constructor].
    - destruct (cache_stable_get_ssl_context rt args w cf Hw)
        as (H1 & H2 & H3 & evs & Ht & HP).
      destruct (IH _ H1) as (K1 & K2 & K3 & evs2 & Kt & KP).
      repeat split; try congruence.
      exists (evs ++ evs2). split.
      + now rewrite Kt, Ht, app_assoc.
      + apply Forall_app. now split. }
  destruct H as (H1 & H2 & H3 & evs & Ht & HP).
  repeat split; auto.
  now rewrite (new_events_app _ _ _ Ht).
Qed.

Lemma cache_is_never_reset_witness :
  _WINCERTS
    (calls cpython26_win32
       [only_cert_reqs PNone; with_crl "crl.pem" PNone;
        only_cert_reqs CERT_OPTIONAL]
       (snd (HaveSSL.get_ssl_context cpython26_win32 (only_cert_reqs PNone)
               initial_world)))
  = Some {| cf_id := 0; cf_stores := ["CA"; "ROOT"]%string |}.
Proof.
  apply (cache_is_never_reset cpython26_win32).
  vm_compute. reflexivity.
Defined.

(** ** The step that uses the OS store *)

(** X8.  On a runtime whose CA material comes from the OS store, a
    call that reaches that step with [_WINCERTS] unset takes the lock,
    builds the [CertFile], adds the stores ["CA"] and ["ROOT"],
    registers its [close] with [atexit], sets [_WINCERTS], releases the
    lock and passes the file's name to [load_verify_locations]; with
    [_WINCERTS] set it only takes and releases the lock and passes the
    cached file's name. *)
Theorem OS_store_step :
  forall (rt : runtime) (args : ssl_args) (w : world),
    CAResolutionChain rt = Some OSStore ->
    ca_certs args = None ->
    py_ne (cert_reqs args) CERT_NONE = true ->
    cert_step_passes rt args = true ->
    crl_step_passes rt args = true ->
    (_WINCERTS w = None ->
     Threads.no_store_failure rt ->
     snd (HaveSSL.get_ssl_context rt args w)
     = {| _WINCERTS := Some {| cf_id := CertFile_count w;
                               cf_stores := ["CA"; "ROOT"]%string |};
          atexit := atexit w ++ [CertFile_count w];
          CertFile_count := S (CertFile_count w);
          trace := trace w
                   ++ cert_step_events args ++ crl_step_events args
                   ++ [AcquireLock; Call CertFile_new;
                       Call (addstore "CA"); Call (addstore "ROOT");
                       AtexitRegister (CertFile_count w); ReleaseLock;
                       Call (load_verify_locations
                               (CertFile_name rt (CertFile_count w)))] |})
    /\ (forall cf,
          _WINCERTS w = Some cf ->
          snd (HaveSSL.get_ssl_context rt args w)
          = add_events
              (cert_step_events args ++ crl_step_events args
               ++ [AcquireLock; ReleaseLock;
                   Call (load_verify_locations (CertFile_name rt (cf_id cf)))])
              w).
Proof.
  intros rt args w Hchain Hca Hne Hcert Hcrl.
  rewrite (reaches_OS_store rt args w Hchain Hca Hne Hcert Hcrl).
  split.
  - intros Hw (F1 & F2 & F3). unfold bind at 1.
    set (w1 := add_events (cert_step_events args ++ crl_step_events args) w).
    assert (Hw1 : _WINCERTS w1 = None) by exact Hw.
    rewrite (OSStoreCache_get_first rt w1 Hw1 F1 F2 F3).
    unfold load_wincerts_file, bind at 1, read_WINCERTS.
    cbn [_WINCERTS cf_id]. rewrite load_verify_locations_run.
    unfold add_events, w1. simpl. f_equal. now rewrite <- !app_assoc.
  - intros cf Hw. unfold bind at 1.
    set (w1 := add_events (cert_step_events args ++ crl_step_events args) w).
    assert (Hw1 : _WINCERTS w1 = Some cf) by exact Hw.
    rewrite (OSStoreCache_get_cached rt w1 cf Hw1).
    unfold load_wincerts_file, bind at 1, read_WINCERTS.
    replace (_WINCERTS (add_events [AcquireLock; ReleaseLock] w1))
      with (Some cf) by (symmetry; exact Hw).
    rewrite load_verify_locations_run.
    unfold add_events, w1. simpl. f_equal. now rewrite <- !app_assoc.
Qed.

Lemma OS_store_step_witness :
  snd (HaveSSL.get_ssl_context cpython26_win32 (only_cert_reqs PNone)
         initial_world)
  = {| _WINCERTS := Some {| cf_id := 0; cf_stores := ["CA"; "ROOT"]%string |};
       atexit := [0%nat];
       CertFile_count := 1;
       trace := [AcquireLock; Call CertFile_new;
                 Call (addstore "CA"); Call (addstore "ROOT");
                 AtexitRegister 0; ReleaseLock;
                 Call (load_verify_locations
                         (CertFile_name cpython26_win32 0))] |}.
Proof.
  refine (proj1 (OS_store_step cpython26_win32 (only_cert_reqs PNone)
                   initial_world eq_refl eq_refl eq_refl eq_refl eq_refl)
            eq_refl _).
  vm_compute. repeat split.
Defined.

(** ** The trust anchors of the returned context *)

Lemma before_load_ca rt args :
  let ctx0 := after_crl rt args (after_cert args (hardened_context rt)) in
  verify_locations ctx0 = crl_files args
  /\ default_certs ctx0 = false
  /\ default_verify_paths ctx0 = false
  /\ verify_flags ctx0
     = match crlfile args with
       | Some _ => Some (VERIFY_CRL_CHECK_LEAF rt)
       | None => if ctx_has_verify_flags rt
                 then Some (ctx_default_verify_flags rt) else None
       end.
Proof.
  unfold after_crl, after_cert, hardened_context, new_SSLContext, crl_files.
  cbn [options].
  destruct (crlfile args), (certfile args), (ctx_has_options rt);
    repeat split; reflexivity.
Qed.

(** X9.  The trust anchors of a returned context come from one place
    only.  With [ca_certs] it is that file; without it and with
    [cert_reqs] other than [CERT_NONE] it is the one source the chain
    selects for the runtime, the OS-store file being the one
    [_WINCERTS] holds when the call returns; with [CERT_NONE] there is
    none.  A [crlfile] comes before them in the locations, and
    without one the verify flags are those of a new context. *)
Theorem returned_context_trust_anchors :
  forall (rt : runtime) (args : ssl_args) (w w' : world) (ctx : SSLContext),
    HaveSSL.get_ssl_context rt args w = (Returns ctx, w') ->
    verify_flags ctx
    = match crlfile args with
      | Some _ => Some (VERIFY_CRL_CHECK_LEAF rt)
      | None => if ctx_has_verify_flags rt
                then Some (ctx_default_verify_flags rt) else None
      end
    /\ match ca_certs args with
       | Some ca => anchors_are ctx args [ca] false false
       | None =>
           if py_ne (cert_reqs args) CERT_NONE then
             match CAResolutionChain rt with
             | Some SystemDefaultCerts => anchors_are ctx args [] true false
             | Some DefaultVerifyPaths => anchors_are ctx args [] false true
             | Some OSStore =>
                 exists cf,
                   _WINCERTS w' = Some cf
                   /\ anchors_are ctx args [CertFile_name rt (cf_id cf)]
                        false false
             | Some BundledCA =>
                 anchors_are ctx args [certifi_where rt] false false
             | None => False
             end
           else anchors_are ctx args [] false false
       end.
Proof.
  intros rt args w w' ctx H.
  apply get_ssl_context_returns_inv in H.
  destruct H as (_ & _ & ctx3 & Hca & ->).
  destruct (before_load_ca rt args) as (Hloc & Hdc & Hdvp & Hvf).
  set (ctx0 := after_crl rt args (after_cert args (hardened_context rt))) in *.
  split.
  { apply load_ca_grows in Hca. destruct Hca as (Hflags & _).
    simpl. now rewrite Hflags. }
  unfold anchors_are. cbn [assigned_verify_mode verify_locations default_certs
                           default_verify_paths].
  unfold load_ca in Hca. destruct (ca_certs args) as [ca|].
  { apply load_verify_locations_returns in Hca. destruct Hca as [-> _].
    simpl. now rewrite Hloc, Hdc, Hdvp. }
  destruct (py_ne (cert_reqs args) CERT_NONE).
  2:{ inversion Hca; subst. now rewrite Hloc, Hdc, Hdvp, app_nil_r. }
  unfold resolve_ca in Hca. unfold CAResolutionChain.
  destruct (ctx_has_load_default_certs rt).
  { rewrite load_default_certs_run in Hca.
    destruct (raises rt load_default_certs); inversion Hca; subst.
    simpl. now rewrite Hloc, Hdvp, app_nil_r. }
  destruct (negb (String.eqb (sys_platform rt) "win32")
            && ctx_has_set_default_verify_paths rt).
  { rewrite set_default_verify_paths_run in Hca.
    destruct (raises rt set_default_verify_paths); inversion Hca; subst.
    simpl. now rewrite Hloc, Hdc, app_nil_r. }
  destruct (String.eqb (sys_platform rt) "win32" && HAVE_WINCERTSTORE rt).
  { apply bind_returns_inv in Hca. destruct Hca as (u & w1 & _ & Hca).
    unfold load_wincerts_file in Hca.
    apply bind_returns_inv in Hca. destruct Hca as (wc & w2 & Hread & Hca).
    unfold read_WINCERTS in Hread. inversion Hread; subst.
    destruct (_WINCERTS w2) as [cf|] eqn:Hw2; [|discriminate].
    rewrite load_verify_locations_run in Hca.
    destruct (raises rt (load_verify_locations _)); inversion Hca; subst.
    exists cf. simpl. now rewrite Hloc, Hdc, Hdvp. }
  destruct (HAVE_CERTIFI rt).
  { apply bind_returns_inv in Hca. destruct Hca as (b & w1 & Hb & Hca).
    unfold certifi_where_call, bind, log in Hb. simpl in Hb.
    inversion Hb; subst.
    apply load_verify_locations_returns in Hca. destruct Hca as [-> _].
    simpl. now rewrite Hloc, Hdc, Hdvp. }
  discriminate.
Qed.

Lemma returned_context_trust_anchors_witness :
  exists ctx w',
    HaveSSL.get_ssl_context cpython26_win32 (only_cert_reqs PNone)
      initial_world = (Returns ctx, w')
    /\ verify_locations ctx = [CertFile_name cpython26_win32 0]
    /\ verify_flags ctx = None.
Proof.
  eexists. eexists. split; [vm_compute; reflexivity|].
  destruct (returned_context_trust_anchors cpython26_win32
              (only_cert_reqs PNone) initial_world _ _ eq_refl)
    as (Hflags & cf & Hcf & Hloc & _).
  vm_compute in Hcf. inversion Hcf; subst cf.
  split; [exact Hloc | exact Hflags].
Defined.

(** ** The lock *)

Lemma emits_load_wincerts_with (P : event -> Prop) rt :
  P (Call CertFile_new) ->
  (forall s, P (Call (addstore s))) ->
  (forall n, P (AtexitRegister n)) ->
  emits P (HaveSSL._load_wincerts rt).
Proof.
  intros Hnew Hadd Hreg.
  assert (silent : forall A (m : M A),
             (forall w, trace (snd (m w)) = trace w) -> emits P m).
  { intros A m H w. exists []. rewrite H, app_nil_r. now split. }
  unfold HaveSSL._load_wincerts.
  apply emits_bind.
  { unfold new_CertFile. apply emits_bind.
    - now apply emits_call.
    - intros _. now apply silent. }
  intros cf0. apply emits_bind.
  { unfold cf_addstore. apply emits_bind.
    - now apply emits_call.
    - intros _. apply emits_ret. }
  intros cf1. apply emits_bind.
  { unfold cf_addstore. apply emits_bind.
    - now apply emits_call.
    - intros _. apply emits_ret. }
  intros cf2. apply emits_bind.
  { unfold atexit_register. apply emits_bind.
    - now apply emits_log.
    - intros _. now apply silent. }
  intros _. now apply silent.
Qed.

Lemma disciplined_outside {A} (m : M A) : emits outside_lock m -> disciplined m.
Proof.
  intros Hm w. destruct (Hm w) as (evs & Ht & HP).
  exists evs. split; [assumption | now left].
Qed.

Lemma disciplined_after {A B} (m : M A) (k : A -> M B) :
  emits outside_lock m -> (forall a, disciplined (k a)) -> disciplined (bind m k).
Proof.
  intros Hm Hk w. unfold bind.
  destruct (Hm w) as (e1 & Ht1 & HP1).
  destruct (m w) as [[a|e] w1]; simpl in *.
  - destruct (Hk a w1) as (e2 & Ht2 & HD).
    exists (e1 ++ e2). split; [now rewrite Ht2, Ht1, app_assoc|].
    destruct HD as [HD | (pre & mid & post & -> & H1 & H2 & H3)].
    + left. apply Forall_app. now split.
    + right. exists (e1 ++ pre), mid, post.
      split; [now rewrite <- app_assoc|].
      split; [apply Forall_app; now split | now split].
  - exists e1. split; [assumption | now left].
Qed.

Lemma disciplined_before {A B} (m : M A) (k : A -> M B) :
  disciplined m -> (forall a, emits outside_lock (k a)) -> disciplined (bind m k).
Proof.
  intros Hm Hk w. unfold bind.
  destruct (Hm w) as (e1 & Ht1 & HD).
  destruct (m w) as [[a|e] w1]; simpl in *.
  - destruct (Hk a w1) as (e2 & Ht2 & HP2).
    exists (e1 ++ e2). split; [now rewrite Ht2, Ht1, app_assoc|].
    destruct HD as [HD | (pre & mid & post & -> & H1 & H2 & H3)].
    + left. apply Forall_app. now split.
    + right. exists pre, mid, (post ++ e2).
      split.
      { rewrite <- !app_assoc. simpl. now rewrite <- !app_assoc. }
      split; [assumption|]. split; [assumption|].
      apply Forall_app. now split.
  - exists e1. split; assumption.
Qed.

Lemma disciplined_OSStoreCache_get rt : disciplined (OSStoreCache_get rt).
Proof.
  intros w. unfold OSStoreCache_get. rewrite with_WINCERTSLOCK_run.
  set (body := bind read_WINCERTS _).
  assert (Hb : emits (fun e => Threads.is_store_event e = true) body).
  { subst body. apply emits_bind; [apply emits_read_WINCERTS|].
    intros [cf|]; [apply emits_ret | now apply emits_load_wincerts_with]. }
  destruct (Hb (add_events [AcquireLock] w)) as (mid & Ht & HP).
  exists (AcquireLock :: mid ++ [ReleaseLock]). split.
  - simpl. rewrite Ht. simpl. now rewrite <- !app_assoc.
  - right. exists [], mid, []. repeat split; auto.
Qed.

Lemma disciplined_resolve_ca rt ctx : disciplined (resolve_ca rt ctx).
Proof.
  unfold resolve_ca.
  destruct (ctx_has_load_default_certs rt).
  { apply disciplined_outside. unfold ctx_load_default_certs. apply emits_bind.
    - now apply emits_call.
    - intros _. apply emits_ret. }
  destruct (negb (String.eqb (sys_platform rt) "win32")
            && ctx_has_set_default_verify_paths rt).
  { apply disciplined_outside. unfold ctx_set_default_verify_paths.
    apply emits_bind.
    - now apply emits_call.
    - intros _. apply emits_ret. }
  destruct (String.eqb (sys_platform rt) "win32" && HAVE_WINCERTSTORE rt).
  { apply disciplined_before; [apply disciplined_OSStoreCache_get|].
    intros _. now apply emits_load_wincerts_file. }
  destruct (HAVE_CERTIFI rt).
  { apply disciplined_outside. apply emits_bind.
    - unfold certifi_where_call. apply emits_bind.
      + now apply emits_log.
      + intros _. apply emits_ret.
    - intros b. now apply emits_load_verify_locations. }
  apply disciplined_outside, emits_raise.
Qed.

Lemma disciplined_get_ssl_context rt args :
  disciplined (HaveSSL.get_ssl_context rt args).
Proof.
  rewrite get_ssl_context_statements.
  apply disciplined_after.
  { unfold load_client_cert. destruct (certfile args).
    - now apply emits_load_cert_chain.
    - apply emits_ret. }
  intros c1. apply disciplined_after.
  { unfold load_crl. destruct (crlfile args).
    - destruct (negb (ctx_has_verify_flags rt)).
      + apply emits_raise.
      + now apply emits_load_verify_locations.
    - apply emits_ret. }
  intros c2. apply disciplined_before.
  { unfold load_ca. destruct (ca_certs args).
    - apply disciplined_outside. now apply emits_load_verify_locations.
    - destruct (py_ne (cert_reqs args) CERT_NONE).
      + apply disciplined_resolve_ca.
      + apply disciplined_outside, emits_ret. }
  intros c3. apply emits_set_verify_mode.
Qed.

Lemma outside_lock_filters (evs : list event) :
  Forall outside_lock evs ->
  filter is_acquire evs = [] /\ filter is_release evs = [].
Proof.
  induction 1 as [|e evs [He _] _ [IH1 IH2]]; [now split|].
  unfold is_lock_event in He. apply orb_false_iff in He. destruct He as [Ha Hr].
  simpl. now rewrite Ha, Hr.
Qed.

Lemma store_event_filters (evs : list event) :
  Forall (fun e => Threads.is_store_event e = true) evs ->
  filter is_acquire evs = [] /\ filter is_release evs = [].
Proof.
  induction 1 as [|e evs He _ [IH1 IH2]]; [now split|].
  simpl. destruct e as [c| | | |n]; try discriminate; simpl; now split.
Qed.

(** X10.  Whatever its arguments and its outcome, a call of
    [get_ssl_context] takes the lock at most once and has released it
    when it ends; between taking and releasing it only reads the store
    ([CertFile()], [addstore], [atexit.register]), and it does so
    nowhere else: the methods of the context are called outside the
    lock. *)
Theorem lock_is_released :
  forall (rt : runtime) (args : ssl_args) (w : world),
    lock_discipline (new_events w (snd (HaveSSL.get_ssl_context rt args w)))
    /\ lock_balanced (new_events w (snd (HaveSSL.get_ssl_context rt args w)))
    /\ (length (filter is_acquire
                  (new_events w (snd (HaveSSL.get_ssl_context rt args w))))
        <= 1)%nat.
Proof.
  intros rt args w.
  destruct (disciplined_get_ssl_context rt args w) as (evs & Ht & HD).
  rewrite (new_events_app _ _ _ Ht).
  split; [assumption|]. unfold lock_balanced.
  destruct HD as [HD | (pre & mid & post & -> & H1 & H2 & H3)].
  - destruct (outside_lock_filters evs HD) as [-> ->]. simpl. lia.
  - destruct (outside_lock_filters pre H1) as [Ha1 Hr1].
    destruct (store_event_filters mid H2) as [Ha2 Hr2].
    destruct (outside_lock_filters post H3) as [Ha3 Hr3].
    rewrite !filter_app. simpl. rewrite !filter_app. simpl.
    rewrite Ha1, Hr1, Ha2, Hr2, Ha3, Hr3. simpl. lia.
Qed.

(** ** Concurrent callers and a store that cannot be read *)

Section FailingStore.

Import Threads.
Local Open Scope nat_scope.

Variable rt : runtime.
Variable w0 : world.

Lemma thread_safe_same_cache w w' p :
  _WINCERTS w' = _WINCERTS w -> thread_safe rt w p -> thread_safe rt w' p.
Proof.
  intros Hw. destruct p as [| | | | | | |[e|]| | | |]; simpl; rewrite ?Hw; auto.
Qed.

(** A thread outside the block, while the cache is empty, is waiting
    for the lock or has failed. *)
Lemma thread_safe_waiting w w' q :
  critical q = false -> _WINCERTS w = None ->
  thread_safe rt w q -> thread_safe rt w' q.
Proof.
  intros Hc Hw. destruct q; simpl in *; try discriminate; try congruence; auto.
Qed.

Lemma safe_initial (n : nat) : Safe rt w0 (initial_config n w0).
Proof.
  assert (Hth : forall i p, nth_error (repeat AtLock n) i = Some p -> p = AtLock).
  { intros i p H. apply nth_error_In in H. now apply repeat_spec in H. }
  constructor; simpl; auto.
  - intros i p H. now rewrite (Hth i p H).
  - intros i p H. now rewrite (Hth i p H).
Qed.

(** A step that leaves the cache and the registry as they are. *)
Lemma safe_step_same c i p p' o' w' :
  Safe rt w0 c -> nth_error (threads c) i = Some p ->
  _WINCERTS w' = _WINCERTS (shared c) ->
  atexit w' = atexit (shared c) ->
  thread_safe rt w' p' ->
  lock_inv (update i p' (threads c)) o' ->
  Safe rt w0 {| threads := update i p' (threads c); owner := o'; shared := w' |}.
Proof.
  intros HS Hnth Hwc Hax Hp' Hlock. constructor; simpl.
  - assumption.
  - intros j q Hjq.
    destruct (nth_error_update _ _ _ _ _ Hjq) as [(-> & -> & _) | (_ & Hold)].
    + assumption.
    + apply (thread_safe_same_cache (shared c)); [assumption|].
      now apply (safe_threads rt w0 c HS j).
  - rewrite Hwc. apply (safe_cache rt w0 c HS).
  - rewrite Hax. apply (safe_atexit rt w0 c HS).
Qed.

Lemma step_preserves_safe c c' : Safe rt w0 c -> step rt c c' -> Safe rt w0 c'.
Proof.
  intros HS [i p p' o' w' Hnth Hts].
  assert (Hl := safe_lock rt w0 c HS).
  assert (Hp := safe_threads rt w0 c HS i p Hnth).
  destruct p as [| | |cf|cf|cf|cf|pending| |cf|cf r|e]; simpl in Hts.
  - (* AtLock *)
    destruct (owner c) as [j|] eqn:Ho; [discriminate|]. inversion Hts; subst.
    apply (safe_step_same c i AtLock);
      [assumption | assumption | reflexivity | reflexivity | exact I |].
    now apply (lock_acquire _ _ AtLock).
  - (* AtTest *)
    destruct (_WINCERTS (shared c)) as [cf|] eqn:Hw; inversion Hts; subst.
    + apply (safe_step_same c i AtTest);
        [assumption | assumption | reflexivity | reflexivity | simpl; congruence |].
      now apply (lock_keep _ _ _ AtTest).
    + apply (safe_step_same c i AtTest);
        [assumption | assumption | reflexivity | reflexivity | exact Hw |].
      now apply (lock_keep _ _ _ AtTest).
  - (* AtCertFile *)
    unfold new_CertFile, bind in Hts. rewrite call_run in Hts.
    destruct (raises rt CertFile_new) eqn:E; inversion Hts; subst.
    + apply (safe_step_same c i AtCertFile);
        [assumption | assumption | reflexivity | reflexivity | |].
      * exists CertFile_new. simpl. auto.
      * now apply (lock_keep _ _ _ AtCertFile).
    + apply (safe_step_same c i AtCertFile);
        [assumption | assumption | reflexivity | reflexivity | |].
      * split; [exact Hp | exact E].
      * now apply (lock_keep _ _ _ AtCertFile).
  - (* AtAddCA *)
    destruct Hp as (Hw & H1).
    unfold cf_addstore, bind in Hts. rewrite call_run in Hts.
    destruct (raises rt (addstore "CA")) eqn:E; inversion Hts; subst.
    + apply (safe_step_same c i (AtAddCA cf));
        [assumption | assumption | reflexivity | reflexivity | |].
      * exists (addstore "CA"). simpl. auto.
      * now apply (lock_keep _ _ _ (AtAddCA cf)).
    + apply (safe_step_same c i (AtAddCA cf));
        [assumption | assumption | reflexivity | reflexivity | |].
      * simpl. auto.
      * now apply (lock_keep _ _ _ (AtAddCA cf)).
  - (* AtAddROOT *)
    destruct Hp as (Hw & H1 & H2).
    unfold cf_addstore, bind in Hts. rewrite call_run in Hts.
    destruct (raises rt (addstore "ROOT")) eqn:E; inversion Hts; subst.
    + apply (safe_step_same c i (AtAddROOT cf));
        [assumption | assumption | reflexivity | reflexivity | |].
      * exists (addstore "ROOT"). simpl. auto.
      * now apply (lock_keep _ _ _ (AtAddROOT cf)).
    + apply (safe_step_same c i (AtAddROOT cf));
        [assumption | assumption | reflexivity | reflexivity | |].
      * simpl. unfold no_store_failure. auto.
      * now apply (lock_keep _ _ _ (AtAddROOT cf)).
  - (* AtRegister *)
    destruct Hp as (Hw & Hnf). inversion Hts; subst.
    constructor; simpl.
    + now apply (lock_keep _ _ _ (AtRegister cf)).
    + intros j q Hjq.
      destruct (nth_error_update _ _ _ _ _ Hjq) as [(-> & -> & _) | (_ & Hold)].
      * simpl. auto.
      * apply (thread_safe_same_cache (shared c)); [reflexivity|].
        now apply (safe_threads rt w0 c HS j).
    + apply (safe_cache rt w0 c HS).
    + now right.
  - (* AtStore *)
    destruct Hp as (Hw & Hnf). inversion Hts; subst.
    destruct (lock_holder _ _ _ _ Hl Hnth eq_refl) as [_ Hothers].
    constructor; simpl.
    + now apply (lock_keep _ _ _ (AtStore cf)).
    + intros j q Hjq.
      destruct (nth_error_update _ _ _ _ _ Hjq) as [(-> & -> & _) | (Hne & Hold)].
      * simpl. discriminate.
      * apply (thread_safe_waiting (shared c)).
        -- now apply (Hothers j q).
        -- assumption.
        -- now apply (safe_threads rt w0 c HS j).
    + now right.
    + apply (safe_atexit rt w0 c HS).
  - (* AtRelease *)
    inversion Hts; subst.
    apply (safe_step_same c i (AtRelease pending));
      [assumption | assumption | reflexivity | reflexivity | |].
    + destruct pending; exact Hp.
    + apply (lock_release _ (owner c) _ (AtRelease pending));
        [assumption | assumption | reflexivity |].
      now destruct pending.
  - (* AtLoad *)
    simpl in Hp.
    destruct (_WINCERTS (shared c)) as [cf|] eqn:Hw; [|congruence].
    inversion Hts; subst.
    apply (safe_step_same c i AtLoad);
      [assumption | assumption | reflexivity | reflexivity | exact Hw |].
    now apply (lock_keep _ _ _ AtLoad).
  - (* AtCall *)
    rewrite call_run in Hts.
    destruct (raises rt _); inversion Hts; subst;
      (apply (safe_step_same c i (AtCall cf));
       [assumption | assumption | reflexivity | reflexivity | exact Hp |];
       now apply (lock_keep _ _ _ (AtCall cf))).
  - discriminate.
  - discriminate.
Qed.

Lemma reachable_safe n c :
  reachable rt (initial_config n w0) c -> Safe rt w0 c.
Proof.
  intros Hr. induction Hr as [|c c' _ IH Hs].
  - apply safe_initial.
  - now apply (step_preserves_safe c c').
Qed.

(** While a caller has not finished, some caller can take a step. *)
Lemma lock_progress c :
  lock_inv (threads c) (owner c) -> all_finished c = false ->
  exists c', step rt c c'.
Proof.
  intros Hlock Hnf.
  destruct (owner c) as [j|] eqn:Ho; simpl in Hlock.
  - destruct Hlock as [(pj & Hj & Hcj) _].
    apply (thread_can_run rt c j pj Hj). rewrite Ho.
    apply can_step.
    + destruct pj; simpl in *; congruence.
    + intros ->. discriminate.
  - destruct (unfinished_thread _ Hnf) as (i & p & Hp & Hf).
    apply (thread_can_run rt c i p Hp). rewrite Ho.
    destruct (thread_step rt i p None (shared c)) as [r|] eqn:Hts; [eauto|].
    exfalso. assert (Hc := Hlock i _ Hp).
    destruct p; simpl in Hts, Hc, Hf; try discriminate;
      repeat match goal with
             | H : context [match ?x with _ => _ end] |- _ => destruct x
             end; discriminate.
Qed.

End FailingStore.

(** X11.  Callers arriving together at the OS-store step, in any
    interleaving and whether or not the store can be read: at most one
    is inside the [with] block, and none when the lock is free; a
    caller that failed did so with the exception of [CertFile()] or of
    an [addstore], never on [_WINCERTS.name]; a caller that finished
    with a file has the one [_WINCERTS] holds; while a caller has not
    finished some caller can take a step, and every step uses up work,
    so a failure inside the block leaves no one waiting for the lock.
    When the store cannot be read, [_WINCERTS] and the [atexit]
    registry stay as they were, and with the cache empty every caller
    that finishes has failed. *)
Theorem callers_with_a_failing_store :
  forall (rt : runtime) (n : nat) (w0 : world) (c : Threads.config),
    Threads.reachable rt (Threads.initial_config n w0) c ->
    (forall i j p q,
       nth_error (Threads.threads c) i = Some p ->
       nth_error (Threads.threads c) j = Some q ->
       Threads.critical p = true -> Threads.critical q = true -> i = j)
    /\ (Threads.owner c = None ->
        forall i p, nth_error (Threads.threads c) i = Some p ->
                    Threads.critical p = false)
    /\ (forall i e,
          nth_error (Threads.threads c) i = Some (Threads.Failed e) ->
          store_exn rt e /\ forall msg, e <> AttributeError msg)
    /\ (forall i cf r,
          nth_error (Threads.threads c) i = Some (Threads.Done cf r) ->
          _WINCERTS (Threads.shared c) = Some cf)
    /\ (Threads.all_finished c = false -> exists c', Threads.step rt c c')
    /\ (forall c', Threads.step rt c c' ->
                   (Threads.work c' < Threads.work c)%nat)
    /\ (~ Threads.no_store_failure rt ->
        _WINCERTS (Threads.shared c) = _WINCERTS w0
        /\ atexit (Threads.shared c) = atexit w0
        /\ (_WINCERTS w0 = None ->
            forall i p,
              nth_error (Threads.threads c) i = Some p ->
              Threads.finished p = true ->
              exists e, p = Threads.Failed e /\ store_exn rt e)).
Proof.
  intros rt n w0 c Hreach.
  assert (HS := reachable_safe rt w0 n c Hreach).
  assert (Hl := safe_lock rt w0 c HS).
  split.
  { intros i j p q Hp Hq Hcp Hcq.
    destruct (lock_holder _ _ _ _ Hl Hp Hcp) as [_ Hothers].
    destruct (Nat.eq_dec j i) as [->|Hne]; [reflexivity|].
    rewrite (Hothers j q Hq Hne) in Hcq. discriminate. }
  split.
  { intros Ho i p Hp. rewrite Ho in Hl. now apply (Hl i p). }
  split.
  { intros i e Hp. assert (He := safe_threads rt w0 c HS i _ Hp). simpl in He.
    split; [assumption|].
    intros msg ->. destruct He as (x & _ & _ & Hx). discriminate. }
  split.
  { intros i cf r Hp. exact (safe_threads rt w0 c HS i _ Hp). }
  split.
  { now apply lock_progress. }
  split.
  { apply step_decreases. }
  intros Hfail.
  assert (Hcache : _WINCERTS (Threads.shared c) = _WINCERTS w0).
  { destruct (safe_cache rt w0 c HS); [assumption | contradiction]. }
  split; [assumption|]. split.
  { destruct (safe_atexit rt w0 c HS); [assumption | contradiction]. }
  intros Hw0 i p Hp Hfin.
  assert (Hs := safe_threads rt w0 c HS i p Hp).
  destruct p; simpl in Hfin; try discriminate.
  - simpl in Hs. congruence.
  - eauto.
Qed.

Lemma callers_with_a_failing_store_witness :
  exists c,
    Threads.run_schedule win32_unreadable_store one_then_the_other
      (Threads.initial_config 2 initial_world) = Some c
    /\ Threads.all_finished c = true
    /\ _WINCERTS (Threads.shared c) = None
    /\ atexit (Threads.shared c) = [].
Proof.
  eexists. split; [vm_compute; reflexivity|].
  split; [vm_compute; reflexivity|].
  match goal with
  | |- _WINCERTS (Threads.shared ?c) = None /\ _ =>
      destruct (callers_with_a_failing_store win32_unreadable_store 2
                  initial_world c)
        as (_ & _ & _ & _ & _ & _ & Hfail)
  end.
  - apply (run_schedule_reachable win32_unreadable_store one_then_the_other
             (Threads.initial_config 2 initial_world)
             (Threads.initial_config 2 initial_world)).
    + apply Threads.reachable_start.
    + vm_compute. reflexivity.
  - destruct Hfail as (Hc & Ha & _).
    + intros (_ & _ & H). vm_compute in H. discriminate.
    + split; [exact Hc | exact Ha].
Defined.

(** ** Away from the OS store *)

Lemma resolve_ca_without_store rt ctx :
  ctx_has_load_default_certs rt = true
  \/ String.eqb (sys_platform rt) "win32" && HAVE_WINCERTSTORE rt = false ->
  keeps_cache (resolve_ca rt ctx) /\ emits outside_lock (resolve_ca rt ctx).
Proof.
  intros Hrt. unfold resolve_ca.
  destruct (ctx_has_load_default_certs rt).
  { unfold ctx_load_default_certs. split.
    - apply keeps_bind; [apply keeps_call | intros _; apply keeps_ret].
    - apply emits_bind; [now apply emits_call | intros _; apply emits_ret]. }
  destruct (negb (String.eqb (sys_platform rt) "win32")
            && ctx_has_set_default_verify_paths rt).
  { unfold ctx_set_default_verify_paths. split.
    - apply keeps_bind; [apply keeps_call | intros _; apply keeps_ret].
    - apply emits_bind; [now apply emits_call | intros _; apply emits_ret]. }
  destruct (String.eqb (sys_platform rt) "win32" && HAVE_WINCERTSTORE rt).
  { destruct Hrt; discriminate. }
  destruct (HAVE_CERTIFI rt).
  { split.
    - apply keeps_bind.
      + intros w. simpl. auto.
      + intros b. apply keeps_load_verify_locations.
    - apply emits_bind.
      + unfold certifi_where_call. apply emits_bind.
        * now apply emits_log.
        * intros _. apply emits_ret.
      + intros b. now apply emits_load_verify_locations. }
  split; [apply keeps_raise | apply emits_raise].
Qed.

(** X13.  Where the context has [load_default_certs], or the platform
    is not win32, or [wincertstore] is missing, [get_ssl_context] uses
    no module state: whatever its arguments and outcome it leaves
    [_WINCERTS] and the [atexit] registry alone, creates no [CertFile]
    and never takes the lock. *)
Theorem no_state_without_the_OS_store :
  forall (rt : runtime) (args : ssl_args) (w : world),
    ctx_has_load_default_certs rt = true
    \/ String.eqb (sys_platform rt) "win32" && HAVE_WINCERTSTORE rt = false ->
    _WINCERTS (snd (HaveSSL.get_ssl_context rt args w)) = _WINCERTS w
    /\ atexit (snd (HaveSSL.get_ssl_context rt args w)) = atexit w
    /\ CertFile_count (snd (HaveSSL.get_ssl_context rt args w))
       = CertFile_count w
    /\ Forall outside_lock
         (new_events w (snd (HaveSSL.get_ssl_context rt args w))).
Proof.
  intros rt args w Hrt.
  assert (Hk : keeps_cache (HaveSSL.get_ssl_context rt args)).
  { rewrite get_ssl_context_statements.
    apply keeps_bind; [apply keeps_load_client_cert|]. intros c1.
    apply keeps_bind; [apply keeps_load_crl|]. intros c2.
    apply keeps_bind.
    - unfold load_ca. destruct (ca_certs args).
      + apply keeps_load_verify_locations.
      + destruct (py_ne (cert_reqs args) CERT_NONE).
        * now apply resolve_ca_without_store.
        * apply keeps_ret.
    - intros c3. apply keeps_set_verify_mode. }
  assert (He : emits outside_lock (HaveSSL.get_ssl_context rt args)).
  { rewrite get_ssl_context_statements.
    apply emits_bind.
    { unfold load_client_cert. destruct (certfile args).
      - now apply emits_load_cert_chain.
      - apply emits_ret. }
    intros c1. apply emits_bind.
    { unfold load_crl. destruct (crlfile args).
      - destruct (negb (ctx_has_verify_flags rt)).
        + apply emits_raise.
        + now apply emits_load_verify_locations.
      - apply emits_ret. }
    intros c2. apply emits_bind.
    - unfold load_ca. destruct (ca_certs args).
      + now apply emits_load_verify_locations.
      + destruct (py_ne (cert_reqs args) CERT_NONE).
        * now apply resolve_ca_without_store.
        * apply emits_ret.
    - intros c3. apply emits_set_verify_mode. }
  destruct (Hk w) as (H1 & H2 & H3). destruct (He w) as (evs & Ht & HP).
  repeat split; try assumption.
  now rewrite (new_events_app _ _ _ Ht).
Qed.

Lemma no_state_without_the_OS_store_witness :
  _WINCERTS (snd (HaveSSL.get_ssl_context cpython_linux (only_cert_reqs PNone)
                    initial_world)) = None
  /\ new_events initial_world
       (snd (HaveSSL.get_ssl_context cpython_linux (only_cert_reqs PNone)
               initial_world))
     = [Call load_default_certs].
Proof.
  split.
  - refine (proj1 (no_state_without_the_OS_store cpython_linux
                     (only_cert_reqs PNone) initial_world _)).
    left. reflexivity.
  - vm_compute. reflexivity.
Defined.
